(** * elife-main-6: the admin-form-questions edge function and the agent form

    A shallow embedding of
      - [supabase/functions/admin-form-questions/index.ts]
        ([verifyAdminToken] and the [serve] handler), and
      - [src/components/pennyekart/BulkAgentFormDialog.tsx]
        (the ward-option effects, [onSubmitSingle], [onSubmitBulk], and the
        page component [PennyekartAgentHierarchy] that follows the dialog
        in that file),
    with the properties of the specification stated and proved over it,
    and then further properties of the same code.

    Layout: [Module JS] models the runtime the two files run on (strings,
    [split], [atob], [TextEncoder], SHA-256, [JSON.parse], the coercions);
    [Module AdminFormQuestions] and [Module BulkAgentFormDialog] embed the two
    source files, [Module Submit] the submit handlers with their effects and
    [Module PennyekartAgentHierarchy] the page component; the lemmas and
    theorems follow the definitions. *)

From Stdlib Require Import ZArith List String Ascii Bool Lia.
From Stdlib Require Import Permutation Sorted.
Import ListNotations.
Local Open Scope Z_scope.

(* ===================================================================== *)
(** * The JavaScript runtime used by the two source files                 *)
(* ===================================================================== *)

Module JS.

(** ** Strings

    A JavaScript string is a sequence of UTF-16 code units; a code unit is
    kept as a [Z] in [0, 65535]. *)

Definition jsstring := list Z.

(** A literal of the source text (ASCII in both files). *)
Definition js (s : string) : jsstring :=
  map (fun a => Z.of_N (N_of_ascii a)) (list_ascii_of_string s).

Fixpoint str_eqb (a b : jsstring) : bool :=
  match a, b with
  | [], [] => true
  | x :: a', y :: b' => (x =? y) && str_eqb a' b'
  | _, _ => false
  end.

Definition DOT : Z := 46.

(** [String.prototype.split(sep)] for a one-character separator: the pieces
    between the separators, all of them; the empty string gives [[""]]. *)
Fixpoint split (sep : Z) (s : jsstring) : list jsstring :=
  match s with
  | [] => [[]]
  | c :: rest =>
      if c =? sep then [] :: split sep rest
      else match split sep rest with
           | seg :: segs => (c :: seg) :: segs
           | [] => [[c]]
           end
  end.

(** ** Failures

    The exceptions the modelled calls can raise. *)
Inductive JsError :=
| InvalidCharacterError   (* atob *)
| SyntaxError             (* JSON.parse *)
| TypeError               (* property read on null/undefined, ToPrimitive *)
| RangeError.             (* invalid array length *)

Inductive Result (A : Type) :=
| Ok (a : A)
| Throw (e : JsError).
Arguments Ok {A} a.
Arguments Throw {A} e.

Definition bind {A B} (m : Result A) (k : A -> Result B) : Result B :=
  match m with
  | Ok a => k a
  | Throw e => Throw e
  end.

Declare Scope js_scope.
Delimit Scope js_scope with js.
Notation "x <- m ;; k" := (bind m (fun x => k))
  (at level 61, m at next level, right associativity) : js_scope.

(** ** [atob]: forgiving-base64 decode (WHATWG Infra), raising
    [InvalidCharacterError] on failure *)

Definition is_ascii_whitespace (c : Z) : bool :=
  (c =? 9) || (c =? 10) || (c =? 12) || (c =? 13) || (c =? 32).

(** The value of a character of the base64 alphabet. *)
Definition sextet (c : Z) : option Z :=
  if (65 <=? c) && (c <=? 90) then Some (c - 65)
  else if (97 <=? c) && (c <=? 122) then Some (c - 97 + 26)
  else if (48 <=? c) && (c <=? 57) then Some (c - 48 + 52)
  else if c =? 43 then Some 62
  else if c =? 47 then Some 63
  else None.

Fixpoint sextets (s : jsstring) : option (list Z) :=
  match s with
  | [] => Some []
  | c :: rest =>
      match sextet c, sextets rest with
      | Some v, Some vs => Some (v :: vs)
      | _, _ => None
      end
  end.

(** When the length is a multiple of four, one or two trailing [=] go. *)
Definition strip_padding (d : jsstring) : jsstring :=
  if Z.of_nat (List.length d) mod 4 =? 0 then
    match rev d with
    | 61 :: 61 :: r => rev r
    | 61 :: r => rev r
    | _ => d
    end
  else d.

(** 24 bits give three bytes; a final 12 bits give one byte (the last four
    bits are dropped), a final 18 bits two bytes (the last two dropped). *)
Fixpoint decode_sextets (v : list Z) : jsstring :=
  match v with
  | a :: b :: c :: d :: rest =>
      let n := a * 262144 + b * 4096 + c * 64 + d in
      (n / 65536) :: ((n / 256) mod 256) :: (n mod 256) :: decode_sextets rest
  | [a; b; c] =>
      let n := (a * 4096 + b * 64 + c) / 4 in
      [n / 256; n mod 256]
  | [a; b] => [(a * 64 + b) / 16]
  | _ => []
  end.

Definition atob (data : jsstring) : Result jsstring :=
  let d := filter (fun c => negb (is_ascii_whitespace c)) data in
  let d := strip_padding d in
  if Z.of_nat (List.length d) mod 4 =? 1 then Throw InvalidCharacterError
  else match sextets d with
       | None => Throw InvalidCharacterError
       | Some v => Ok (decode_sextets v)
       end.

(** ** [TextEncoder.prototype.encode]: UTF-8 of a UTF-16 string

    A surrogate pair is one code point of four bytes; a lone surrogate is
    replaced by U+FFFD. *)

Definition is_high_surrogate (c : Z) : bool := (55296 <=? c) && (c <=? 56319).
Definition is_low_surrogate (c : Z) : bool := (56320 <=? c) && (c <=? 57343).

Definition utf8_of_code_point (cp : Z) : list Z :=
  if cp <? 128 then [cp]
  else if cp <? 2048 then [192 + cp / 64; 128 + cp mod 64]
  else if cp <? 65536 then
    [224 + cp / 4096; 128 + (cp / 64) mod 64; 128 + cp mod 64]
  else
    [240 + cp / 262144; 128 + (cp / 4096) mod 64;
     128 + (cp / 64) mod 64; 128 + cp mod 64].

Fixpoint utf8_encode (s : jsstring) : list Z :=
  match s with
  | [] => []
  | c :: rest =>
      if is_high_surrogate c then
        match rest with
        | d :: rest' =>
            if is_low_surrogate d then
              utf8_of_code_point (65536 + (c - 55296) * 1024 + (d - 56320))
                ++ utf8_encode rest'
            else utf8_of_code_point 65533 ++ utf8_encode rest
        | [] => utf8_of_code_point 65533
        end
      else if is_low_surrogate c then utf8_of_code_point 65533 ++ utf8_encode rest
      else utf8_of_code_point c ++ utf8_encode rest
  end.

(** ** [crypto.subtle.digest("SHA-256", _)] (FIPS 180-4)

    Words are 32-bit integers kept in [Z], additions wrap modulo 2^32. *)

Module SHA256.

Definition w32 (x : Z) : Z := x mod 4294967296.
Definition add32 (x y : Z) : Z := w32 (x + y).
Definition rotr (n x : Z) : Z :=
  Z.lor (Z.shiftr x n) (w32 (Z.shiftl x (32 - n))).
Definition shr (n x : Z) : Z := Z.shiftr x n.
Definition not32 (x : Z) : Z := 4294967295 - x.

Definition Ch (x y z : Z) : Z := Z.lxor (Z.land x y) (Z.land (not32 x) z).
Definition Maj (x y z : Z) : Z :=
  Z.lxor (Z.lxor (Z.land x y) (Z.land x z)) (Z.land y z).
Definition Sigma0 (x : Z) : Z := Z.lxor (Z.lxor (rotr 2 x) (rotr 13 x)) (rotr 22 x).
Definition Sigma1 (x : Z) : Z := Z.lxor (Z.lxor (rotr 6 x) (rotr 11 x)) (rotr 25 x).
Definition sigma0 (x : Z) : Z := Z.lxor (Z.lxor (rotr 7 x) (rotr 18 x)) (shr 3 x).
Definition sigma1 (x : Z) : Z := Z.lxor (Z.lxor (rotr 17 x) (rotr 19 x)) (shr 10 x).

(** The constants are computed from their definition: the first 32 bits
    of the fractional parts of the cube roots of the first sixty-four
    primes, and of the square roots of the first eight. *)
Definition is_prime (n : Z) : bool :=
  forallb (fun d => negb (n mod Z.of_nat d =? 0)) (seq 2 (Z.to_nat (Z.sqrt n) - 1)).

Definition primes : list Z :=
  Eval vm_compute in filter is_prime (map Z.of_nat (seq 2 310)).

(** The integer cube root, bit by bit from the top. *)
Definition cube_root (n : Z) : Z :=
  fold_left (fun r b => let r' := r + 2 ^ Z.of_nat b in
                        if r' * r' * r' <=? n then r' else r)
            (rev (seq 0 48)) 0.

Definition K : list Z :=
  Eval vm_compute in map (fun p => w32 (cube_root (p * 2 ^ 96))) primes.

Definition H0 : list Z :=
  Eval vm_compute in map (fun p => w32 (Z.sqrt (p * 2 ^ 64))) (firstn 8 primes).

(** Padding: a 1 bit, zeros up to 56 modulo 64 bytes, the bit length on
    eight bytes, big-endian. *)
Definition be_bytes (n : nat) (x : Z) : list Z :=
  map (fun i => (x / 256 ^ Z.of_nat i) mod 256) (rev (seq 0 n)).

Definition pad (msg : list Z) : list Z :=
  let len := Z.of_nat (List.length msg) in
  let zeros := Z.to_nat ((55 - len) mod 64) in
  msg ++ [128] ++ repeat 0 zeros ++ be_bytes 8 (len * 8).

Fixpoint words_of_bytes (bs : list Z) : list Z :=
  match bs with
  | a :: b :: c :: d :: rest =>
      (a * 16777216 + b * 65536 + c * 256 + d) :: words_of_bytes rest
  | _ => []
  end.

(** The message schedule, most recent word first: [sched] holds
    W(t-1), W(t-2), ... *)
Fixpoint extend (n : nat) (sched : list Z) : list Z :=
  match n with
  | O => sched
  | S n' =>
      let w := add32 (add32 (sigma1 (nth 1 sched 0)) (nth 6 sched 0))
                     (add32 (sigma0 (nth 14 sched 0)) (nth 15 sched 0)) in
      extend n' (w :: sched)
  end.

Definition schedule (block : list Z) : list Z :=
  rev (extend 48 (rev block)).

Definition round (st : list Z) (kw : Z * Z) : list Z :=
  match st with
  | [a; b; c; d; e; f; g; h] =>
      let t1 := add32 (add32 (add32 h (Sigma1 e)) (add32 (Ch e f g) (fst kw)))
                      (snd kw) in
      let t2 := add32 (Sigma0 a) (Maj a b c) in
      [add32 t1 t2; a; b; c; add32 d t1; e; f; g]
  | _ => st
  end.

Definition compress (h : list Z) (block : list Z) : list Z :=
  let st := fold_left round (combine K (schedule block)) h in
  map (fun p => add32 (fst p) (snd p)) (combine h st).

Fixpoint blocks (n : nat) (ws : list Z) : list (list Z) :=
  match n with
  | O => []
  | S n' =>
      match ws with
      | [] => []
      | _ => firstn 16 ws :: blocks n' (skipn 16 ws)
      end
  end.

Definition digest (msg : list Z) : list Z :=
  let ws := words_of_bytes (pad msg) in
  let h := fold_left compress (blocks (List.length ws) ws) H0 in
  flat_map (be_bytes 4) h.

End SHA256.

(** ** [Number.prototype.toString(16)] on a byte and [padStart(2, "0")] *)

Definition hex_digit (d : Z) : Z := if d <? 10 then 48 + d else 87 + d.

Definition byte_toString16 (b : Z) : jsstring :=
  if b <? 16 then [hex_digit b] else [hex_digit (b / 16); hex_digit (b mod 16)].

Definition padStart2 (s : jsstring) : jsstring :=
  match s with
  | [] => [48; 48]
  | [c] => [48; c]
  | _ => s
  end.

(** ** Numbers

    A Number is an IEEE 754 double. A finite double is kept by its value
    [m * 2^e]; the two zeros are not told apart (nothing below depends on
    the sign of zero). *)

Inductive Number :=
| NaN
| Infinity (negative : bool)
| Finite (m e : Z).

(** [m * 2^e] as a fraction with a positive denominator. *)
Definition fraction (m e : Z) : Z * Z :=
  if 0 <=? e then (m * 2 ^ e, 1) else (m, 2 ^ (- e)).

(** [x < y] on Numbers; false as soon as one side is [NaN]. *)
Definition num_ltb (x y : Number) : bool :=
  match x, y with
  | NaN, _ | _, NaN => false
  | Infinity true, Infinity true => false
  | Infinity true, _ => true
  | _, Infinity true => false
  | Infinity false, _ => false
  | _, Infinity false => true
  | Finite m1 e1, Finite m2 e2 =>
      let '(n1, d1) := fraction m1 e1 in
      let '(n2, d2) := fraction m2 e2 in
      n1 * d2 <? n2 * d1
  end.

Definition num_eqb (x y : Number) : bool :=
  match x, y with
  | Infinity a, Infinity b => Bool.eqb a b
  | Finite m1 e1, Finite m2 e2 =>
      let '(n1, d1) := fraction m1 e1 in
      let '(n2, d2) := fraction m2 e2 in
      n1 * d2 =? n2 * d1
  | _, _ => false
  end.

Definition of_int (n : Z) : Number := Finite n 0.

(** One representation for each value: an integer has exponent 0, any other
    value an odd [m]. *)
Fixpoint halve (n : nat) (m e : Z) : Number :=
  match n with
  | O => Finite m e
  | S n' => if Z.even m then halve n' (m / 2) (e + 1) else Finite m e
  end.

Definition canonical (m e : Z) : Number :=
  if m =? 0 then Finite 0 0
  else if 0 <=? e then Finite (m * 2 ^ e) 0
  else halve (Z.to_nat (- e)) m e.

(** Rounding to the nearest double, ties to even: the positive rational
    [a / b] is scaled by a power of two so that its integer part has 53
    bits (fewer in the subnormal range, where the exponent stops at -1074),
    and rounded there; from 2^1024 on the result is infinite. *)
Definition round_half_even (num den : Z) : Z :=
  let q := num / den in
  let r := num mod den in
  if (den <? 2 * r) || ((den =? 2 * r) && Z.odd q) then q + 1 else q.

Definition scaled (a b k : Z) : Z * Z :=
  if 0 <=? k then (a, b * 2 ^ k) else (a * 2 ^ (- k), b).

Definition nearest_double (negative : bool) (a b : Z) : Number :=
  let k0 := Z.log2 a - Z.log2 b - 53 in
  let '(n0, d0) := scaled a b k0 in
  let k1 := if n0 / d0 <? 2 ^ 53 then k0 else k0 + 1 in
  let k := Z.max k1 (-1074) in
  let '(n, d) := scaled a b k in
  let q := round_half_even n d in
  if (971 <? k) || ((k =? 971) && (q =? 2 ^ 53)) then Infinity negative
  else canonical (if negative then - q else q) k.

(** The Number of the decimal [m * 10^e10], [0 <= m]. The two tests on the
    exponent only cut the computation short: above 10^400 every value is
    infinite, below 10^-400 every value rounds to zero. *)
Definition of_decimal (negative : bool) (m e10 : Z) : Number :=
  if m =? 0 then Finite 0 0
  else if 400 <? e10 then Infinity negative
  else if e10 + Z.log2 m + 1 <? -400 then Finite 0 0
  else if 0 <=? e10 then nearest_double negative (m * 10 ^ e10) 1
  else nearest_double negative m (10 ^ (- e10)).

(** *** Digits *)

Definition is_digit (c : Z) : bool := (48 <=? c) && (c <=? 57).

(** The longest prefix of decimal digits, as its value and its length. *)
Fixpoint take_digits (acc : Z) (n : Z) (s : jsstring) : Z * Z * jsstring :=
  match s with
  | c :: rest =>
      if is_digit c then take_digits (10 * acc + (c - 48)) (n + 1) rest
      else (acc, n, s)
  | [] => (acc, n, s)
  end.

(** The decimal digits of a non-negative integer. *)
Fixpoint digits_from (fuel : nat) (n : Z) (acc : jsstring) : jsstring :=
  match fuel with
  | O => acc
  | S f =>
      let acc' := (48 + n mod 10) :: acc in
      if n <? 10 then acc' else digits_from f (n / 10) acc'
  end.

Definition digits_of (n : Z) : jsstring :=
  digits_from (S (Z.to_nat (Z.log2 n))) n [].

(** *** [Number::toString] (radix 10)

    For a positive finite [x = a / b]: the least [n] with [x < 10^n], then
    the shortest digit string [s] of [k] digits with [s * 10^(n-k)] rounding
    to [x], the closest one when two do. *)

Definition lt_pow10 (a b n : Z) : bool :=
  if 0 <=? n then a <? b * 10 ^ n else a * 10 ^ (- n) <? b.

Fixpoint least_pow10 (fuel : nat) (a b n : Z) : Z :=
  match fuel with
  | O => n
  | S f => if lt_pow10 a b n then n else least_pow10 f a b (n + 1)
  end.

Definition magnitude (a b : Z) : Z :=
  least_pow10 8 a b ((Z.log2 a - Z.log2 b) * 30103 / 100000 - 2).

Definition round_trips (x : Number) (s e10 : Z) : bool :=
  num_eqb (of_decimal false s e10) x.

(** The candidate of [k] digits: [Some s] when one of the two integers
    around [x / 10^(n-k)] rounds back to [x]. *)
Definition candidate (x : Number) (a b n k : Z) : option Z :=
  let e10 := n - k in
  let '(num, den) := if 0 <=? e10 then (a, b * 10 ^ e10)
                     else (a * 10 ^ (- e10), b) in
  let lo := num / den in
  let r := num mod den in
  let lo_ok := round_trips x lo e10 in
  let hi_ok := round_trips x (lo + 1) e10 in
  if lo_ok && hi_ok then
    Some (if (2 * r <? den) || ((2 * r =? den) && Z.even lo) then lo else lo + 1)
  else if lo_ok then Some lo
  else if hi_ok then Some (lo + 1)
  else None.

Fixpoint shortest (fuel : nat) (x : Number) (a b n k : Z) : Z * Z :=
  match fuel with
  | O => (0, k)
  | S f =>
      match candidate x a b n k with
      | Some s => (s, k)
      | None => shortest f x a b n (k + 1)
      end
  end.

Definition format_digits (ds : jsstring) (k n : Z) : jsstring :=
  if (k <=? n) && (n <=? 21) then ds ++ repeat 48 (Z.to_nat (n - k))
  else if (0 <? n) && (n <=? 21) then
    firstn (Z.to_nat n) ds ++ [46] ++ skipn (Z.to_nat n) ds
  else if (-6 <? n) && (n <=? 0) then
    [48; 46] ++ repeat 48 (Z.to_nat (- n)) ++ ds
  else
    let e := n - 1 in
    let exponent := [101] ++ (if 0 <=? e then [43] else [45])
                          ++ digits_of (Z.abs e) in
    match ds with
    | [d] => [d] ++ exponent
    | d :: rest => [d; 46] ++ rest ++ exponent
    | [] => exponent
    end.

Definition positive_toString (m e : Z) : jsstring :=
  let '(a, b) := fraction m e in
  let n := magnitude a b in
  let '(s, k) := shortest 17 (Finite m e) a b n 1 in
  if s =? 10 ^ k then format_digits (digits_of (10 ^ (k - 1))) k (n + 1)
  else format_digits (digits_of s) k n.

Definition Number_toString (x : Number) : jsstring :=
  match x with
  | NaN => js "NaN"
  | Infinity false => js "Infinity"
  | Infinity true => js "-Infinity"
  | Finite m e =>
      if m =? 0 then js "0"
      else if m <? 0 then [45] ++ positive_toString (- m) e
      else positive_toString m e
  end.

(** ** Values

    The values [JSON.parse] builds, and [undefined]. An object is the list
    of its own properties in insertion order, each key once. *)

#[warnings="-register-all"]
Inductive JsValue :=
| JUndefined
| JNull
| JBool (b : bool)
| JNum (n : Number)
| JStr (s : jsstring)
| JArr (elems : list JsValue)
| JObj (props : list (jsstring * JsValue)).

Fixpoint lookup (k : jsstring) (props : list (jsstring * JsValue))
  : option JsValue :=
  match props with
  | [] => None
  | (k', v) :: rest => if str_eqb k k' then Some v else lookup k rest
  end.

(** [CreateDataProperty]: a key met again keeps its place and takes the new
    value. *)
Fixpoint define (k : jsstring) (v : JsValue) (props : list (jsstring * JsValue))
  : list (jsstring * JsValue) :=
  match props with
  | [] => [(k, v)]
  | (k', v') :: rest =>
      if str_eqb k k' then (k, v) :: rest else (k', v') :: define k v rest
  end.

(** [v.k] for a property name [k] that no built-in prototype defines (all
    the names the two files read: [exp], [admin_id], [action], [data],
    [program_id], [id], ...): the own property of an object, [undefined] on
    any other value, a [TypeError] on [null] and [undefined]. *)
Definition get (v : JsValue) (k : jsstring) : Result JsValue :=
  match v with
  | JUndefined | JNull => Throw TypeError
  | JObj props =>
      match lookup k props with
      | Some x => Ok x
      | None => Ok JUndefined
      end
  | _ => Ok JUndefined
  end.

(** [v?.k] *)
Definition get_opt (v : JsValue) (k : jsstring) : JsValue :=
  match v with
  | JObj props =>
      match lookup k props with
      | Some x => x
      | None => JUndefined
      end
  | _ => JUndefined
  end.

(** ** [JSON.parse] *)

Definition is_json_ws (c : Z) : bool :=
  (c =? 32) || (c =? 9) || (c =? 10) || (c =? 13).

Fixpoint skip_ws (s : jsstring) : jsstring :=
  match s with
  | c :: rest => if is_json_ws c then skip_ws rest else s
  | [] => []
  end.

Fixpoint strip_prefix (p s : jsstring) : option jsstring :=
  match p, s with
  | [], _ => Some s
  | x :: p', y :: s' => if x =? y then strip_prefix p' s' else None
  | _ :: _, [] => None
  end.

Definition hex_value (c : Z) : option Z :=
  if is_digit c then Some (c - 48)
  else if (97 <=? c) && (c <=? 102) then Some (c - 87)
  else if (65 <=? c) && (c <=? 70) then Some (c - 55)
  else None.

(** The character an escape letter stands for. *)
Definition unescape (e : Z) : option Z :=
  if e =? 34 then Some 34 else if e =? 92 then Some 92
  else if e =? 47 then Some 47 else if e =? 98 then Some 8
  else if e =? 102 then Some 12 else if e =? 110 then Some 10
  else if e =? 114 then Some 13 else if e =? 116 then Some 9
  else None.

Definition hex4 (a b c d : Z) : option Z :=
  match hex_value a, hex_value b, hex_value c, hex_value d with
  | Some x, Some y, Some z, Some w => Some (x * 4096 + y * 256 + z * 16 + w)
  | _, _, _, _ => None
  end.

(** The characters of a string literal after its opening quote: up to the
    closing quote, no control character, a backslash starting an escape. *)
Fixpoint parse_chars (s : jsstring) (acc : jsstring)
  : option (jsstring * jsstring) :=
  match s with
  | [] => None
  | c :: rest =>
      if c =? 34 then Some (rev acc, rest)
      else if c =? 92 then
        match rest with
        | [] => None
        | e :: rest1 =>
            if e =? 117 then
              match rest1 with
              | a :: b :: c' :: d :: rest2 =>
                  match hex4 a b c' d with
                  | Some u => parse_chars rest2 (u :: acc)
                  | None => None
                  end
              | _ => None
              end
            else
              match unescape e with
              | Some x => parse_chars rest1 (x :: acc)
              | None => None
              end
        end
      else if c <? 32 then None
      else parse_chars rest (c :: acc)
  end.

(** A number: an optional minus, an integer part without leading zero, an
    optional fraction (a dot and at least one digit), an optional exponent
    (e or E, an optional sign, at least one digit). *)
Definition parse_fraction (s : jsstring) : option (Z * Z * jsstring) :=
  match s with
  | c :: rest =>
      if c =? 46 then
        let '(f, n, rest') := take_digits 0 0 rest in
        if n =? 0 then None else Some (f, n, rest')
      else Some (0, 0, s)
  | [] => Some (0, 0, s)
  end.

Definition exponent_sign (s : jsstring) : Z * jsstring :=
  match s with
  | c :: r => if c =? 43 then (1, r) else if c =? 45 then (-1, r) else (1, s)
  | [] => (1, s)
  end.

Definition parse_exponent (s : jsstring) : option (Z * jsstring) :=
  match s with
  | c :: rest =>
      if (c =? 101) || (c =? 69) then
        let '(sign, rest1) := exponent_sign rest in
        let '(x, n, rest2) := take_digits 0 0 rest1 in
        if n =? 0 then None else Some (sign * x, rest2)
      else Some (0, s)
  | [] => Some (0, s)
  end.

Definition minus_sign (s : jsstring) : bool * jsstring :=
  match s with
  | c :: r => if c =? 45 then (true, r) else (false, s)
  | [] => (false, s)
  end.

Definition parse_number (s : jsstring) : option (Number * jsstring) :=
  let '(negative, s1) := minus_sign s in
  match s1 with
  | c :: r1 =>
      if is_digit c then
        let '(ip, _, s2) :=
          if c =? 48 then (0, 1, r1) else take_digits 0 0 s1 in
        match parse_fraction s2 with
        | None => None
        | Some (fp, fn, s3) =>
            match parse_exponent s3 with
            | None => None
            | Some (ex, s4) =>
                Some (of_decimal negative (ip * 10 ^ fn + fp) (ex - fn), s4)
            end
        end
      else None
  | [] => None
  end.

(** The next character after white space. *)
Definition next (s : jsstring) : option (Z * jsstring) :=
  match skip_ws s with
  | c :: rest => Some (c, rest)
  | [] => None
  end.

(** What the parser makes of a text: a value and the rest of the text, or
    a syntax error. [Exhausted] is the end of the fuel, which the fuel
    [JSON_parse] gives never reaches (lemma [JSON_parse_fuel]). *)
Inductive Parsed :=
| Value (v : JsValue) (rest : jsstring)
| Invalid
| Exhausted.

Definition literal (word : string) (v : JsValue) (s : jsstring) : Parsed :=
  match strip_prefix (js word) s with
  | Some rest => Value v rest
  | None => Invalid
  end.

(** The recursive descent; [fuel] bounds the depth of the calls. *)
Fixpoint parse_value (fuel : nat) (s : jsstring) : Parsed :=
  match fuel with
  | O => Exhausted
  | S f =>
      match next s with
      | None => Invalid
      | Some (c, r) =>
          if c =? 123 then
            match next r with
            | Some (c', r') =>
                if c' =? 125 then Value (JObj []) r' else parse_members f [] r
            | None => Invalid
            end
          else if c =? 91 then
            match next r with
            | Some (c', r') =>
                if c' =? 93 then Value (JArr []) r' else parse_elements f [] r
            | None => Invalid
            end
          else if c =? 34 then
            match parse_chars r [] with
            | Some (str, r') => Value (JStr str) r'
            | None => Invalid
            end
          else if c =? 116 then literal "rue" (JBool true) r
          else if c =? 102 then literal "alse" (JBool false) r
          else if c =? 110 then literal "ull" JNull r
          else
            match parse_number (c :: r) with
            | Some (n, r') => Value (JNum n) r'
            | None => Invalid
            end
      end
  end

with parse_elements (fuel : nat) (acc : list JsValue) (s : jsstring) : Parsed :=
  match fuel with
  | O => Exhausted
  | S f =>
      match parse_value f s with
      | Value v r =>
          match next r with
          | Some (c, r') =>
              if c =? 44 then parse_elements f (v :: acc) r'
              else if c =? 93 then Value (JArr (rev (v :: acc))) r'
              else Invalid
          | None => Invalid
          end
      | failure => failure
      end
  end

with parse_members (fuel : nat) (acc : list (jsstring * JsValue)) (s : jsstring)
  : Parsed :=
  match fuel with
  | O => Exhausted
  | S f =>
      match next s with
      | Some (q, r) =>
          if q =? 34 then
            match parse_chars r [] with
            | None => Invalid
            | Some (k, r1) =>
                match next r1 with
                | Some (colon, r2) =>
                    if colon =? 58 then
                      match parse_value f r2 with
                      | Value v r3 =>
                          match next r3 with
                          | Some (c, r4) =>
                              if c =? 44 then parse_members f (define k v acc) r4
                              else if c =? 125
                                   then Value (JObj (define k v acc)) r4
                                   else Invalid
                          | None => Invalid
                          end
                      | failure => failure
                      end
                    else Invalid
                | None => Invalid
                end
            end
          else Invalid
      | None => Invalid
      end
  end.

Definition JSON_parse (text : jsstring) : Result JsValue :=
  match parse_value (2 * List.length text + 2) text with
  | Value v rest =>
      match skip_ws rest with
      | [] => Ok v
      | _ => Throw SyntaxError
      end
  | Invalid | Exhausted => Throw SyntaxError
  end.

(** ** Coercions *)

Definition ToBoolean (v : JsValue) : bool :=
  match v with
  | JUndefined | JNull => false
  | JBool b => b
  | JNum NaN => false
  | JNum (Finite m _) => negb (m =? 0)
  | JNum (Infinity _) => true
  | JStr s => match s with [] => false | _ => true end
  | JArr _ | JObj _ => true
  end.

(** [a || b] and [a ?? b] on values. *)
Definition or_else (a b : JsValue) : JsValue := if ToBoolean a then a else b.

Definition nullish_else (a b : JsValue) : JsValue :=
  match a with
  | JUndefined | JNull => b
  | _ => a
  end.

Definition has_own (k : jsstring) (props : list (jsstring * JsValue)) : bool :=
  match lookup k props with
  | Some _ => true
  | None => false
  end.

(** [ToString]. An array is joined with commas, [null] and [undefined]
    elements giving the empty string. A plain object gives
    ["[object Object]"] through [Object.prototype.toString]; when it has an
    own property [toString] (never a function in a parsed value) neither
    [toString] nor [valueOf] yields a primitive and [ToPrimitive] raises a
    [TypeError]. *)
Fixpoint ToString (v : JsValue) : Result jsstring :=
  match v with
  | JUndefined => Ok (js "undefined")
  | JNull => Ok (js "null")
  | JBool true => Ok (js "true")
  | JBool false => Ok (js "false")
  | JNum n => Ok (Number_toString n)
  | JStr s => Ok s
  | JArr elems =>
      let element x :=
        match x with
        | JUndefined | JNull => Ok []
        | _ => ToString x
        end in
      (fix join (l : list JsValue) : Result jsstring :=
         match l with
         | [] => Ok []
         | [x] => element x
         | x :: rest =>
             (a <- element x ;; b <- join rest ;; Ok (a ++ [44] ++ b))%js
         end) elems
  | JObj props =>
      if has_own (js "toString") props then Throw TypeError
      else Ok (js "[object Object]")
  end.

(** White space and line terminators ([StrWhiteSpaceChar]). *)
Definition is_js_whitespace (c : Z) : bool :=
  (c =? 9) || (c =? 10) || (c =? 11) || (c =? 12) || (c =? 13) || (c =? 32)
  || (c =? 160) || (c =? 5760) || ((8192 <=? c) && (c <=? 8202))
  || (c =? 8232) || (c =? 8233) || (c =? 8239) || (c =? 8287)
  || (c =? 12288) || (c =? 65279).

Fixpoint trim_start (s : jsstring) : jsstring :=
  match s with
  | c :: rest => if is_js_whitespace c then trim_start rest else s
  | [] => []
  end.

Definition trim (s : jsstring) : jsstring :=
  rev (trim_start (rev (trim_start s))).

(** Digits of a radix below ten or sixteen, for [0b], [0o] and [0x]. *)
Fixpoint radix_value (radix : Z) (acc : Z) (s : jsstring) : option Z :=
  match s with
  | [] => Some acc
  | c :: rest =>
      match hex_value c with
      | Some d => if d <? radix then radix_value radix (radix * acc + d) rest
                  else None
      | None => None
      end
  end.

Definition of_integer (negative : bool) (n : Z) : Number :=
  of_decimal negative n 0.

(** [StrUnsignedDecimalLiteral] after the sign: [Infinity], or digits with
    an optional fraction and exponent, at least one digit before the
    exponent; anything left over makes the string not a number. *)
Definition unsigned_decimal (negative : bool) (s : jsstring) : Number :=
  match strip_prefix (js "Infinity") s with
  | Some [] => Infinity negative
  | Some _ => NaN
  | None =>
      let '(ip, inn, s1) := take_digits 0 0 s in
      let '(fp, fnn, s2) :=
        match s1 with
        | 46 :: r => take_digits 0 0 r
        | _ => (0, 0, s1)
        end in
      if inn + fnn =? 0 then NaN
      else match parse_exponent s2 with
           | Some (ex, []) => of_decimal negative (ip * 10 ^ fnn + fp) (ex - fnn)
           | _ => NaN
           end
  end.

Definition StringToNumber (str : jsstring) : Number :=
  match trim str with
  | [] => Finite 0 0
  | 48 :: p :: d :: ds =>
      let radix :=
        if (p =? 120) || (p =? 88) then Some 16
        else if (p =? 111) || (p =? 79) then Some 8
        else if (p =? 98) || (p =? 66) then Some 2
        else None in
      match radix with
      | Some r =>
          match radix_value r 0 (d :: ds) with
          | Some n => of_integer false n
          | None => NaN
          end
      | None => unsigned_decimal false (trim str)
      end
  | 43 :: rest => unsigned_decimal false rest
  | 45 :: rest => unsigned_decimal true rest
  | s => unsigned_decimal false s
  end.

(** [ToNumber]; an object or array goes through [ToPrimitive], which gives
    its string. *)
Definition ToNumber (v : JsValue) : Result Number :=
  match v with
  | JUndefined => Ok NaN
  | JNull => Ok (Finite 0 0)
  | JBool true => Ok (Finite 1 0)
  | JBool false => Ok (Finite 0 0)
  | JNum n => Ok n
  | JStr s => Ok (StringToNumber s)
  | JArr _ | JObj _ => (s <- ToString v ;; Ok (StringToNumber s))%js
  end.

(** [v < n] for a Number [n]: [v] is coerced, and a [NaN] gives false. *)
Definition less_than (v : JsValue) (n : Number) : Result bool :=
  (x <- ToNumber v ;; Ok (num_ltb x n))%js.

(** [parseInt(str, 10)]: leading white space, an optional sign, the longest
    prefix of decimal digits; [NaN] without a digit. *)
Definition integer_sign (s : jsstring) : bool * jsstring :=
  match s with
  | c :: r => if c =? 45 then (true, r) else if c =? 43 then (false, r)
              else (false, s)
  | [] => (false, s)
  end.

Definition parseInt10 (str : jsstring) : Number :=
  let '(negative, s1) := integer_sign (trim_start str) in
  let '(n, len, _) := take_digits 0 0 s1 in
  if len =? 0 then NaN else of_integer negative n.

Definition isNaN (n : Number) : bool :=
  match n with
  | NaN => true
  | _ => false
  end.

(** [ToLength]: the integer part, kept within [0, 2^53 - 1]. *)
Definition ToLength (x : Number) : Z :=
  match x with
  | NaN | Infinity true => 0
  | Infinity false => 2 ^ 53 - 1
  | Finite m e =>
      let '(n, d) := fraction m e in
      Z.max 0 (Z.min (Z.quot n d) (2 ^ 53 - 1))
  end.

(** [Array.from({ length: len }, (_, i) => f(i))]; the Array constructor
    refuses a length above 2^32 - 1. *)
Definition Array_from_length {A} (len : Number) (f : Z -> A) : Result (list A) :=
  let n := ToLength len in
  if 4294967295 <? n then Throw RangeError
  else Ok (map (fun i => f (Z.of_nat i)) (seq 0 (Z.to_nat n))).

(** [String(n)] for an integer [n]. *)
Definition String_of_int (n : Z) : jsstring := Number_toString (of_int n).

(** ** [String.prototype.includes] *)

Fixpoint starts_with (s sub : jsstring) : bool :=
  match sub, s with
  | [], _ => true
  | y :: sub', x :: s' => (x =? y) && starts_with s' sub'
  | _ :: _, [] => false
  end.

Fixpoint includes (s sub : jsstring) : bool :=
  starts_with s sub
  || match s with
     | [] => false
     | _ :: s' => includes s' sub
     end.

(** ** [a < b] on strings: by code units, a proper prefix first *)

Fixpoint str_ltb (a b : jsstring) : bool :=
  match a, b with
  | _, [] => false
  | [], _ :: _ => true
  | x :: a', y :: b' => (x <? y) || ((x =? y) && str_ltb a' b')
  end.

(** ** [Array.prototype.sort()] on strings, without a comparator

    Ascending by code units. The sort is stable: an element goes after
    those that are not above it. *)

Fixpoint sort_insert (x : jsstring) (sorted : list jsstring) : list jsstring :=
  match sorted with
  | [] => [x]
  | y :: rest => if str_ltb x y then x :: sorted else y :: sort_insert x rest
  end.

Definition Array_sort (items : list jsstring) : list jsstring :=
  fold_left (fun sorted x => sort_insert x sorted) items [].

(** ** [[...new Set(items)]]: the first occurrence of each string, in
    order *)

Definition Set_values (items : list jsstring) : list jsstring :=
  fold_left (fun set x => if existsb (str_eqb x) set then set else set ++ [x])
            items [].

End JS.

Import JS.
Local Open Scope js_scope.

(* ===================================================================== *)
(** * supabase/functions/admin-form-questions/index.ts                    *)
(* ===================================================================== *)

Module AdminFormQuestions.

(** What the function writes to the console. *)
Inductive ConsoleLine :=
| console_log (msg : string)
| console_error (msg : string) (error : JsError).

(** An async function settles: it returns or it throws. *)
Inductive Promise (A : Type) :=
| Fulfilled (a : A)
| Rejected (e : JsError).
Arguments Fulfilled {A} a.
Arguments Rejected {A} e.


(** ** [verifyAdminToken] *)

(** [!x] for [x : string | undefined]. *)
Definition absent (x : option jsstring) : bool :=
  match x with
  | None | Some [] => true
  | Some (_ :: _) => false
  end.

(** Lines 35-41: the lowercase hex of SHA-256 over the UTF-8 bytes of
    [tokenData + serviceKey]. *)
Definition expectedSignature (tokenData serviceKey : jsstring) : jsstring :=
  let tokenBuffer := utf8_encode (tokenData ++ serviceKey) in
  let signatureArray := SHA256.digest tokenBuffer in
  flat_map (fun b => padStart2 (byte_toString16 b)) signatureArray.

(** Lines 25-48, once both parts are there. [now] is what [Date.now()]
    returns. The result is the console output and the returned value,
    [JNull] for [return null]. *)
Definition verify_parts (now : Z) (serviceKey payloadBase64 signature : jsstring)
  : Result (list ConsoleLine * JsValue) :=
  tokenData <- atob payloadBase64 ;;
  payload <- JSON_parse tokenData ;;
  exp <- get payload (js "exp") ;;
  expired <- less_than exp (of_int now) ;;
  if expired then Ok ([console_log "Token expired"], JNull)
  else if negb (str_eqb signature (expectedSignature tokenData serviceKey))
  then Ok ([console_log "Invalid signature"], JNull)
  else Ok ([], payload).

(** The body of the [try] block: lines 22-23, then the checks. *)
Definition verifyAdminToken_try (now : Z) (token serviceKey : jsstring)
  : Result (list ConsoleLine * JsValue) :=
  let parts := split DOT token in
  let payloadBase64 := nth_error parts 0 in
  let signature := nth_error parts 1 in
  if absent payloadBase64 || absent signature then Ok ([], JNull)
  else
    match payloadBase64, signature with
    | Some payloadBase64, Some signature =>
        verify_parts now serviceKey payloadBase64 signature
    | _, _ => Ok ([], JNull)
    end.

(** The [catch] clause turns every exception into [null]. *)
Definition catch_all (r : Result (list ConsoleLine * JsValue))
  : Promise (list ConsoleLine * JsValue) :=
  match r with
  | Ok r => Fulfilled r
  | Throw error =>
      Fulfilled ([console_error "Token verification error:" error], JNull)
  end.

Definition verifyAdminToken (now : Z) (token serviceKey : jsstring)
  : Promise (list ConsoleLine * JsValue) :=
  catch_all (verifyAdminToken_try now token serviceKey).

(** ** The data service

    The rows the handler reads, with the columns it selects. *)

Module Admin.
Record row := { id : jsstring; is_active : option bool; division_id : option jsstring }.
End Admin.

Module Program.
Record row := { division_id : option jsstring }.
End Program.

Module Question.
Record row := { id : jsstring; program_id : jsstring }.
End Question.

Module Postgrest.
Record Error := { message : jsstring }.

(** What a query resolves to: [{ data, error }]. *)
Record Reply (A : Type) := { data : option A; error : option Error }.
Arguments data {A} r.
Arguments error {A} r.
End Postgrest.

(** The object given to [insert]. *)
Module InsertPayload.
Record t := {
  program_id : jsstring;
  question_text : jsstring;
  question_type : jsstring;
  is_required : bool;
  options : JsValue;
  sort_order : Number }.
End InsertPayload.

(** [updatePayload]: a field is present when the request gave it. *)
Module UpdatePayload.
Record t := {
  question_text : option jsstring;
  question_type : option jsstring;
  is_required : option bool;
  options : option JsValue;
  sort_order : option Number }.
End UpdatePayload.

(** The queries of the file, by table. *)
Inductive Query :=
| admins_select_single (id : JsValue)
| programs_select_single (id : jsstring)
| questions_select_single (id : jsstring)
| questions_select_ordered (program_id : jsstring)
| questions_insert (row : InsertPayload.t)
| questions_update (id : jsstring) (fields : UpdatePayload.t)
| questions_delete (id : jsstring).

(** The store is outside the program: it is given by what it answers. *)
Record DataService := {
  admins_by_id : JsValue -> Postgrest.Reply Admin.row;
  programs_by_id : jsstring -> Postgrest.Reply Program.row;
  questions_by_id : jsstring -> Postgrest.Reply Question.row;
  questions_of_program : jsstring -> Postgrest.Reply JsValue;
  insert_question : InsertPayload.t -> Postgrest.Reply JsValue;
  update_question : jsstring -> UpdatePayload.t -> Postgrest.Reply JsValue;
  delete_question : jsstring -> option Postgrest.Error }.

(** ** Requests and responses *)

Record Request := {
  method : jsstring;
  x_admin_token : option jsstring;   (* req.headers.get("x-admin-token") *)
  json : Result JsValue }.           (* await req.json() *)

(** The object given to [JSON.stringify]. *)
Inductive Body :=
| no_body
| error_body (error : jsstring)
| success_questions (questions : option JsValue)
| success_question (question : option JsValue)
| success_only.

Record Response := { body : Body; status : Z }.

(** ** The handler's effects

    A computation of the handler asks the data service, writes to the
    console, and ends in a value, in a [return] of the response, or in an
    exception. The effects are recorded in order. *)

Inductive Event :=
| asked (q : Query)
| wrote (line : ConsoleLine).

Inductive Step (A : Type) :=
| Next (a : A)
| Return (r : Response)
| Raise (e : JsError).
Arguments Next {A} a.
Arguments Return {A} r.
Arguments Raise {A} e.

Definition Handler (A : Type) : Type :=
  DataService -> list Event -> Step A * list Event.

Definition ret {A} (a : A) : Handler A := fun _ log => (Next a, log).

Definition and_then {A B} (m : Handler A) (k : A -> Handler B) : Handler B :=
  fun db log =>
    match m db log with
    | (Next a, log') => k a db log'
    | (Return r, log') => (Return r, log')
    | (Raise e, log') => (Raise e, log')
    end.

Definition respond {A} (r : Response) : Handler A := fun _ log => (Return r, log).

Definition lift {A} (r : Result A) : Handler A :=
  fun _ log =>
    match r with
    | Ok a => (Next a, log)
    | Throw e => (Raise e, log)
    end.

Definition ask {A} (q : Query) (answer : DataService -> A) : Handler A :=
  fun db log => (Next (answer db), log ++ [asked q]).

Definition write (lines : list ConsoleLine) : Handler unit :=
  fun _ log => (Next tt, log ++ map wrote lines).

Declare Scope handler_scope.
Delimit Scope handler_scope with handler.
Notation "x <-- m ;; k" := (and_then m (fun x => k))
  (at level 61, m at next level, right associativity) : handler_scope.
Notation "m ;;; k" := (and_then m (fun _ => k))
  (at level 61, right associativity) : handler_scope.
Local Open Scope handler_scope.

Definition json_error (msg : string) (code : Z) : Response :=
  {| body := error_body (js msg); status := code |}.

(** [if (c) return r;] *)
Definition return_if (c : bool) (r : Response) : Handler unit :=
  if c then respond r else ret tt.

Definition is_some {A} (x : option A) : bool :=
  match x with
  | Some _ => true
  | None => false
  end.

(** [a === b] on [string | null]. *)
Definition same_division (a b : option jsstring) : bool :=
  match a, b with
  | None, None => true
  | Some x, Some y => str_eqb x y
  | _, _ => false
  end.

(** Lines 113-122. *)
Definition verifyProgramAccess (divisionId : option jsstring) (programId : jsstring)
  : Handler bool :=
  reply <-- ask (programs_select_single programId)
                (fun db => programs_by_id db programId) ;;
  match Postgrest.error reply, Postgrest.data reply with
  | None, Some program => ret (same_division (Program.division_id program) divisionId)
  | _, _ => ret false
  end.

Definition forbidden : Response :=
  json_error "You can only manage questions for programs in your division" 403.

(** [if (error) return 400 with error.message], else the success body. *)
Definition finish {A} (reply : Postgrest.Reply A) (ok : Body) : Handler Response :=
  match Postgrest.error reply with
  | Some e => respond {| body := error_body (Postgrest.message e); status := 400 |}
  | None => respond {| body := ok; status := 200 |}
  end.

(** [String(data?.k || fallback)] *)
Definition string_field (data : JsValue) (k : string) (fallback : string)
  : Handler jsstring :=
  lift (ToString (or_else (get_opt data (js k)) (JStr (js fallback)))).

Definition is_empty (s : jsstring) : bool :=
  match s with
  | [] => true
  | _ => false
  end.

(** Lines 125-166. *)
Definition action_list (divisionId : option jsstring) (data : JsValue)
  : Handler Response :=
  programId <-- string_field data "program_id" "" ;;
  return_if (is_empty programId) (json_error "program_id is required" 400) ;;;
  allowed <-- verifyProgramAccess divisionId programId ;;
  return_if (negb allowed) forbidden ;;;
  reply <-- ask (questions_select_ordered programId)
                (fun db => questions_of_program db programId) ;;
  finish reply (success_questions (Postgrest.data reply)).

(** Lines 168-228. *)
Definition action_create (divisionId : option jsstring) (data : JsValue)
  : Handler Response :=
  programId <-- string_field data "program_id" "" ;;
  return_if (is_empty programId) (json_error "program_id is required" 400) ;;;
  allowed <-- verifyProgramAccess divisionId programId ;;
  return_if (negb allowed) forbidden ;;;
  question_text <-- string_field data "question_text" "" ;;
  question_type <-- string_field data "question_type" "text" ;;
  sort_order <-- lift (ToNumber (nullish_else (get_opt data (js "sort_order"))
                                              (JNum (of_int 0)))) ;;
  let insertPayload :=
    {| InsertPayload.program_id := programId;
       InsertPayload.question_text := trim question_text;
       InsertPayload.question_type := question_type;
       InsertPayload.is_required :=
         ToBoolean (or_else (get_opt data (js "is_required")) (JBool false));
       InsertPayload.options := nullish_else (get_opt data (js "options")) JNull;
       InsertPayload.sort_order := sort_order |} in
  return_if (is_empty (InsertPayload.question_text insertPayload))
            (json_error "question_text is required" 400) ;;;
  reply <-- ask (questions_insert insertPayload)
                (fun db => insert_question db insertPayload) ;;
  finish reply (success_question (Postgrest.data reply)).

(** [if (data?.k !== undefined) updatePayload.k = convert(data.k)] *)
Definition optional_field {A} (data : JsValue) (k : string)
  (convert : JsValue -> Result A) : Handler (option A) :=
  match get_opt data (js k) with
  | JUndefined => ret None
  | v => x <-- lift (convert v) ;; ret (Some x)
  end.

(** Lines 239-250 and 304-315: the question is looked up by its id to learn
    its program. *)
Definition existing_question (questionId : jsstring) : Handler Question.row :=
  reply <-- ask (questions_select_single questionId)
                (fun db => questions_by_id db questionId) ;;
  match Postgrest.error reply, Postgrest.data reply with
  | None, Some existing => ret existing
  | _, _ => respond (json_error "Question not found" 404)
  end.

(** Lines 230-293. *)
Definition action_update (divisionId : option jsstring) (data : JsValue)
  : Handler Response :=
  questionId <-- string_field data "id" "" ;;
  return_if (is_empty questionId) (json_error "id is required" 400) ;;;
  existing <-- existing_question questionId ;;
  allowed <-- verifyProgramAccess divisionId (Question.program_id existing) ;;
  return_if (negb allowed) forbidden ;;;
  question_text <-- optional_field data "question_text"
                      (fun v => s <- ToString v ;; Ok (trim s))%js ;;
  question_type <-- optional_field data "question_type" ToString ;;
  is_required <-- optional_field data "is_required" (fun v => Ok (ToBoolean v)) ;;
  options <-- optional_field data "options" (fun v => Ok v) ;;
  sort_order <-- optional_field data "sort_order" ToNumber ;;
  let updatePayload :=
    {| UpdatePayload.question_text := question_text;
       UpdatePayload.question_type := question_type;
       UpdatePayload.is_required := is_required;
       UpdatePayload.options := options;
       UpdatePayload.sort_order := sort_order |} in
  reply <-- ask (questions_update questionId updatePayload)
                (fun db => update_question db questionId updatePayload) ;;
  finish reply (success_question (Postgrest.data reply)).

(** Lines 295-345. *)
Definition action_delete (divisionId : option jsstring) (data : JsValue)
  : Handler Response :=
  questionId <-- string_field data "id" "" ;;
  return_if (is_empty questionId) (json_error "id is required" 400) ;;;
  existing <-- existing_question questionId ;;
  allowed <-- verifyProgramAccess divisionId (Question.program_id existing) ;;
  return_if (negb allowed) forbidden ;;;
  failure <-- ask (questions_delete questionId)
                  (fun db => delete_question db questionId) ;;
  match failure with
  | Some e => respond {| body := error_body (Postgrest.message e); status := 400 |}
  | None => respond {| body := success_only; status := 200 |}
  end.

Definition await {A} (p : Promise A) : Handler A :=
  fun _ log =>
    match p with
    | Fulfilled a => (Next a, log)
    | Rejected e => (Raise e, log)
    end.

(** [action === name] *)
Definition is_action (action : JsValue) (name : string) : bool :=
  match action with
  | JStr s => str_eqb s (js name)
  | _ => false
  end.

(** [!admin.is_active] for a nullable boolean column. *)
Definition inactive (admin : Admin.row) : bool :=
  match Admin.is_active admin with
  | Some true => false
  | _ => true
  end.

(** Lines 124-352: [switch (action)]. *)
Definition switch_action (divisionId : option jsstring) (action data : JsValue)
  : Handler Response :=
  if is_action action "list" then action_list divisionId data
  else if is_action action "create" then action_create divisionId data
  else if is_action action "update" then action_update divisionId data
  else if is_action action "delete" then action_delete divisionId data
  else respond (json_error "Invalid action" 400).

(** Lines 98-352: the request of an admin found active. *)
Definition handle_request (admin : Admin.row) (req : Request) : Handler Response :=
  body <-- lift (json req) ;;
  action <-- lift (get body (js "action")) ;;
  data <-- lift (get body (js "data")) ;;
  return_if (negb (ToBoolean action)) (json_error "Action is required" 400) ;;;
  let divisionId := Admin.division_id admin in
  switch_action divisionId action data.

(** Lines 81-96, then the request: the admin record is fetched again by the
    [admin_id] of the token and must be active. *)
Definition with_active_admin (admin_id : JsValue) (req : Request)
  : Handler Response :=
  reply <-- ask (admins_select_single admin_id)
                (fun db => admins_by_id db admin_id) ;;
  match Postgrest.data reply with
  | None => respond (json_error "Admin account not found or inactive" 401)
  | Some admin =>
      return_if (is_some (Postgrest.error reply) || inactive admin)
                (json_error "Admin account not found or inactive" 401) ;;;
      handle_request admin req
  end.

(** Lines 60-352, the body of the [try] block. [supabaseServiceKey] is the
    value of the environment variable (both variables are set), [now] what
    [Date.now()] returns. *)
Definition serve_try (now : Z) (supabaseServiceKey : jsstring) (req : Request)
  : Handler Response :=
  return_if (absent (x_admin_token req))
            (json_error "Admin token required" 401) ;;;
  let adminToken := match x_admin_token req with Some t => t | None => [] end in
  verified <-- await (verifyAdminToken now adminToken supabaseServiceKey) ;;
  write (fst verified) ;;;
  let adminPayload := snd verified in
  return_if (negb (ToBoolean adminPayload))
            (json_error "Invalid or expired token" 401) ;;;
  admin_id <-- lift (get adminPayload (js "admin_id")) ;;
  with_active_admin admin_id req.

(** Lines 55-360: the pre-flight answer, the [try] block and its [catch].
    The result is the response and the effects in order. *)
Definition serve (now : Z) (supabaseServiceKey : jsstring) (req : Request)
  (db : DataService) : Response * list Event :=
  if str_eqb (method req) (js "OPTIONS")
  then ({| body := no_body; status := 200 |}, [])
  else
    match serve_try now supabaseServiceKey req db [] with
    | (Next r, log) | (Return r, log) => (r, log)
    | (Raise e, log) =>
        (json_error "Internal server error" 500,
         log ++ [wrote (console_error "Error in admin-form-questions:" e)])
    end.

End AdminFormQuestions.

(* ===================================================================== *)
(** * src/components/pennyekart/BulkAgentFormDialog.tsx                   *)
(* ===================================================================== *)

Module BulkAgentFormDialog.

Inductive AgentRole := team_leader | coordinator | group_leader | pro.

Definition role_eqb (a b : AgentRole) : bool :=
  match a, b with
  | team_leader, team_leader | coordinator, coordinator
  | group_leader, group_leader | pro, pro => true
  | _, _ => false
  end.

Module Panchayath.
Record t := { id : jsstring; name : jsstring; ward : option jsstring }.
End Panchayath.

(** ** The ward options (lines 155-184)

    The two effects have the same body; one reads the panchayath selected
    in the single form, the other the one selected in the bulk form. The
    result is the argument of [setWardOptions]. *)
Definition wardOptionsFor (selectedPanchayath : jsstring)
  (panchayaths : list Panchayath.t) : Result (list jsstring) :=
  match selectedPanchayath with
  | [] => Ok []
  | _ :: _ =>
      match find (fun p => str_eqb (Panchayath.id p) selectedPanchayath)
                 panchayaths with
      | Some panchayath =>
          match Panchayath.ward panchayath with
          | Some ((_ :: _) as ward) =>
              let wardCount := parseInt10 ward in
              if negb (isNaN wardCount) && num_ltb (of_int 0) wardCount then
                Array_from_length wardCount (fun i => String_of_int (i + 1))
              else Ok []
          | _ => Ok []
          end
      | None => Ok []
      end
  end.

Record Selection := {
  selectedSinglePanchayath : jsstring;
  selectedBulkPanchayath : jsstring;
  panchayaths : list Panchayath.t }.

Definition singleFormWardEffect (st : Selection) : Result (list jsstring) :=
  wardOptionsFor (selectedSinglePanchayath st) (panchayaths st).

Definition bulkFormWardEffect (st : Selection) : Result (list jsstring) :=
  wardOptionsFor (selectedBulkPanchayath st) (panchayaths st).

(** ** The [wardOptions] state (line 93)

    The two forms render the one [wardOptions] state (lines 578 and 761)
    and the two effects set it. After a render React runs, in the order of
    their declaration, the effects one of whose dependencies changed (all
    of them at the first render); every [setWardOptions] of the commit is
    applied and the last one stands. An exception in an effect leaves no
    option list: the component is taken down. [wardOptions] is the state
    before the commit, the result the state after it. *)
Record Changed := {
  selectedSinglePanchayath_changed : bool;
  selectedBulkPanchayath_changed : bool;
  panchayaths_changed : bool }.

Definition commitWardEffects (changed : Changed) (st : Selection)
  (wardOptions : list jsstring) : Result (list jsstring) :=
  wardOptions <-
    (if selectedSinglePanchayath_changed changed || panchayaths_changed changed
     then singleFormWardEffect st else Ok wardOptions) ;;
  if selectedBulkPanchayath_changed changed || panchayaths_changed changed
  then bulkFormWardEffect st else Ok wardOptions.

(** ** The submit handlers (lines 264-358) *)

(** [string | null | undefined] *)
Inductive Nullish :=
| Undefined
| Null
| Given (s : jsstring).

(** [x || null] *)
Definition or_null (x : Nullish) : option jsstring :=
  match x with
  | Given (c :: s) => Some (c :: s)
  | _ => None
  end.

Module SingleAgentFormValues.
Record t := {
  name : jsstring;
  mobile : jsstring;
  role : AgentRole;
  panchayath_id : jsstring;
  ward : jsstring;
  parent_agent_id : Nullish;
  customer_count : Z }.
End SingleAgentFormValues.

Module BulkAgent.
Record t := {
  name : jsstring;
  mobile : jsstring;
  ward : jsstring;
  customer_count : Z }.
End BulkAgent.

Module BulkAgentFormValues.
Record t := {
  panchayath_id : jsstring;
  role : AgentRole;
  parent_agent_id : Nullish;
  agents : list BulkAgent.t }.
End BulkAgentFormValues.

(** The row given to [insert]. *)
Module AgentData.
Record t := {
  name : jsstring;
  mobile : jsstring;
  role : AgentRole;
  panchayath_id : jsstring;
  ward : jsstring;
  parent_agent_id : option jsstring;
  customer_count : Z;
  is_active : bool }.
End AgentData.

(** The agent being edited; the submit handler reads its [id]. *)
Module PennyekartAgent.
Record t := { id : jsstring }.
End PennyekartAgent.

(** What is sent to the [pennyekart_agents] table. *)
Inductive Mutation :=
| update_eq_id (values : SingleAgentFormValues.t) (id : jsstring)
| insert_one (row : AgentData.t)
| insert_many (rows : list AgentData.t).

(** Lines 267-275: the two assignments to [values]. *)
Definition clear_parent (values : SingleAgentFormValues.t)
  : SingleAgentFormValues.t :=
  if role_eqb (SingleAgentFormValues.role values) team_leader then
    {| SingleAgentFormValues.name := SingleAgentFormValues.name values;
       SingleAgentFormValues.mobile := SingleAgentFormValues.mobile values;
       SingleAgentFormValues.role := SingleAgentFormValues.role values;
       SingleAgentFormValues.panchayath_id :=
         SingleAgentFormValues.panchayath_id values;
       SingleAgentFormValues.ward := SingleAgentFormValues.ward values;
       SingleAgentFormValues.parent_agent_id := Null;
       SingleAgentFormValues.customer_count :=
         SingleAgentFormValues.customer_count values |}
  else values.

Definition clear_count (values : SingleAgentFormValues.t)
  : SingleAgentFormValues.t :=
  if negb (role_eqb (SingleAgentFormValues.role values) pro) then
    {| SingleAgentFormValues.name := SingleAgentFormValues.name values;
       SingleAgentFormValues.mobile := SingleAgentFormValues.mobile values;
       SingleAgentFormValues.role := SingleAgentFormValues.role values;
       SingleAgentFormValues.panchayath_id :=
         SingleAgentFormValues.panchayath_id values;
       SingleAgentFormValues.ward := SingleAgentFormValues.ward values;
       SingleAgentFormValues.parent_agent_id :=
         SingleAgentFormValues.parent_agent_id values;
       SingleAgentFormValues.customer_count := 0 |}
  else values.

(** Lines 264-299: what [onSubmitSingle] sends. [agent] is the prop, absent
    when the dialog creates. *)
Definition onSubmitSingle (agent : option PennyekartAgent.t)
  (values : SingleAgentFormValues.t) : Mutation :=
  let values := clear_count (clear_parent values) in
  match agent with
  | Some agent => update_eq_id values (PennyekartAgent.id agent)
  | None =>
      let agentData :=
        {| AgentData.name := SingleAgentFormValues.name values;
           AgentData.mobile := SingleAgentFormValues.mobile values;
           AgentData.role := SingleAgentFormValues.role values;
           AgentData.panchayath_id := SingleAgentFormValues.panchayath_id values;
           AgentData.ward := SingleAgentFormValues.ward values;
           AgentData.parent_agent_id :=
             or_null (SingleAgentFormValues.parent_agent_id values);
           AgentData.customer_count :=
             SingleAgentFormValues.customer_count values;
           AgentData.is_active := true |} in
      insert_one agentData
  end.

(** Lines 320-340: what [onSubmitBulk] sends. *)
Definition onSubmitBulk (values : BulkAgentFormValues.t) : Mutation :=
  let isPro := role_eqb (BulkAgentFormValues.role values) pro in
  let isTeamLeader := role_eqb (BulkAgentFormValues.role values) team_leader in
  let agentsToInsert :=
    map (fun agent =>
           {| AgentData.name := BulkAgent.name agent;
              AgentData.mobile := BulkAgent.mobile agent;
              AgentData.role := BulkAgentFormValues.role values;
              AgentData.panchayath_id := BulkAgentFormValues.panchayath_id values;
              AgentData.ward := BulkAgent.ward agent;
              AgentData.parent_agent_id :=
                if isTeamLeader then None
                else or_null (BulkAgentFormValues.parent_agent_id values);
              AgentData.customer_count :=
                if isPro then BulkAgent.customer_count agent else 0;
              AgentData.is_active := true |})
        (BulkAgentFormValues.agents values) in
  insert_many agentsToInsert.

(** The role and the customer count of every record a mutation carries. *)
Definition records (m : Mutation) : list (AgentRole * Z) :=
  match m with
  | update_eq_id values _ =>
      [(SingleAgentFormValues.role values,
        SingleAgentFormValues.customer_count values)]
  | insert_one row => [(AgentData.role row, AgentData.customer_count row)]
  | insert_many rows =>
      map (fun r => (AgentData.role r, AgentData.customer_count r)) rows
  end.

End BulkAgentFormDialog.

(** ** The submit handlers with what they show (lines 264-358)

    [onSubmitSingle] and [onSubmitBulk] above give the mutation that is
    sent; here are the handlers whole: the [isSubmitting] flag, the request,
    the toasts, the closing of the dialog, through [try], [catch] and
    [finally]. *)

Module Submit.

Import BulkAgentFormDialog.

(** The [error] of a store reply; [instanceof_Error] tells whether the
    client library made it an [Error] object. *)
Record PostgrestError := {
  message : jsstring;
  code : jsstring;
  instanceof_Error : bool }.

(** What a handler does, in order. *)
Inductive Effect :=
| setIsSubmitting (value : bool)
| sent (m : Mutation)
| toast_success (msg : jsstring)
| toast_error (msg : jsstring)
| onOpenChange (open : bool)
| onSuccess.

(** A block ends normally, in a [return], or in a [throw]. *)
Inductive Completion :=
| Normal
| Returned
| Thrown (err : PostgrestError).

(** The store is given by the error it answers to a mutation. *)
Definition Store : Type := Mutation -> option PostgrestError.

Definition Block : Type := Store -> list Effect -> Completion * list Effect.

Definition emit (e : Effect) : Block := fun _ log => (Normal, log ++ [e]).

Definition throw (err : PostgrestError) : Block := fun _ log => (Thrown err, log).

Definition return_ : Block := fun _ log => (Returned, log).

Definition then_ (a b : Block) : Block :=
  fun store log =>
    match a store log with
    | (Normal, log') => b store log'
    | stopped => stopped
    end.

(** [const { error } = await supabase.from("pennyekart_agents")...] *)
Definition send (m : Mutation) (k : option PostgrestError -> Block) : Block :=
  fun store log => k (store m) store (log ++ [sent m]).

(** [try { body } catch (err) { handler } finally { final }] *)
Definition try_catch_finally (body : Block) (handler : PostgrestError -> Block)
  (final : Block) : Block :=
  fun store log =>
    let '(completion, log') :=
      match body store log with
      | (Thrown err, log') => handler err store log'
      | done => done
      end in
    match final store log' with
    | (Normal, log'') => (completion, log'')
    | stopped => stopped
    end.

Declare Scope block_scope.
Delimit Scope block_scope with block.
Notation "a ;;; b" := (then_ a b) (at level 61, right associativity) : block_scope.
Local Open Scope block_scope.

(** [error.message.includes("unique") || error.code === "23505"] *)
Definition is_duplicate (error : PostgrestError) : bool :=
  includes (message error) (js "unique") || str_eqb (code error) (js "23505").

(** [err instanceof Error ? err.message : fallback] *)
Definition message_or (err : PostgrestError) (fallback : string) : jsstring :=
  if instanceof_Error err then message err else js fallback.

(** Lines 264-318. *)
Definition onSubmitSingle (agent : option PennyekartAgent.t)
  (values : SingleAgentFormValues.t) : Block :=
  emit (setIsSubmitting true) ;;;
  try_catch_finally
    ((match agent with
      | Some _ =>
          send (BulkAgentFormDialog.onSubmitSingle agent values) (fun error =>
            match error with
            | Some error => throw error
            | None => emit (toast_success (js "Agent updated successfully"))
            end)
      | None =>
          send (BulkAgentFormDialog.onSubmitSingle agent values) (fun error =>
            match error with
            | Some error =>
                if is_duplicate error
                then emit (toast_error (js "Mobile number already exists")) ;;;
                     return_
                else throw error
            | None => emit (toast_success (js "Agent created successfully"))
            end)
      end) ;;;
     emit (onOpenChange false) ;;;
     emit onSuccess)
    (fun err => emit (toast_error (message_or err "Failed to save agent")))
    (emit (setIsSubmitting false)).

(** Lines 320-358. *)
Definition onSubmitBulk (values : BulkAgentFormValues.t) : Block :=
  emit (setIsSubmitting true) ;;;
  try_catch_finally
    (send (BulkAgentFormDialog.onSubmitBulk values) (fun error =>
       match error with
       | Some error =>
           if is_duplicate error
           then emit (toast_error (js "One or more mobile numbers already exist")) ;;;
                return_
           else throw error
       | None =>
           emit (toast_success
                   (String_of_int
                      (Z.of_nat (List.length (BulkAgentFormValues.agents values)))
                    ++ js " agents created successfully")) ;;;
           emit (onOpenChange false) ;;;
           emit onSuccess
       end))
    (fun err => emit (toast_error (message_or err "Failed to create agents")))
    (emit (setIsSubmitting false)).

End Submit.

(* ===================================================================== *)
(** * The page component that follows the dialog in the same file
      ([PennyekartAgentHierarchy], lines 878-1175)                        *)
(* ===================================================================== *)

Module PennyekartAgentHierarchy.

Import BulkAgentFormDialog.

(** A row of [select("ward")]. *)
Record WardRow := { ward : jsstring }.

(** Lines 912-925: the panchayath the store is asked for, if any, and the
    argument of [setWards]. [select_ward] is the [data] the store
    answers. *)
Definition fetchWards (panchayath_id : option jsstring)
  (select_ward : jsstring -> option (list WardRow))
  : option jsstring * list jsstring :=
  match panchayath_id with
  | None | Some [] => (None, [])
  | Some id =>
      let data := select_ward id in
      let rows := match data with Some rows => rows | None => [] end in
      let uniqueWards := Array_sort (Set_values (map ward rows)) in
      (Some id, uniqueWards)
  end.

(** [filters]: an object of [string | undefined] values. *)
Definition AgentFilters : Type := list (jsstring * JsValue).

(** Lines 964-969: [{ ...prev, [key]: value === "all" ? undefined : value }]. *)
Definition handleFilterChange (key : jsstring) (value : JsValue)
  (prev : AgentFilters) : AgentFilters :=
  let is_all := match value with JStr s => str_eqb s (js "all") | _ => false end in
  define key (if is_all then JUndefined else value) prev.

(** Lines 971-973. *)
Definition clearFilters : AgentFilters := [].

(** Line 1043: [handleFilterChange("search", e.target.value || undefined)]. *)
Definition onSearchChange (text : jsstring) (prev : AgentFilters) : AgentFilters :=
  handleFilterChange (js "search") (or_else (JStr text) JUndefined) prev.

(** Line 1096: [Object.values(filters).some(v => v)]. *)
Definition has_active_filters (filters : AgentFilters) : bool :=
  existsb (fun kv => ToBoolean (snd kv)) filters.

(** What the statistics read of an agent. *)
Record Agent := { role : AgentRole; customer_count : Z }.

(** Lines 976-983. [ROLE_HIERARCHY] is imported from the hook and is an
    argument here. *)
Definition totalAgents (agents : list Agent) : Z := Z.of_nat (List.length agents).

(** [acc[role] = n] *)
Fixpoint assign (r : AgentRole) (n : Z) (acc : list (AgentRole * Z))
  : list (AgentRole * Z) :=
  match acc with
  | [] => [(r, n)]
  | (r', m) :: rest =>
      if role_eqb r r' then (r, n) :: rest else (r', m) :: assign r n rest
  end.

Definition byRole (ROLE_HIERARCHY : list AgentRole) (agents : list Agent)
  : list (AgentRole * Z) :=
  fold_left
    (fun acc r =>
       assign r (Z.of_nat (List.length
                             (filter (fun a => role_eqb (role a) r) agents))) acc)
    ROLE_HIERARCHY [].

Definition totalCustomers (agents : list Agent) : Z :=
  fold_left (fun sum a => sum + customer_count a)
            (filter (fun a => role_eqb (role a) pro) agents) 0.

(** Line 1017: [byRole[role]], [None] for [undefined]. *)
Fixpoint shown (counts : list (AgentRole * Z)) (r : AgentRole) : option Z :=
  match counts with
  | [] => None
  | (r', n) :: rest => if role_eqb r r' then Some n else shown rest r
  end.

End PennyekartAgentHierarchy.

(* ===================================================================== *)
(** * Vocabulary of the statements                                        *)
(* ===================================================================== *)

Import AdminFormQuestions.

(** The inverse of [split]: the pieces with the separator between them. *)
Fixpoint join (sep : Z) (parts : list jsstring) : jsstring :=
  match parts with
  | [] => []
  | [p] => p
  | p :: rest => p ++ sep :: join sep rest
  end.

Definition dot_free (s : jsstring) : Prop := ~ In DOT s.

(** The value a settled call returned. *)
Definition returned (p : Promise (list ConsoleLine * JsValue)) : option JsValue :=
  match p with
  | Fulfilled (_, v) => Some v
  | Rejected _ => None
  end.

(** The console output of a settled call. *)
Definition printed (p : Promise (list ConsoleLine * JsValue)) : list ConsoleLine :=
  match p with
  | Fulfilled (lines, _) => lines
  | Rejected _ => []
  end.

(** The four ways [verifyAdminToken] returns [null], by what they print. *)
Definition silent : Promise (list ConsoleLine * JsValue) :=
  Fulfilled ([], JNull).
Definition token_expired : Promise (list ConsoleLine * JsValue) :=
  Fulfilled ([console_log "Token expired"], JNull).
Definition invalid_signature : Promise (list ConsoleLine * JsValue) :=
  Fulfilled ([console_log "Invalid signature"], JNull).
Definition verification_error (e : JsError) : Promise (list ConsoleLine * JsValue) :=
  Fulfilled ([console_error "Token verification error:" e], JNull).
Definition accepted (payload : JsValue) : Promise (list ConsoleLine * JsValue) :=
  Fulfilled ([], payload).

(** The signature comparison of lines 43-48. *)
Definition signature_check (signature tokenData serviceKey : jsstring)
  (payload : JsValue) : Promise (list ConsoleLine * JsValue) :=
  if str_eqb signature (expectedSignature tokenData serviceKey)
  then accepted payload else invalid_signature.

(** One bit of one character changed. *)
Definition flip_bit (i : nat) (bit : Z) (s : jsstring) : jsstring :=
  match nth_error s i with
  | Some c => firstn i s ++ Z.lxor c (2 ^ bit) :: skipn (S i) s
  | None => s
  end.

(** Credentials used as concrete inputs; the secret is ["secret"]. The
    payloads are
    [{"admin_id":"a1","user_id":"u1","division_id":"D1","exp":2000}],
    the same with [exp] 999 and 1000, with [exp] the string ["soon"],
    with [division_id] ["D2"], and [{}]. *)
Definition secret : jsstring := js "secret".

Definition payload_2000 : jsstring :=
  js "eyJhZG1pbl9pZCI6ImExIiwidXNlcl9pZCI6InUxIiwiZGl2aXNpb25faWQiOiJEMSIsImV4cCI6MjAwMH0=".
Definition signature_2000 : jsstring :=
  js "784990181c0378840f7552e6c7b7c07c2408554c46676d324056f954d029e003".
Definition credential_2000 : jsstring := payload_2000 ++ DOT :: signature_2000.

Definition payload_999 : jsstring :=
  js "eyJhZG1pbl9pZCI6ImExIiwidXNlcl9pZCI6InUxIiwiZGl2aXNpb25faWQiOiJEMSIsImV4cCI6OTk5fQ==".
Definition signature_999 : jsstring :=
  js "439c4fde584702c76d3d9d41dad29aac60893989d3a83d513fbee4ade54f8e4e".
Definition credential_999 : jsstring := payload_999 ++ DOT :: signature_999.

Definition payload_1000 : jsstring :=
  js "eyJhZG1pbl9pZCI6ImExIiwidXNlcl9pZCI6InUxIiwiZGl2aXNpb25faWQiOiJEMSIsImV4cCI6MTAwMH0=".
Definition signature_1000 : jsstring :=
  js "3d915482ab531e7f5524893e131027bce38f2ee9bf2c072b7a85d905eb9e15ee".
Definition credential_1000 : jsstring := payload_1000 ++ DOT :: signature_1000.

Definition payload_D2 : jsstring :=
  js "eyJhZG1pbl9pZCI6ImExIiwidXNlcl9pZCI6InUxIiwiZGl2aXNpb25faWQiOiJEMiIsImV4cCI6MjAwMH0=".
Definition signature_D2 : jsstring :=
  js "a8686b45b880c585d2e0cf8794159e9172bb5e2d7e26b910d5410b63533c47a7".
Definition credential_D2 : jsstring := payload_D2 ++ DOT :: signature_D2.

Definition payload_empty_object : jsstring := js "e30=".
Definition signature_empty_object : jsstring :=
  js "6826e169e270a699d36407a3e3f9c9bba4778bb9b27c99e99a0bf47762093d46".
Definition credential_empty_object : jsstring :=
  payload_empty_object ++ DOT :: signature_empty_object.

Definition payload_soon : jsstring :=
  js "eyJhZG1pbl9pZCI6ImExIiwidXNlcl9pZCI6InUxIiwiZGl2aXNpb25faWQiOiJEMSIsImV4cCI6InNvb24ifQ==".
Definition signature_soon : jsstring :=
  js "16e61db4cf11c6198421dddd3ad6c46b3e5b3acc9be3f416a5f1a0a5a9d6ba8b".
Definition credential_soon : jsstring := payload_soon ++ DOT :: signature_soon.

(** The credential of the payload text [19]: the segment ["MTn"] decodes
    to it, and the signature is that of the text with the secret. *)
Definition payload_19 : jsstring := js "MTn".
Definition signature_19 : jsstring :=
  js "1bd7fa1d059a4a28e5a2539f3a5c3fddfa934a622117587cbd36eb9a7ced0675".
Definition credential_19 : jsstring := payload_19 ++ DOT :: signature_19.

(** The identity of the first credential, as [JSON.parse] builds it. *)
Definition identity (division : string) (exp : JsValue) : JsValue :=
  JObj [(js "admin_id", JStr (js "a1")); (js "user_id", JStr (js "u1"));
        (js "division_id", JStr (js division)); (js "exp", exp)].

(** The reading of the specification, for comparison: the credential cut
    at its first ['.'] only. *)
Fixpoint after_first_dot (s : jsstring) : jsstring :=
  match s with
  | [] => []
  | c :: rest => if c =? DOT then rest else after_first_dot rest
  end.

Fixpoint before_first_dot (s : jsstring) : jsstring :=
  match s with
  | [] => []
  | c :: rest => if c =? DOT then [] else c :: before_first_dot rest
  end.

Definition verifyAdminToken_cut_once (now : Z) (token serviceKey : jsstring)
  : Promise (list ConsoleLine * JsValue) :=
  match before_first_dot token, after_first_dot token with
  | (_ :: _) as payloadPart, (_ :: _) as signaturePart =>
      catch_all (verify_parts now serviceKey payloadPart signaturePart)
  | _, _ => silent
  end.

(** The same request with another credential. *)
Definition with_token (req : Request) (token : jsstring) : Request :=
  {| method := method req; x_admin_token := Some token; json := json req |}.

(** The program exists and belongs to another division than the admin. *)
Definition foreign_program (db : DataService) (admin : Admin.row)
  (programId : jsstring) : Prop :=
  exists program,
    Postgrest.data (programs_by_id db programId) = Some program
    /\ same_division (Program.division_id program) (Admin.division_id admin)
       = false.

(** A store for the concrete inputs: the admin [a1] is active in division
    [D1]; program [p1] is of [D1] and [p2] of [D2]; question [q1] belongs
    to [p1] and [q2] to [p2]. *)
Definition found {A} (a : A) : Postgrest.Reply A :=
  {| Postgrest.data := Some a; Postgrest.error := None |}.

Definition no_rows {A} : Postgrest.Reply A :=
  {| Postgrest.data := None;
     Postgrest.error := Some {| Postgrest.message := js "no rows" |} |}.

Definition store : DataService :=
  {| admins_by_id := fun v =>
       match v with
       | JStr s =>
           if str_eqb s (js "a1")
           then found {| Admin.id := js "a1"; Admin.is_active := Some true;
                         Admin.division_id := Some (js "D1") |}
           else no_rows
       | _ => no_rows
       end;
     programs_by_id := fun p =>
       if str_eqb p (js "p1") then found {| Program.division_id := Some (js "D1") |}
       else if str_eqb p (js "p2")
            then found {| Program.division_id := Some (js "D2") |}
            else no_rows;
     questions_by_id := fun q =>
       if str_eqb q (js "q1")
       then found {| Question.id := js "q1"; Question.program_id := js "p1" |}
       else if str_eqb q (js "q2")
            then found {| Question.id := js "q2"; Question.program_id := js "p2" |}
            else no_rows;
     questions_of_program := fun _ => found (JArr []);
     insert_question := fun _ => found (JObj []);
     update_question := fun _ _ => found (JObj []);
     delete_question := fun _ => None |}.

(** A request [{ action, data: { k: v } }] carrying a credential. *)
Definition request (token : jsstring) (action k v : string) : Request :=
  {| method := js "POST";
     x_admin_token := Some token;
     json := Ok (JObj [(js "action", JStr (js action));
                       (js "data", JObj [(js k, JStr (js v))])]) |}.

Import BulkAgentFormDialog.

(** A text written with ['] where it has the double quote. *)
Definition quoted (s : string) : jsstring :=
  map (fun c => if c =? 39 then 34 else c) (js s).

(** Lowercase hex, two characters a byte. *)
Definition hex (bytes : list Z) : jsstring :=
  flat_map (fun b => padStart2 (byte_toString16 b)) bytes.



(** A list of panchayaths for the concrete inputs. *)
Definition unit_with_ward (ward : string) : Panchayath.t :=
  {| Panchayath.id := js "u1"; Panchayath.name := js "Unit";
     Panchayath.ward := Some (js ward) |}.


(** The unit [u1] is selected in the single form and nothing in the bulk
    form, as when the dialog edits an agent of [u1]. *)
Definition single_u1 (ward : string) : Selection :=
  {| selectedSinglePanchayath := js "u1";
     selectedBulkPanchayath := [];
     BulkAgentFormDialog.panchayaths := [unit_with_ward ward] |}.


Definition only_panchayaths_changed : Changed :=
  {| selectedSinglePanchayath_changed := false;
     selectedBulkPanchayath_changed := false;
     panchayaths_changed := true |}.

(** ** The handler *)

(** The program is in the store and its division is the admin's: what
    [verifyProgramAccess] has to decide. *)
Definition granted (db : DataService) (divisionId : option jsstring)
  (programId : jsstring) : Prop :=
  exists program,
    programs_by_id db programId = found program
    /\ Program.division_id program = divisionId.

(** The question of that id is in the store and its program is granted. *)
Definition granted_question (db : DataService) (divisionId : option jsstring)
  (questionId : jsstring) : Prop :=
  exists existing,
    questions_by_id db questionId = found existing
    /\ granted db divisionId (Question.program_id existing).

(** [data?.k !== undefined] *)
Definition supplied (data : JsValue) (k : string) : Prop :=
  get_opt data (js k) <> JUndefined.

(** What holds of every effect of a request handled for an active admin of
    division [divisionId], [data] being the [data] of the body: nothing is
    written, the admin is not asked for again, the two lookups are free,
    and the four queries on the questions are behind the access check and
    carry checked values. *)
Definition guarded (db : DataService) (divisionId : option jsstring)
  (data : JsValue) (ev : Event) : Prop :=
  match ev with
  | wrote _ => False
  | asked (admins_select_single _) => False
  | asked (programs_select_single _) => True
  | asked (questions_select_single _) => True
  | asked (questions_select_ordered programId) =>
      programId <> [] /\ granted db divisionId programId
  | asked (questions_insert row) =>
      InsertPayload.program_id row <> []
      /\ granted db divisionId (InsertPayload.program_id row)
      /\ InsertPayload.question_text row <> []
      /\ trim (InsertPayload.question_text row) = InsertPayload.question_text row
      /\ (ToBoolean (get_opt data (js "question_type")) = false ->
          InsertPayload.question_type row = js "text")
      /\ InsertPayload.is_required row
         = ToBoolean (get_opt data (js "is_required"))
      /\ (~ supplied data "options" -> InsertPayload.options row = JNull)
      /\ (~ supplied data "sort_order" ->
          InsertPayload.sort_order row = of_int 0)
  | asked (questions_update questionId fields) =>
      questionId <> []
      /\ granted_question db divisionId questionId
      /\ (UpdatePayload.question_text fields = None
          <-> ~ supplied data "question_text")
      /\ (UpdatePayload.question_type fields = None
          <-> ~ supplied data "question_type")
      /\ (UpdatePayload.is_required fields = None
          <-> ~ supplied data "is_required")
      /\ (UpdatePayload.options fields = None <-> ~ supplied data "options")
      /\ (UpdatePayload.sort_order fields = None
          <-> ~ supplied data "sort_order")
      /\ (forall t, UpdatePayload.question_text fields = Some t -> trim t = t)
  | asked (questions_delete questionId) =>
      questionId <> [] /\ granted_question db divisionId questionId
  end.

(** A computation of the handler, run on a store from any log, only adds
    effects that satisfy [Q], and ends in a value that satisfies [R] or in
    a response that satisfies [S] (or in an exception). *)
Definition satisfies {A} (db : DataService) (Q : Event -> Prop)
  (R : A -> Prop) (S : Response -> Prop) (m : Handler A) : Prop :=
  forall log,
    exists ext, snd (m db log) = log ++ ext /\ Forall Q ext
                /\ match fst (m db log) with
                   | Next a => R a
                   | Return r => S r
                   | Raise _ => True
                   end.

(** The statuses the request of an active admin is answered with. *)
Definition answered (r : Response) : Prop := In (status r) [200; 400; 403; 404].

(** [data] of the request body, as line 99 reads it. *)
Definition request_data (req : Request) : JsValue :=
  match json req with
  | Ok content =>
      match get content (js "data") with
      | Ok data => data
      | Throw _ => JUndefined
      end
  | Throw _ => JUndefined
  end.

(** The lines the verifier can print. *)
Definition verifier_line (line : ConsoleLine) : Prop :=
  match line with
  | console_log _ => True
  | console_error msg _ => msg = "Token verification error:"%string
  end.

(** The line of the handler's [catch] clause. *)
Definition handler_error (e : JsError) : Event :=
  wrote (console_error "Error in admin-form-questions:" e).

(** Requests and bodies for the concrete inputs. *)
Definition request_of (token : option jsstring) (content : Result JsValue)
  : Request :=
  {| method := js "POST"; x_admin_token := token; json := content |}.

Definition body_of (action : JsValue) (data : list (jsstring * JsValue)) : JsValue :=
  JObj [(js "action", action); (js "data", JObj data)].

Definition admin_a1 : Admin.row :=
  {| Admin.id := js "a1"; Admin.is_active := Some true;
     Admin.division_id := Some (js "D1") |}.

(** ** The signature *)

(** A character of lowercase hexadecimal, [0-9] or [a-f]. *)
Definition is_lower_hex (c : Z) : Prop := 48 <= c <= 57 \/ 97 <= c <= 102.

Definition is_byte (b : Z) : Prop := 0 <= b < 256.

(** ** The agent form *)

(** The parent each record of a mutation carries, with its role; [None] is
    [null] (or no value, for an update). *)
Definition parents (m : Mutation) : list (AgentRole * option jsstring) :=
  match m with
  | update_eq_id values _ =>
      [(SingleAgentFormValues.role values,
        match SingleAgentFormValues.parent_agent_id values with
        | Given s => Some s
        | _ => None
        end)]
  | insert_one row => [(AgentData.role row, AgentData.parent_agent_id row)]
  | insert_many rows =>
      map (fun r => (AgentData.role r, AgentData.parent_agent_id r)) rows
  end.

(** The effects of a submit handler run from an empty log. *)
Definition effects (b : Submit.Block) (store : Submit.Store) : list Submit.Effect :=
  snd (b store []).

Definition is_toast (e : Submit.Effect) : bool :=
  match e with
  | Submit.toast_success _ | Submit.toast_error _ => true
  | _ => false
  end.

(** The effects after the toast: the dialog closes when the store reported
    no error. *)
Definition closing (failure : option Submit.PostgrestError) : list Submit.Effect :=
  match failure with
  | None => [Submit.onOpenChange false; Submit.onSuccess]
  | Some _ => []
  end.

Definition is_thrown (c : Submit.Completion) : bool :=
  match c with
  | Submit.Thrown _ => true
  | _ => false
  end.

(** Form values and a store error for the concrete inputs. *)
Definition single_values (r : AgentRole) : SingleAgentFormValues.t :=
  {| SingleAgentFormValues.name := js "Asha";
     SingleAgentFormValues.mobile := js "9876543210";
     SingleAgentFormValues.role := r;
     SingleAgentFormValues.panchayath_id := js "u1";
     SingleAgentFormValues.ward := js "3";
     SingleAgentFormValues.parent_agent_id := Given (js "a7");
     SingleAgentFormValues.customer_count := 5 |}.

Definition duplicate_key : Submit.PostgrestError :=
  {| Submit.message := js "duplicate key value violates unique constraint";
     Submit.code := js "23505";
     Submit.instanceof_Error := false |}.

(** ** The page component *)

(** [a <= b] and [a < b] on strings. *)
Definition str_le (a b : jsstring) : Prop := str_ltb b a = false.
Definition str_lt (a b : jsstring) : Prop := str_ltb a b = true.

(** The events of the filter bar: a select changes, the search text
    changes, the filters are cleared. *)
Inductive FilterEvent :=
| selected (key : jsstring) (value : jsstring)
| searched (text : jsstring)
| cleared.

Definition filter_step (filters : PennyekartAgentHierarchy.AgentFilters)
  (ev : FilterEvent) : PennyekartAgentHierarchy.AgentFilters :=
  match ev with
  | selected key value =>
      PennyekartAgentHierarchy.handleFilterChange key (JStr value) filters
  | searched text => PennyekartAgentHierarchy.onSearchChange text filters
  | cleared => PennyekartAgentHierarchy.clearFilters
  end.

(** The filters after a run of events, from the initial [{}]. *)
Definition filters_after (events : list FilterEvent)
  : PennyekartAgentHierarchy.AgentFilters :=
  fold_left filter_step events [].

(** The number of agents of a role. *)
Definition count_role (agents : list PennyekartAgentHierarchy.Agent)
  (r : AgentRole) : Z :=
  Z.of_nat (List.length
              (filter (fun a => role_eqb (PennyekartAgentHierarchy.role a) r)
                      agents)).

Definition total (l : list Z) : Z := fold_left Z.add l 0.

(* ===================================================================== *)
(** * Properties of the runtime model                                     *)
(* ===================================================================== *)

Lemma str_eqb_refl (s : jsstring) : str_eqb s s = true.
Proof.
  induction s as [|c s IH]; [reflexivity|]. cbn. now rewrite Z.eqb_refl.
Qed.

Lemma str_eqb_eq (a b : jsstring) : str_eqb a b = true <-> a = b.
Proof.
  split; [|intros ->; apply str_eqb_refl].
  revert b. induction a as [|x a IH]; intros [|y b]; cbn; try congruence.
  intros H. apply andb_prop in H as [H1 H2].
  apply Z.eqb_eq in H1. apply IH in H2. congruence.
Qed.

Section ParserFuel.

Local Open Scope nat_scope.

Lemma skip_ws_length s : List.length (skip_ws s) <= List.length s.
Proof.
  induction s as [|c s IH]; cbn; [lia|]. destruct (is_json_ws c); cbn; lia.
Qed.

Lemma next_length s c r : next s = Some (c, r) -> List.length r < List.length s.
Proof.
  unfold next. pose proof (skip_ws_length s) as H.
  destruct (skip_ws s) as [|c' r']; [discriminate|].
  intros [= -> ->]. cbn in H. lia.
Qed.

Lemma strip_prefix_length p s r : strip_prefix p s = Some r -> List.length r <= List.length s.
Proof.
  revert s. induction p as [|x p IH]; intros [|y s]; cbn; try discriminate.
  - intros [= <-]. cbn. lia.
  - intros [= <-]. cbn. lia.
  - destruct (x =? y)%Z; [|discriminate]. intros H. apply IH in H. lia.
Qed.

Lemma literal_length word v s v' r : literal word v s = Value v' r -> List.length r <= List.length s.
Proof.
  unfold literal. destruct (strip_prefix (js word) s) eqn:E; [|discriminate].
  intros [= _ <-]. now apply strip_prefix_length in E.
Qed.

Lemma take_digits_length s : forall a n x k r,
  take_digits a n s = (x, k, r) -> List.length r <= List.length s.
Proof.
  induction s as [|c s IH]; intros a n x k r; cbn.
  - intros [= _ _ <-]. cbn. lia.
  - destruct (is_digit c).
    + intros H. apply IH in H. lia.
    + intros [= _ _ <-]. cbn. lia.
Qed.

Lemma parse_chars_length : forall n s acc str r,
  List.length s <= n -> parse_chars s acc = Some (str, r) -> List.length r < List.length s.
Proof.
  induction n as [|n IH]; intros [|c s] acc str r Hn; cbn; try discriminate;
    cbn in Hn; try lia.
  destruct (c =? 34)%Z; [intros [= _ <-]; lia|].
  destruct (c =? 92)%Z.
  - destruct s as [|e s1]; [discriminate|].
    destruct (e =? 117)%Z.
    + destruct s1 as [|a [|b [|c' [|d s2]]]]; try discriminate.
      destruct (hex4 a b c' d); [|discriminate].
      intros H. apply IH in H; cbn in *; lia.
    + destruct (unescape e); [|discriminate].
      intros H. apply IH in H; cbn in *; lia.
  - destruct (c <? 32)%Z; [discriminate|].
    intros H. apply IH in H; lia.
Qed.

Lemma parse_number_length s n r : parse_number s = Some (n, r) -> List.length r <= List.length s.
Proof.
  unfold parse_number.
  assert (Hm : List.length (snd (minus_sign s)) <= List.length s).
  { unfold minus_sign. destruct s as [|c s]; cbn; [lia|].
    destruct (c =? 45)%Z; cbn; lia. }
  destruct (minus_sign s) as [negative s1]. cbn in Hm.
  destruct s1 as [|c r1]; [discriminate|].
  destruct (is_digit c); [|discriminate].
  assert (Hi : forall ip k s2,
            (if (c =? 48)%Z then (0%Z, 1%Z, r1) else take_digits 0 0 (c :: r1))
            = (ip, k, s2) -> List.length s2 <= List.length (c :: r1)).
  { intros ip k s2. destruct (c =? 48)%Z.
    - intros [= _ _ <-]. cbn. lia.
    - apply take_digits_length. }
  destruct (if (c =? 48)%Z then _ else _) as [[ip k] s2].
  specialize (Hi _ _ _ eq_refl).
  destruct (parse_fraction s2) as [[[fp fn] s3]|] eqn:Ef; [|discriminate].
  assert (Hf : List.length s3 <= List.length s2).
  { unfold parse_fraction in Ef. destruct s2 as [|d s2']; [now inversion Ef|].
    destruct (d =? 46)%Z.
    - destruct (take_digits 0 0 s2') as [[f' n'] rest'] eqn:Et.
      apply take_digits_length in Et. destruct (n' =? 0)%Z; [discriminate|].
      inversion Ef; subst. cbn. lia.
    - now inversion Ef. }
  destruct (parse_exponent s3) as [[ex s4]|] eqn:Ee; [|discriminate].
  assert (He : List.length s4 <= List.length s3).
  { unfold parse_exponent in Ee. destruct s3 as [|d s3']; [now inversion Ee|].
    destruct ((d =? 101) || (d =? 69))%Z.
    - assert (Hs : List.length (snd (exponent_sign s3')) <= List.length s3').
      { unfold exponent_sign. destruct s3' as [|e s3'']; cbn; [lia|].
        destruct (e =? 43)%Z; cbn; [lia|]. destruct (e =? 45)%Z; cbn; lia. }
      destruct (exponent_sign s3') as [sign rest1]. cbn in Hs.
      destruct (take_digits 0 0 rest1) as [[x' n'] rest2] eqn:Et.
      apply take_digits_length in Et. destruct (n' =? 0)%Z; [discriminate|].
      inversion Ee; subst. cbn. lia.
    - now inversion Ee. }
  intros [= _ <-]. lia.
Qed.

(** What is left after a value is no longer than the text. *)
Lemma parse_lengths (f : nat) :
  (forall s v r, parse_value f s = Value v r -> List.length r <= List.length s)
  /\ (forall acc s v r, parse_elements f acc s = Value v r -> List.length r <= List.length s)
  /\ (forall acc s v r, parse_members f acc s = Value v r -> List.length r <= List.length s).
Proof.
  induction f as [|f (IHv & IHe & IHm)];
    [repeat split; intros; discriminate|].
  split; [|split].
  - intros s v r. cbn [parse_value].
    destruct (next s) as [[c r0]|] eqn:En; [|discriminate].
    apply next_length in En.
    destruct (c =? 123)%Z.
    { destruct (next r0) as [[c' r']|] eqn:En'; [|discriminate].
      apply next_length in En'. destruct (c' =? 125)%Z.
      - intros [= _ <-]. lia.
      - intros H. apply IHm in H. lia. }
    destruct (c =? 91)%Z.
    { destruct (next r0) as [[c' r']|] eqn:En'; [|discriminate].
      apply next_length in En'. destruct (c' =? 93)%Z.
      - intros [= _ <-]. lia.
      - intros H. apply IHe in H. lia. }
    destruct (c =? 34)%Z.
    { destruct (parse_chars r0 []) as [[str r']|] eqn:Ec; [|discriminate].
      apply (parse_chars_length _ _ _ _ _ (le_n _)) in Ec.
      intros [= _ <-]. lia. }
    destruct (c =? 116)%Z; [intros H; apply literal_length in H; lia|].
    destruct (c =? 102)%Z; [intros H; apply literal_length in H; lia|].
    destruct (c =? 110)%Z; [intros H; apply literal_length in H; lia|].
    destruct (parse_number (c :: r0)) as [[n r']|] eqn:Ep; [|discriminate].
    apply parse_number_length in Ep. pose proof (skip_ws_length s) as Hs.
    unfold next in *. intros [= _ <-]. cbn in Ep. lia.
  - intros acc s v r. cbn [parse_elements].
    destruct (parse_value f s) as [v0 r0| |] eqn:Ev; try discriminate.
    apply IHv in Ev.
    destruct (next r0) as [[c r']|] eqn:En; [|discriminate].
    apply next_length in En.
    destruct (c =? 44)%Z; [intros H; apply IHe in H; lia|].
    destruct (c =? 93)%Z; [|discriminate]. intros [= _ <-]. lia.
  - intros acc s v r. cbn [parse_members].
    destruct (next s) as [[q r0]|] eqn:En; [|discriminate].
    apply next_length in En.
    destruct (q =? 34)%Z; [|discriminate].
    destruct (parse_chars r0 []) as [[k r1]|] eqn:Ec; [|discriminate].
    apply (parse_chars_length _ _ _ _ _ (le_n _)) in Ec.
    destruct (next r1) as [[colon r2]|] eqn:En1; [|discriminate].
    apply next_length in En1.
    destruct (colon =? 58)%Z; [|discriminate].
    destruct (parse_value f r2) as [v0 r3| |] eqn:Ev; try discriminate.
    apply IHv in Ev.
    destruct (next r3) as [[c r4]|] eqn:En3; [|discriminate].
    apply next_length in En3.
    destruct (c =? 44)%Z; [intros H; apply IHm in H; lia|].
    destruct (c =? 125)%Z; [|discriminate]. intros [= _ <-]. lia.
Qed.

(** With twice the length of the text, and two or three more, the fuel
    does not run out. *)
Lemma parse_fuel (f : nat) :
  (forall s, 2 * List.length s + 2 <= f -> parse_value f s <> Exhausted)
  /\ (forall acc s, 2 * List.length s + 3 <= f -> parse_elements f acc s <> Exhausted)
  /\ (forall acc s, 2 * List.length s + 3 <= f -> parse_members f acc s <> Exhausted).
Proof.
  induction f as [|f (IHv & IHe & IHm)]; [repeat split; intros; lia|].
  split; [|split].
  - intros s Hf. cbn [parse_value].
    destruct (next s) as [[c r0]|] eqn:En; [|discriminate].
    apply next_length in En.
    destruct (c =? 123)%Z.
    { destruct (next r0) as [[c' r']|] eqn:En'; [|discriminate].
      destruct (c' =? 125)%Z; [discriminate|]. apply IHm. lia. }
    destruct (c =? 91)%Z.
    { destruct (next r0) as [[c' r']|] eqn:En'; [|discriminate].
      destruct (c' =? 93)%Z; [discriminate|]. apply IHe. lia. }
    destruct (c =? 34)%Z; [destruct (parse_chars r0 []) as [[? ?]|]; discriminate|].
    unfold literal.
    destruct (c =? 116)%Z; [destruct (strip_prefix _ r0); discriminate|].
    destruct (c =? 102)%Z; [destruct (strip_prefix _ r0); discriminate|].
    destruct (c =? 110)%Z; [destruct (strip_prefix _ r0); discriminate|].
    destruct (parse_number (c :: r0)) as [[? ?]|]; discriminate.
  - intros acc s Hf. cbn [parse_elements].
    destruct (parse_value f s) as [v0 r0| |] eqn:Ev; [|discriminate|].
    + apply (proj1 (parse_lengths f)) in Ev.
      destruct (next r0) as [[c r']|] eqn:En; [|discriminate].
      apply next_length in En.
      destruct (c =? 44)%Z; [apply IHe; lia|].
      destruct (c =? 93)%Z; discriminate.
    + exfalso. revert Ev. apply IHv. lia.
  - intros acc s Hf. cbn [parse_members].
    destruct (next s) as [[q r0]|] eqn:En; [|discriminate].
    apply next_length in En.
    destruct (q =? 34)%Z; [|discriminate].
    destruct (parse_chars r0 []) as [[k r1]|] eqn:Ec; [|discriminate].
    apply (parse_chars_length _ _ _ _ _ (le_n _)) in Ec.
    destruct (next r1) as [[colon r2]|] eqn:En1; [|discriminate].
    apply next_length in En1.
    destruct (colon =? 58)%Z; [|discriminate].
    destruct (parse_value f r2) as [v0 r3| |] eqn:Ev; [|discriminate|].
    + apply (proj1 (parse_lengths f)) in Ev.
      destruct (next r3) as [[c r4]|] eqn:En3; [|discriminate].
      apply next_length in En3.
      destruct (c =? 44)%Z; [apply IHm; lia|].
      destruct (c =? 125)%Z; discriminate.
    + exfalso. revert Ev. apply IHv. lia.
Qed.

(** [JSON_parse] gives the parser enough fuel: a [SyntaxError] is always a
    syntax error of the text. *)
Lemma JSON_parse_fuel (text : jsstring) :
  parse_value (2 * List.length text + 2) text <> Exhausted.
Proof. apply parse_fuel. lia. Qed.

End ParserFuel.












(** ** The runtime model on known values *)

Example atob_padded : atob (js "e30=") = Ok (js "{}").
Proof. reflexivity. Qed.

Example atob_unpadded : atob (js "QUJDRA") = Ok (js "ABCD").
Proof. reflexivity. Qed.

Example atob_white_space : atob (js "QUJD REVG") = Ok (js "ABCDEF").
Proof. reflexivity. Qed.

(** The last character of ["e31="] differs from that of ["e30="] in the
    two bits that are dropped. *)
Example atob_dropped_bits : atob (js "e31=") = Ok (js "{}").
Proof. reflexivity. Qed.

Example atob_bad_length : atob (js "QUJDR") = Throw InvalidCharacterError.
Proof. reflexivity. Qed.

Example atob_bad_padding : atob (js "QUJDRA=") = Throw InvalidCharacterError.
Proof. reflexivity. Qed.

Example utf8_encode_mixed :
  utf8_encode [233; 8364; 55357; 56832; 55357]
  = [195; 169; 226; 130; 172; 240; 159; 152; 128; 239; 191; 189].
Proof. reflexivity. Qed.

Example sha256_empty :
  hex (SHA256.digest [])
  = js "e3b0c44298fc1c149afbf4c8996fb92427ae41e4649b934ca495991b7852b855".
Proof. vm_compute. reflexivity. Qed.

Example sha256_abc :
  hex (SHA256.digest (utf8_encode (js "abc")))
  = js "ba7816bf8f01cfea414140de5dae2223b00361a396177a9cb410ff61f20015ad".
Proof. vm_compute. reflexivity. Qed.

Example sha256_two_blocks :
  hex (SHA256.digest (utf8_encode
         (js "abcdbcdecdefdefgefghfghighijhijkijkljklmklmnlmnomnopnopq")))
  = js "248d6a61d20638b8e5c026930c3e6039a33ce45964ff2167f6ecedd419db06c1".
Proof. vm_compute. reflexivity. Qed.

Example JSON_parse_nested :
  JSON_parse (quoted " [1, 2.5e1 ,[],{'a' : null , 'b':[true,false], 'a':'xA\n'}] ")
  = Ok (JArr [JNum (of_int 1); JNum (of_int 25); JArr [];
              JObj [(js "a", JStr [120; 65; 10]);
                    (js "b", JArr [JBool true; JBool false])]]).
Proof. vm_compute. reflexivity. Qed.

Example JSON_parse_rejects :
  map JSON_parse [js ""; js "01"; js "[1,]"; js "-"; js "1."; js "nul";
                  js "{} x"; quoted "{'a':1,}"; quoted "'a"; quoted "{a:1}";
                  quoted "'\x'"; [34; 9; 34]]
  = repeat (Throw SyntaxError) 12.
Proof. vm_compute. reflexivity. Qed.

Example JSON_parse_numbers :
  map JSON_parse [js "-0.5E-1 "; js "1e999"; js "9007199254740993"; js "0.1"]
  = [Ok (JNum (Finite (-3602879701896397) (-56))); Ok (JNum (Infinity false));
     Ok (JNum (of_int 9007199254740992));
     Ok (JNum (Finite 3602879701896397 (-55)))].
Proof. vm_compute. reflexivity. Qed.

Example Number_toString_values :
  map Number_toString
      [of_decimal false 1 (-1); of_decimal false 1 21; of_decimal false 1 23;
       of_decimal false 123456789012345678901 0; of_decimal false 5 (-324);
       of_decimal false 17976931348623157 292; of_decimal true 15 (-1);
       of_decimal false 1 (-7); of_decimal false 1 (-6);
       of_decimal false 30000000000000004 (-17); of_decimal false 2 308;
       of_decimal false 2 (-324); of_decimal false 12345 (-2); of_int 100]
  = map js ["0.1"; "1e+21"; "1e+23"; "123456789012345680000"; "5e-324";
            "1.7976931348623157e+308"; "-1.5"; "1e-7"; "0.000001";
            "0.30000000000000004"; "Infinity"; "0"; "123.45"; "100"]%string.
Proof. vm_compute. reflexivity. Qed.

Example StringToNumber_values :
  map StringToNumber
      (map js [" 12 "; "0x1F"; "0x"; "-Infinity"; "1e3"; ".5"; "5."; ".";
               "1,2"; ""; "-0x10"; "0b101"; "09"; "1e"; "+5"; "soon"]%string)
  = [of_int 12; of_int 31; NaN; Infinity true; of_int 1000; Finite 1 (-1);
     of_int 5; NaN; NaN; of_int 0; NaN; of_int 5; of_int 9; NaN; of_int 5; NaN].
Proof. vm_compute. reflexivity. Qed.

Example ToString_array :
  ToString (JArr [JNum (of_int 1); JNull; JArr [JStr (js "a"); JBool true]; JObj []])
  = Ok (js "1,,a,true,[object Object]").
Proof. vm_compute. reflexivity. Qed.

Example ToNumber_values :
  map ToNumber [JArr [JArr [JStr (js " 7 ")]]; JArr []; JObj [];
                JObj [(js "toString", JNull)]; JUndefined; JNull; JBool true]
  = [Ok (of_int 7); Ok (of_int 0); Ok NaN; Throw TypeError; Ok NaN;
     Ok (of_int 0); Ok (of_int 1)].
Proof. vm_compute. reflexivity. Qed.

Example parseInt10_values :
  map parseInt10 (map js ["  12abc"; "abc"; "-3.9"; "+7"; "0x10"; ""]%string)
  = [of_int 12; NaN; of_int (-3); of_int 7; of_int 0; NaN].
Proof. vm_compute. reflexivity. Qed.

(* ===================================================================== *)
(** * Properties of [verifyAdminToken]                                    *)
(* ===================================================================== *)

Section Split.

Variable sep : Z.

Lemma split_not_nil (s : jsstring) : split sep s <> [].
Proof.
  destruct s as [|c rest]; simpl; [discriminate|].
  destruct (c =? sep); [discriminate|].
  destruct (split sep rest); discriminate.
Qed.

Lemma join_cons (p : jsstring) (rest : list jsstring) :
  rest <> [] -> join sep (p :: rest) = p ++ sep :: join sep rest.
Proof.
  destruct rest; [congruence | reflexivity].
Qed.

(** Joining the pieces gives the string back: nothing is lost at a ['.']. *)
Lemma join_split (s : jsstring) : join sep (split sep s) = s.
Proof.
  induction s as [|c rest IH]; [reflexivity|].
  cbn [split]. destruct (Z.eqb_spec c sep) as [->|Hc].
  - rewrite join_cons by apply split_not_nil. now rewrite IH.
  - destruct (split sep rest) as [|seg segs] eqn:E.
    + now apply split_not_nil in E.
    + destruct segs as [|seg' segs'].
      * cbn in IH |- *. now rewrite IH.
      * rewrite join_cons in IH |- * by discriminate.
        rewrite <- IH. reflexivity.
Qed.

(** No piece holds the separator. *)
Lemma split_pieces (s : jsstring) : Forall (fun p => ~ In sep p) (split sep s).
Proof.
  induction s as [|c rest IH]; cbn [split].
  - constructor; [intros []|constructor].
  - destruct (Z.eqb_spec c sep) as [->|Hc].
    + constructor; [intros []|exact IH].
    + destruct (split sep rest) as [|seg segs]; [repeat constructor; intros [H|[]]; congruence|].
      inversion IH; subst. constructor; [|assumption].
      intros [H|H]; [congruence | contradiction].
Qed.

(** A prefix without separator is the first piece. *)
Lemma split_app (p s : jsstring) :
  ~ In sep p -> split sep (p ++ sep :: s) = p :: split sep s.
Proof.
  induction p as [|c p IH]; intros Hp; cbn [app split].
  - now rewrite Z.eqb_refl.
  - destruct (Z.eqb_spec c sep) as [->|Hc]; [exfalso; apply Hp; now left|].
    rewrite IH by (intros H; apply Hp; now right). reflexivity.
Qed.

End Split.

(** With both parts present the call is the checks of lines 25-48 under
    the [catch]. *)
Lemma verifyAdminToken_parts (now : Z) (token serviceKey p s : jsstring) :
  nth_error (split DOT token) 0 = Some p ->
  nth_error (split DOT token) 1 = Some s ->
  p <> [] -> s <> [] ->
  verifyAdminToken now token serviceKey
  = catch_all (verify_parts now serviceKey p s).
Proof.
  intros Hp Hs Hp' Hs'. unfold verifyAdminToken, verifyAdminToken_try.
  rewrite Hp, Hs. destruct p; [congruence|]. destruct s; [congruence|].
  reflexivity.
Qed.

(** With a part missing or empty the call returns [null] and prints
    nothing. *)
Lemma verifyAdminToken_absent (now : Z) (token serviceKey : jsstring) :
  absent (nth_error (split DOT token) 0) || absent (nth_error (split DOT token) 1)
  = true ->
  verifyAdminToken now token serviceKey = silent.
Proof.
  intros H. unfold verifyAdminToken, verifyAdminToken_try. now rewrite H.
Qed.

(** The checks, case by case. *)
Lemma verify_parts_cases (now : Z) (serviceKey p s tokenData : jsstring)
  (payload exp : JsValue) :
  atob p = Ok tokenData ->
  JSON_parse tokenData = Ok payload ->
  get payload (js "exp") = Ok exp ->
  catch_all (verify_parts now serviceKey p s)
  = match less_than exp (of_int now) with
    | Throw e => verification_error e
    | Ok true => token_expired
    | Ok false => signature_check s tokenData serviceKey payload
    end.
Proof.
  intros Ha Hj He. unfold verify_parts. rewrite Ha. cbn [bind].
  rewrite Hj. cbn [bind]. rewrite He. cbn [bind].
  destruct (less_than exp (of_int now)) as [[|]|e]; cbn [bind catch_all];
    try reflexivity.
  unfold signature_check.
  now destruct (str_eqb s (expectedSignature tokenData serviceKey)).
Qed.

(** Every way the checks can end. *)
Lemma verify_parts_outcome (now : Z) (serviceKey p s : jsstring) :
  (exists tokenData payload,
     atob p = Ok tokenData /\ JSON_parse tokenData = Ok payload /\
     payload <> JNull /\
     s = expectedSignature tokenData serviceKey /\
     catch_all (verify_parts now serviceKey p s) = accepted payload)
  \/ catch_all (verify_parts now serviceKey p s) = token_expired
  \/ catch_all (verify_parts now serviceKey p s) = invalid_signature
  \/ exists e, verify_parts now serviceKey p s = Throw e /\
               catch_all (verify_parts now serviceKey p s) = verification_error e.
Proof.
  unfold verify_parts.
  destruct (atob p) as [tokenData|e] eqn:Ha; cbn [bind];
    [|right; right; right; now exists e].
  destruct (JSON_parse tokenData) as [payload|e] eqn:Hj; cbn [bind];
    [|right; right; right; now exists e].
  destruct (get payload (js "exp")) as [exp|e] eqn:He; cbn [bind];
    [|right; right; right; now exists e].
  destruct (less_than exp (of_int now)) as [[|]|e]; cbn [bind];
    [right; now left | | right; right; right; now exists e].
  destruct (str_eqb s (expectedSignature tokenData serviceKey)) eqn:Hs; cbn [negb].
  - left. exists tokenData, payload. repeat split; try assumption.
    + intros ->. discriminate He.
    + now apply str_eqb_eq.
  - right; right; now left.
Qed.

(** [verifyAdminToken] is either silent or the checks on the first two
    pieces. *)
Lemma verifyAdminToken_split (now : Z) (token serviceKey : jsstring) :
  verifyAdminToken now token serviceKey = silent
  \/ exists p s, nth_error (split DOT token) 0 = Some p /\
                 nth_error (split DOT token) 1 = Some s /\
                 p <> [] /\ s <> [] /\
                 verifyAdminToken now token serviceKey
                 = catch_all (verify_parts now serviceKey p s).
Proof.
  destruct (absent (nth_error (split DOT token) 0)
            || absent (nth_error (split DOT token) 1)) eqn:E.
  - left. now apply verifyAdminToken_absent.
  - right. apply orb_false_elim in E as [E0 E1].
    destruct (nth_error (split DOT token) 0) as [[|c p]|] eqn:H0; try discriminate.
    destruct (nth_error (split DOT token) 1) as [[|d s]|] eqn:H1; try discriminate.
    exists (c :: p), (d :: s). repeat split; try discriminate.
    now apply verifyAdminToken_parts.
Qed.

(** C1, as stated, fails: with the trailing [".junk"] the part after the
    first ['.'] is not the expected signature, and the credential is
    accepted all the same, because the signature compared is the second
    piece only. *)
Lemma C1_counterexample :
  let token := credential_2000 ++ js ".junk" in
  verifyAdminToken 1000 token secret
  = accepted (identity "D1" (JNum (of_int 2000)))
  /\ after_first_dot token = signature_2000 ++ js ".junk"
  /\ verifyAdminToken_cut_once 1000 token secret = invalid_signature.
Proof. vm_compute. repeat split; reflexivity. Qed.

(** C1, amended: the credential is split at every ['.']; the payload part
    is the text before the first ['.'], the signature part the text between
    the first and the second ['.'] (up to the end when there is no second
    one), and what follows a second ['.'] is ignored. When either part is
    missing or empty the call returns [null] and prints nothing; otherwise
    the checks run on these two parts, and the signature part is what is
    compared with the expected signature. *)
Theorem C1_signature_is_second_piece (now : Z) (token serviceKey : jsstring) :
  join DOT (split DOT token) = token
  /\ Forall dot_free (split DOT token)
  /\ (forall p, split DOT token = [p] ->
        verifyAdminToken now token serviceKey = silent)
  /\ (forall p s rest, split DOT token = p :: s :: rest ->
        p = [] \/ s = [] ->
        verifyAdminToken now token serviceKey = silent)
  /\ (forall p s rest, split DOT token = p :: s :: rest ->
        p <> [] -> s <> [] ->
        verifyAdminToken now token serviceKey
        = catch_all (verify_parts now serviceKey p s)
        /\ forall tokenData payload exp,
             atob p = Ok tokenData ->
             JSON_parse tokenData = Ok payload ->
             get payload (js "exp") = Ok exp ->
             less_than exp (of_int now) = Ok false ->
             verifyAdminToken now token serviceKey
             = signature_check s tokenData serviceKey payload).
Proof.
  split; [apply join_split|]. split; [apply split_pieces|].
  split; [|split].
  - intros p Hp. apply verifyAdminToken_absent. rewrite Hp.
    cbn [nth_error absent]. apply orb_true_r.
  - intros p s rest Hp [-> | ->]; apply verifyAdminToken_absent; rewrite Hp;
      [reflexivity | apply orb_true_r].
  - intros p s rest Hp Hp' Hs'.
    assert (E : verifyAdminToken now token serviceKey
                = catch_all (verify_parts now serviceKey p s))
      by (apply verifyAdminToken_parts; try assumption; now rewrite Hp).
    split; [exact E|].
    intros tokenData payload exp Ha Hj He Hlt. rewrite E.
    rewrite (verify_parts_cases _ _ _ _ _ _ _ Ha Hj He). now rewrite Hlt.
Qed.

(** The theorem on the accepted credential followed by [".junk"]. *)
Lemma C1_signature_is_second_piece_witness :
  split DOT (credential_2000 ++ js ".junk")
  = [payload_2000; signature_2000; js "junk"]
  /\ verifyAdminToken 1000 (credential_2000 ++ js ".junk") secret
     = catch_all (verify_parts 1000 secret payload_2000 signature_2000).
Proof.
  split; [reflexivity|].
  apply (proj1 (proj2 (proj2 (proj2 (proj2
           (C1_signature_is_second_piece 1000 (credential_2000 ++ js ".junk") secret))))
           payload_2000 signature_2000 [js "junk"] eq_refl
           ltac:(discriminate) ltac:(discriminate))).
Defined.

(** C2, as stated, fails: a credential without ['.'], an expired one and
    one with a wrong signature are rejected with the very same returned
    value, [null]; only the console output differs. *)
Lemma C2_counterexample :
  returned (verifyAdminToken 1000 payload_2000 secret) = Some JNull
  /\ returned (verifyAdminToken 1000 credential_999 secret) = Some JNull
  /\ returned (verifyAdminToken 1000 (payload_2000 ++ DOT :: signature_999) secret)
     = Some JNull
  /\ printed (verifyAdminToken 1000 payload_2000 secret) = []
  /\ printed (verifyAdminToken 1000 credential_999 secret)
     = [console_log "Token expired"]
  /\ printed (verifyAdminToken 1000 (payload_2000 ++ DOT :: signature_999) secret)
     = [console_log "Invalid signature"].
Proof. vm_compute. repeat split; reflexivity. Qed.

(** C2, amended: for every credential and secret the verifier returns
    either the parsed payload (never [null]) or [null]; every rejection
    returns the same [null], and the rejection paths differ only in what
    they print: nothing when a part is missing, "Token expired",
    "Invalid signature", or the error line of the [catch] clause. *)
Theorem C2_rejections_return_null (now : Z) (token serviceKey : jsstring) :
  (exists payload, payload <> JNull /\
     verifyAdminToken now token serviceKey = accepted payload)
  \/ (returned (verifyAdminToken now token serviceKey) = Some JNull
      /\ (verifyAdminToken now token serviceKey = silent
          \/ verifyAdminToken now token serviceKey = token_expired
          \/ verifyAdminToken now token serviceKey = invalid_signature
          \/ exists e, verifyAdminToken now token serviceKey
                       = verification_error e)).
Proof.
  destruct (verifyAdminToken_split now token serviceKey)
    as [E | (p & s & _ & _ & _ & _ & E)]; rewrite E.
  - right. split; [reflexivity | now left].
  - destruct (verify_parts_outcome now serviceKey p s)
      as [(t & v & _ & _ & Hv & _ & H) | [H | [H | (e & _ & H)]]]; rewrite H.
    + left. now exists v.
    + right. split; [reflexivity | right; now left].
    + right. split; [reflexivity | right; right; now left].
    + right. split; [reflexivity | right; right; right; now exists e].
Qed.

Lemma num_ltb_int (a b : Z) : num_ltb (of_int a) (of_int b) = (a <? b).
Proof.
  unfold num_ltb, of_int, fraction. cbn. now rewrite !Z.mul_1_r.
Qed.

(** C3: for a credential with both parts whose payload decodes and parses,
    an [exp] below the current instant gives the "Token expired" rejection
    whatever the signature part is, and an [exp] equal to the current
    instant passes the expiry check: the outcome is then that of the
    signature comparison. *)
Theorem C3_expiry_is_strict (now : Z) (token serviceKey p s tokenData : jsstring)
  (payload : JsValue) (exp : Number) :
  nth_error (split DOT token) 0 = Some p ->
  nth_error (split DOT token) 1 = Some s ->
  p <> [] -> s <> [] ->
  atob p = Ok tokenData ->
  JSON_parse tokenData = Ok payload ->
  get payload (js "exp") = Ok (JNum exp) ->
  (num_ltb exp (of_int now) = true ->
     verifyAdminToken now token serviceKey = token_expired)
  /\ (exp = of_int now ->
     verifyAdminToken now token serviceKey
     = signature_check s tokenData serviceKey payload).
Proof.
  intros Hp Hs Hp' Hs' Ha Hj He.
  rewrite (verifyAdminToken_parts _ _ _ _ _ Hp Hs Hp' Hs').
  rewrite (verify_parts_cases _ _ _ _ _ _ _ Ha Hj He).
  unfold less_than. cbn [ToNumber bind]. split.
  - now intros ->.
  - intros ->. now rewrite num_ltb_int, Z.ltb_irrefl.
Qed.

(** The theorem at instant 1000: [exp] 999 under the signature of another
    payload is expired, [exp] 1000 is accepted. *)
Lemma C3_expiry_is_strict_witness :
  verifyAdminToken 1000 (payload_999 ++ DOT :: signature_2000) secret
  = token_expired
  /\ verifyAdminToken 1000 credential_1000 secret
     = accepted (identity "D1" (JNum (of_int 1000))).
Proof.
  split.
  - apply (proj1 (C3_expiry_is_strict 1000 (payload_999 ++ DOT :: signature_2000)
                    secret payload_999 signature_2000 _
                    (identity "D1" (JNum (of_int 999))) (of_int 999)
                    eq_refl eq_refl ltac:(discriminate) ltac:(discriminate)
                    eq_refl eq_refl eq_refl)).
    reflexivity.
  - apply (proj2 (C3_expiry_is_strict 1000 credential_1000
                    secret payload_1000 signature_1000 _
                    (identity "D1" (JNum (of_int 1000))) (of_int 1000)
                    eq_refl eq_refl ltac:(discriminate) ltac:(discriminate)
                    eq_refl eq_refl eq_refl)).
    reflexivity.
Defined.

(** [dot_free], decided. *)
Lemma dot_free_check (s : jsstring) :
  forallb (fun c => negb (c =? DOT)) s = true -> dot_free s.
Proof.
  intros H Hin. rewrite forallb_forall in H. specialize (H _ Hin).
  now rewrite Z.eqb_refl in H.
Qed.

(** A credential of two non-empty pieces without ['.'] is split into
    them. *)
Lemma split_credential (p s : jsstring) :
  dot_free p -> dot_free s -> split DOT (p ++ DOT :: s) = [p; s].
Proof.
  intros Hp Hs. rewrite split_app by exact Hp. f_equal.
  clear p Hp. induction s as [|c s IH]; [reflexivity|].
  cbn [split]. destruct (Z.eqb_spec c DOT) as [->|Hc].
  - exfalso. apply Hs. now left.
  - rewrite IH by (intros H; apply Hs; now right). reflexivity.
Qed.

Lemma verifyAdminToken_credential (now : Z) (serviceKey p s : jsstring) :
  dot_free p -> dot_free s -> p <> [] -> s <> [] ->
  verifyAdminToken now (p ++ DOT :: s) serviceKey
  = catch_all (verify_parts now serviceKey p s).
Proof.
  intros Hp Hs Hp' Hs'.
  apply verifyAdminToken_parts; try assumption;
    now rewrite split_credential by assumption.
Qed.

(** The checks read the payload part through [atob] only. *)
Lemma verify_parts_same_text (now : Z) (serviceKey p p' s : jsstring) :
  atob p' = atob p ->
  verify_parts now serviceKey p' s = verify_parts now serviceKey p s.
Proof.
  intros H. unfold verify_parts. now rewrite H.
Qed.

Lemma sextets_all (s : jsstring) : forall v,
  sextets s = Some v -> forall c, In c s -> sextet c <> None.
Proof.
  induction s as [|x s IH]; intros v H c Hc; [destruct Hc|].
  cbn in H. destruct (sextet x) as [a|] eqn:Ex; [|discriminate].
  destruct (sextets s) as [vs|] eqn:Es; [|discriminate].
  destruct Hc as [<- | Hc]; [congruence | exact (IH vs eq_refl c Hc)].
Qed.

(** Only [=] characters go with the padding. *)
Lemma strip_padding_keeps (d : jsstring) (c : Z) :
  In c d -> c <> 61 -> In c (strip_padding d).
Proof.
  intros Hin Hc. unfold strip_padding.
  destruct (Z.of_nat (List.length d) mod 4 =? 0); [|exact Hin].
  assert (R : forall x r, rev d = x :: r -> x = 61 -> In c (rev r)).
  { intros x r E ->. rewrite <- in_rev. apply in_rev in Hin. rewrite E in Hin.
    destruct Hin as [H | H]; [congruence | exact H]. }
  destruct (rev d) as [|x r] eqn:E; [exact Hin|].
  destruct (Z.eq_dec x 61) as [->|Nx].
  - pose proof (R 61 r eq_refl eq_refl) as Hr.
    destruct r as [|y r']; [exact Hr|].
    destruct (Z.eq_dec y 61) as [->|Ny].
    + rewrite <- in_rev in Hr |- *.
      destruct Hr as [H | H]; [congruence | exact H].
    + destruct y as [|q|q]; try exact Hr;
        do 6 (try exact Hr; destruct q as [q|q|]); try exact Hr; congruence.
  - destruct x as [|q|q]; try exact Hin;
      do 6 (try exact Hin; destruct q as [q|q|]); try exact Hin; congruence.
Qed.

(** [atob] refuses every string that holds a ['.']. *)
Lemma atob_dot_free (p t : jsstring) : atob p = Ok t -> dot_free p.
Proof.
  unfold atob, dot_free. intros H Hin.
  set (d := strip_padding (filter (fun c => negb (is_ascii_whitespace c)) p)) in H.
  assert (Hd : In DOT d).
  { apply strip_padding_keeps; [|discriminate].
    apply filter_In. split; [exact Hin | reflexivity]. }
  destruct (Z.of_nat (List.length d) mod 4 =? 1); [discriminate|].
  destruct (sextets d) as [v|] eqn:E; [|discriminate].
  now apply (sextets_all d v E DOT Hd).
Qed.

(** An accepted credential: what was parsed, and that the signature
    matched. *)
Lemma verify_parts_accepted (now : Z) (serviceKey p s : jsstring)
  (payload : JsValue) :
  catch_all (verify_parts now serviceKey p s) = accepted payload ->
  exists tokenData,
    atob p = Ok tokenData /\ JSON_parse tokenData = Ok payload
    /\ payload <> JNull /\ s = expectedSignature tokenData serviceKey.
Proof.
  intros H.
  destruct (verify_parts_outcome now serviceKey p s)
    as [(t & v & Ha & Hj & Hn & Hs & E) | [E | [E | (e & _ & E)]]];
    rewrite E in H; try discriminate H.
  injection H as <-. now exists t.
Qed.

(** C4, as stated, fails. From the accepted credential of the payload with
    [exp] 2000, at instant 1000, one bit of the payload segment is changed
    and the signature kept: bit 0 of character 82 (['0'] becomes ['1'], in
    the two bits [atob] drops) leaves the credential accepted; bit 1 of
    character 79 turns the text of [exp] from 2000 into 20.0, an instant
    before now, and the result is "Token expired"; bit 0 of character 0
    makes the text unparsable, and bit 7 of character 0 leaves the base64 alphabet:
    both end in the [catch] clause; bit 6 of character 37 turns ['n'] into
    ['.'], the credential has three pieces and the first does not decode.
    From the accepted credential of the payload text [19], bit 6 of
    character 2 turns ['n'] into ['.']: the second piece is empty and the
    result is [null] with nothing printed. *)
Lemma C4_counterexample :
  verifyAdminToken 1000 credential_2000 secret
  = accepted (identity "D1" (JNum (of_int 2000)))
  /\ verifyAdminToken 1000 (flip_bit 82 0 payload_2000 ++ DOT :: signature_2000) secret
     = accepted (identity "D1" (JNum (of_int 2000)))
  /\ verifyAdminToken 1000 (flip_bit 79 1 payload_2000 ++ DOT :: signature_2000) secret
     = token_expired
  /\ verifyAdminToken 1000 (flip_bit 0 0 payload_2000 ++ DOT :: signature_2000) secret
     = verification_error SyntaxError
  /\ verifyAdminToken 1000 (flip_bit 0 7 payload_2000 ++ DOT :: signature_2000) secret
     = verification_error InvalidCharacterError
  /\ nth_error (flip_bit 37 6 payload_2000) 37 = Some DOT
  /\ verifyAdminToken 1000 (flip_bit 37 6 payload_2000 ++ DOT :: signature_2000) secret
     = verification_error InvalidCharacterError
  /\ verifyAdminToken 1000 credential_19 secret = accepted (JNum (of_int 19))
  /\ flip_bit 2 6 payload_19 = js "MT."
  /\ verifyAdminToken 1000 (flip_bit 2 6 payload_19 ++ DOT :: signature_19) secret
     = silent.
Proof. vm_compute. repeat split; reflexivity. Qed.

(** C4, amended: the signature binds to the text [atob] decodes from the
    payload segment, not to the bytes of the segment. For an accepted
    credential whose payload segment is replaced by any string (one bit of
    it changed, or more) and whose signature is kept:
    - a segment that decodes to the same text is accepted with the same
      identity;
    - in every case the result is one of five: [null] with nothing printed
      (the first or the second piece of the changed credential is empty or
      missing), "Token expired", "Invalid signature", the error of the
      [catch] clause, or an acceptance; it is an acceptance only if the
      second piece of the changed credential is the expected signature of
      the text decoded from its first piece;
    - for a non-empty segment without ['.'] the pieces are the segment and
      the kept signature: the result is one of the last four, and an
      acceptance only if the new text has the same expected signature as
      the old one. *)
Theorem C4_signature_binds_decoded_text
  (now : Z) (serviceKey p p' s : jsstring) (payload : JsValue) :
  dot_free p -> p <> [] -> dot_free s -> s <> [] ->
  verifyAdminToken now (p ++ DOT :: s) serviceKey = accepted payload ->
  (atob p' = atob p ->
     verifyAdminToken now (p' ++ DOT :: s) serviceKey = accepted payload)
  /\ ((absent (nth_error (split DOT (p' ++ DOT :: s)) 0)
       || absent (nth_error (split DOT (p' ++ DOT :: s)) 1) = true
       /\ verifyAdminToken now (p' ++ DOT :: s) serviceKey = silent)
      \/ verifyAdminToken now (p' ++ DOT :: s) serviceKey = token_expired
      \/ verifyAdminToken now (p' ++ DOT :: s) serviceKey = invalid_signature
      \/ (exists e, verifyAdminToken now (p' ++ DOT :: s) serviceKey
                    = verification_error e)
      \/ exists p1 s1 tokenData' payload',
           nth_error (split DOT (p' ++ DOT :: s)) 0 = Some p1
           /\ nth_error (split DOT (p' ++ DOT :: s)) 1 = Some s1
           /\ atob p1 = Ok tokenData'
           /\ JSON_parse tokenData' = Ok payload'
           /\ payload' <> JNull
           /\ s1 = expectedSignature tokenData' serviceKey
           /\ verifyAdminToken now (p' ++ DOT :: s) serviceKey
              = accepted payload')
  /\ (dot_free p' -> p' <> [] ->
      verifyAdminToken now (p' ++ DOT :: s) serviceKey = token_expired
      \/ verifyAdminToken now (p' ++ DOT :: s) serviceKey = invalid_signature
      \/ (exists e, verifyAdminToken now (p' ++ DOT :: s) serviceKey
                    = verification_error e)
      \/ exists tokenData tokenData' payload',
           atob p = Ok tokenData /\ atob p' = Ok tokenData'
           /\ expectedSignature tokenData' serviceKey
              = expectedSignature tokenData serviceKey
           /\ JSON_parse tokenData' = Ok payload'
           /\ verifyAdminToken now (p' ++ DOT :: s) serviceKey
              = accepted payload').
Proof.
  intros Hp Hp0 Hs Hs0 Hacc.
  rewrite verifyAdminToken_credential in Hacc by assumption.
  destruct (verify_parts_accepted _ _ _ _ _ Hacc) as (t & Ha & Hj & Hn & Hsig).
  split; [|split].
  - intros Hsame.
    assert (Hd : dot_free p') by (apply (atob_dot_free p' t); congruence).
    assert (Hne : p' <> []).
    { intros ->. rewrite <- Hsame in Ha. injection Ha as <-. discriminate Hj. }
    rewrite verifyAdminToken_credential by assumption.
    now rewrite (verify_parts_same_text _ _ _ _ _ Hsame).
  - destruct (absent (nth_error (split DOT (p' ++ DOT :: s)) 0)
              || absent (nth_error (split DOT (p' ++ DOT :: s)) 1)) eqn:E.
    + left. split; [reflexivity|]. now apply verifyAdminToken_absent.
    + right. apply orb_false_elim in E as [E0 E1].
      destruct (nth_error (split DOT (p' ++ DOT :: s)) 0) as [[|c p1]|] eqn:H0;
        try discriminate.
      destruct (nth_error (split DOT (p' ++ DOT :: s)) 1) as [[|d s1]|] eqn:H1;
        try discriminate.
      rewrite (verifyAdminToken_parts _ _ _ (c :: p1) (d :: s1) H0 H1)
        by discriminate.
      destruct (verify_parts_outcome now serviceKey (c :: p1) (d :: s1))
        as [(t' & v' & Ha' & Hj' & Hn' & Hs' & H') | [H' | [H' | (e & _ & H')]]].
      * right; right; right. exists (c :: p1), (d :: s1), t', v'. auto 8.
      * now left.
      * right; now left.
      * right; right; left. now exists e.
  - intros Hd Hne. rewrite verifyAdminToken_credential by assumption.
    destruct (verify_parts_outcome now serviceKey p' s)
      as [(t' & v' & Ha' & Hj' & _ & Hs' & H') | [H' | [H' | (e & _ & H')]]].
    + right; right; right. exists t, t', v'. repeat split; try assumption.
      congruence.
    + now left.
    + right; now left.
    + right; right; left. now exists e.
Qed.

(** The theorem on the credential with bit 0 of character 82 changed. *)
Lemma C4_signature_binds_decoded_text_witness :
  verifyAdminToken 1000 (flip_bit 82 0 payload_2000 ++ DOT :: signature_2000) secret
  = accepted (identity "D1" (JNum (of_int 2000))).
Proof.
  apply (proj1 (C4_signature_binds_decoded_text 1000 secret payload_2000
                  (flip_bit 82 0 payload_2000) signature_2000
                  (identity "D1" (JNum (of_int 2000)))
                  (dot_free_check payload_2000 eq_refl) ltac:(discriminate)
                  (dot_free_check signature_2000 eq_refl) ltac:(discriminate)
                  eq_refl)).
  reflexivity.
Defined.

(** C5, as stated, fails: the payload [{}], which has none of the four
    fields, is accepted and returned as the identity when its signature
    matches; so is a payload whose [exp] is the string ["soon"]. *)
Lemma C5_counterexample :
  atob payload_empty_object = Ok [123; 125]
  /\ verifyAdminToken 1000 credential_empty_object secret = accepted (JObj [])
  /\ verifyAdminToken 1000 credential_soon secret
     = accepted (identity "D1" (JStr (js "soon"))).
Proof. vm_compute. repeat split; reflexivity. Qed.

(** C5, amended: the fields of the parsed payload are not validated. For a
    credential with both parts whose payload segment decodes to a text
    that parses as JSON: a [null] payload is rejected through the [catch]
    clause (reading [exp] raises a [TypeError]); for any other payload the
    only field read is [exp], coerced to a number and compared with now;
    a payload without [exp] is never expired; when [exp] is not below now
    the payload is returned as the identity if the signature matches,
    whatever its other fields are. *)
Theorem C5_fields_are_not_validated
  (now : Z) (token serviceKey p s tokenData : jsstring) (payload : JsValue) :
  nth_error (split DOT token) 0 = Some p ->
  nth_error (split DOT token) 1 = Some s ->
  p <> [] -> s <> [] ->
  atob p = Ok tokenData ->
  JSON_parse tokenData = Ok payload ->
  (payload = JNull ->
     verifyAdminToken now token serviceKey = verification_error TypeError)
  /\ (forall exp, get payload (js "exp") = Ok exp ->
        verifyAdminToken now token serviceKey
        = match less_than exp (of_int now) with
          | Throw e => verification_error e
          | Ok true => token_expired
          | Ok false => signature_check s tokenData serviceKey payload
          end)
  /\ (get payload (js "exp") = Ok JUndefined ->
        verifyAdminToken now token serviceKey
        = signature_check s tokenData serviceKey payload).
Proof.
  intros Hp Hs Hp' Hs' Ha Hj.
  rewrite (verifyAdminToken_parts _ _ _ _ _ Hp Hs Hp' Hs').
  split; [|split].
  - intros ->. unfold verify_parts. rewrite Ha. cbn [bind]. now rewrite Hj.
  - intros exp He. apply (verify_parts_cases _ _ _ _ _ _ _ Ha Hj He).
  - intros He. now rewrite (verify_parts_cases _ _ _ _ _ _ _ Ha Hj He).
Qed.

(** The theorem on the credential of the payload [{}]. *)
Lemma C5_fields_are_not_validated_witness :
  verifyAdminToken 1000 credential_empty_object secret
  = signature_check signature_empty_object [123; 125] secret (JObj []).
Proof.
  apply (proj2 (proj2 (C5_fields_are_not_validated 1000 credential_empty_object
                         secret payload_empty_object signature_empty_object
                         [123; 125] (JObj [])
                         eq_refl eq_refl ltac:(discriminate) ltac:(discriminate)
                         eq_refl eq_refl))).
  reflexivity.
Defined.




(* ===================================================================== *)
(** * Properties of the handler                                           *)
(* ===================================================================== *)

Lemma verifyAdminToken_empty (now : Z) (serviceKey : jsstring) :
  verifyAdminToken now [] serviceKey = silent.
Proof. reflexivity. Qed.

(** After an accepted credential the handler goes on with the [admin_id]
    of the payload, and with nothing else of the payload. *)
Lemma serve_try_accepted (now : Z) (serviceKey : jsstring) (req : Request)
  (db : DataService) (token : jsstring) (payload : JsValue) :
  x_admin_token req = Some token ->
  verifyAdminToken now token serviceKey = accepted payload ->
  ToBoolean payload = true ->
  serve_try now serviceKey req db []
  = and_then (lift (get payload (js "admin_id")))
             (fun admin_id => with_active_admin admin_id req) db [].
Proof.
  intros Ht Hv Hp. unfold serve_try. rewrite Ht.
  destruct token as [|c token].
  - rewrite verifyAdminToken_empty in Hv. inversion Hv; subst. discriminate Hp.
  - cbn [absent]. rewrite Hv. unfold accepted.
    cbv [return_if and_then ret await write fst snd map app].
    rewrite Hp. reflexivity.
Qed.

(** The four cases of the [switch]. *)
Lemma switch_list (divisionId : option jsstring) (data : JsValue) :
  switch_action divisionId (JStr (js "list")) data = action_list divisionId data.
Proof. reflexivity. Qed.

Lemma switch_create (divisionId : option jsstring) (data : JsValue) :
  switch_action divisionId (JStr (js "create")) data
  = action_create divisionId data.
Proof. reflexivity. Qed.

Lemma switch_update (divisionId : option jsstring) (data : JsValue) :
  switch_action divisionId (JStr (js "update")) data
  = action_update divisionId data.
Proof. reflexivity. Qed.

Lemma switch_delete (divisionId : option jsstring) (data : JsValue) :
  switch_action divisionId (JStr (js "delete")) data
  = action_delete divisionId data.
Proof. reflexivity. Qed.

Section ActiveAdmin.

(** An authenticated, active admin sends a request with a body. *)
Variables (now : Z) (serviceKey : jsstring) (req : Request) (db : DataService).
Variables (token : jsstring) (payload admin_id : JsValue) (admin : Admin.row).
Variables (body action data : JsValue).

Hypothesis not_preflight : str_eqb (method req) (js "OPTIONS") = false.
Hypothesis token_given : x_admin_token req = Some token.
Hypothesis token_accepted :
  verifyAdminToken now token serviceKey = accepted payload.
Hypothesis payload_truthy : ToBoolean payload = true.
Hypothesis token_admin : get payload (js "admin_id") = Ok admin_id.
Hypothesis admin_found : admins_by_id db admin_id = found admin.
Hypothesis admin_active : Admin.is_active admin = Some true.
Hypothesis body_read : json req = Ok body.
Hypothesis body_action : get body (js "action") = Ok action.
Hypothesis body_data : get body (js "data") = Ok data.

(** The handler reaches the [switch] having asked for the admin only. *)
Lemma serve_try_switch :
  ToBoolean action = true ->
  serve_try now serviceKey req db []
  = switch_action (Admin.division_id admin) action data db
      [asked (admins_select_single admin_id)].
Proof.
  intros Ha.
  rewrite (serve_try_accepted _ _ _ _ _ _ token_given token_accepted payload_truthy).
  rewrite token_admin. unfold with_active_admin, handle_request.
  cbv [and_then lift ask return_if ret respond app].
  rewrite admin_found. cbn [found Postgrest.data Postgrest.error is_some orb].
  unfold inactive. rewrite admin_active.
  rewrite body_read, body_action, body_data, Ha. reflexivity.
Qed.

(** [verifyProgramAccess] on a program of another division. *)
Lemma verifyProgramAccess_foreign (programId : jsstring) (log : list Event) :
  foreign_program db admin programId ->
  verifyProgramAccess (Admin.division_id admin) programId db log
  = (Next false, log ++ [asked (programs_select_single programId)]).
Proof.
  intros (program & Hd & Hne). unfold verifyProgramAccess.
  cbv [and_then ask ret]. rewrite Hd.
  destruct (Postgrest.error (programs_by_id db programId)); [reflexivity|].
  now rewrite Hne.
Qed.

(** C7: an authenticated, active admin asks for [list] or [create] on a
    program of another division, or for [update] or [delete] on a question
    whose program is of another division. The answer is the 403 response
    (not the 401 of a failed authentication), and the store was asked for
    the admin, for the question's program id in the case of [update] and
    [delete], and for the program's division, and for nothing else: the
    questions were neither listed nor inserted, updated or deleted. *)
Theorem C7_foreign_division_is_forbidden :
  status forbidden = 403
  /\ (forall programId,
        action = JStr (js "list") \/ action = JStr (js "create") ->
        ToString (or_else (get_opt data (js "program_id")) (JStr (js "")))
        = Ok programId ->
        programId <> [] ->
        foreign_program db admin programId ->
        serve now serviceKey req db
        = (forbidden, [asked (admins_select_single admin_id);
                       asked (programs_select_single programId)]))
  /\ (forall questionId existing,
        action = JStr (js "update") \/ action = JStr (js "delete") ->
        ToString (or_else (get_opt data (js "id")) (JStr (js "")))
        = Ok questionId ->
        questionId <> [] ->
        questions_by_id db questionId = found existing ->
        foreign_program db admin (Question.program_id existing) ->
        serve now serviceKey req db
        = (forbidden,
           [asked (admins_select_single admin_id);
            asked (questions_select_single questionId);
            asked (programs_select_single (Question.program_id existing))])).
Proof.
  split; [reflexivity|]. split.
  - intros programId Hact Hstr Hne Hforeign.
    unfold serve. rewrite not_preflight.
    rewrite serve_try_switch by (destruct Hact as [-> | ->]; reflexivity).
    assert (E : forall k : jsstring -> Handler Response,
              and_then (string_field data "program_id" "") k db
                [asked (admins_select_single admin_id)]
              = k programId db [asked (admins_select_single admin_id)]).
    { intros k. unfold string_field, and_then, lift. now rewrite Hstr. }
    destruct programId as [|c programId]; [congruence|].
    destruct Hact as [-> | ->];
      [rewrite switch_list | rewrite switch_create];
      unfold action_list, action_create; rewrite E;
      cbv [is_empty return_if]; cbv [and_then ret respond];
      rewrite (verifyProgramAccess_foreign _ _ Hforeign); reflexivity.
  - intros questionId existing Hact Hstr Hne Hq Hforeign.
    unfold serve. rewrite not_preflight.
    rewrite serve_try_switch by (destruct Hact as [-> | ->]; reflexivity).
    assert (E : forall k : jsstring -> Handler Response,
              and_then (string_field data "id" "") k db
                [asked (admins_select_single admin_id)]
              = k questionId db [asked (admins_select_single admin_id)]).
    { intros k. unfold string_field, and_then, lift. now rewrite Hstr. }
    destruct questionId as [|c questionId]; [congruence|].
    destruct Hact as [-> | ->];
      [rewrite switch_update | rewrite switch_delete];
      unfold action_update, action_delete; rewrite E;
      cbv [is_empty return_if existing_question];
      cbv [and_then ret respond ask]; rewrite Hq;
      cbn [found Postgrest.data Postgrest.error app];
      rewrite (verifyProgramAccess_foreign _ _ Hforeign); reflexivity.
Qed.

End ActiveAdmin.

(** The theorem on the admin of division [D1] asking to list the questions
    of, and to delete a question of, the program [p2] of division [D2]. *)
Lemma C7_foreign_division_is_forbidden_witness :
  serve 1000 secret (request credential_2000 "list" "program_id" "p2") store
  = (forbidden, [asked (admins_select_single (JStr (js "a1")));
                 asked (programs_select_single (js "p2"))])
  /\ serve 1000 secret (request credential_2000 "delete" "id" "q2") store
     = (forbidden, [asked (admins_select_single (JStr (js "a1")));
                    asked (questions_select_single (js "q2"));
                    asked (programs_select_single (js "p2"))]).
Proof.
  split.
  - apply (proj1 (proj2 (C7_foreign_division_is_forbidden 1000 secret
             (request credential_2000 "list" "program_id" "p2") store
             credential_2000 (identity "D1" (JNum (of_int 2000)))
             (JStr (js "a1"))
             {| Admin.id := js "a1"; Admin.is_active := Some true;
                Admin.division_id := Some (js "D1") |}
             (JObj [(js "action", JStr (js "list"));
                    (js "data", JObj [(js "program_id", JStr (js "p2"))])])
             (JStr (js "list")) (JObj [(js "program_id", JStr (js "p2"))])
             eq_refl eq_refl eq_refl eq_refl eq_refl eq_refl eq_refl
             eq_refl eq_refl eq_refl)) (js "p2")).
    + left; reflexivity.
    + reflexivity.
    + discriminate.
    + exists {| Program.division_id := Some (js "D2") |}. split; reflexivity.
  - apply (proj2 (proj2 (C7_foreign_division_is_forbidden 1000 secret
             (request credential_2000 "delete" "id" "q2") store
             credential_2000 (identity "D1" (JNum (of_int 2000)))
             (JStr (js "a1"))
             {| Admin.id := js "a1"; Admin.is_active := Some true;
                Admin.division_id := Some (js "D1") |}
             (JObj [(js "action", JStr (js "delete"));
                    (js "data", JObj [(js "id", JStr (js "q2"))])])
             (JStr (js "delete")) (JObj [(js "id", JStr (js "q2"))])
             eq_refl eq_refl eq_refl eq_refl eq_refl eq_refl eq_refl
             eq_refl eq_refl eq_refl)) (js "q2")
             {| Question.id := js "q2"; Question.program_id := js "p2" |}).
    + right; reflexivity.
    + reflexivity.
    + discriminate.
    + reflexivity.
    + exists {| Program.division_id := Some (js "D2") |}. split; reflexivity.
Defined.

(** C9: two accepted credentials whose payloads carry the same [admin_id]
    get the same answer and cause the same queries on every request and
    every store, whatever else the payloads hold: the [division_id] of the
    payload is never read, the division compared with the program's is the
    one of the admin record fetched by [admin_id]. *)
Theorem C9_token_division_is_not_read
  (now : Z) (serviceKey : jsstring) (req : Request) (db : DataService)
  (token1 token2 : jsstring) (payload1 payload2 : JsValue) :
  verifyAdminToken now token1 serviceKey = accepted payload1 ->
  verifyAdminToken now token2 serviceKey = accepted payload2 ->
  ToBoolean payload1 = true ->
  ToBoolean payload2 = true ->
  get payload1 (js "admin_id") = get payload2 (js "admin_id") ->
  serve now serviceKey (with_token req token1) db
  = serve now serviceKey (with_token req token2) db.
Proof.
  intros H1 H2 T1 T2 Hid. unfold serve. cbn [with_token method].
  destruct (str_eqb (method req) (js "OPTIONS")); [reflexivity|].
  rewrite (serve_try_accepted now serviceKey (with_token req token1) db
             token1 payload1 eq_refl H1 T1).
  rewrite (serve_try_accepted now serviceKey (with_token req token2) db
             token2 payload2 eq_refl H2 T2).
  rewrite Hid. reflexivity.
Qed.

(** The theorem on two credentials of the admin [a1], one claiming
    division [D1] and one claiming [D2]. *)
Lemma C9_token_division_is_not_read_witness :
  serve 1000 secret (request credential_2000 "list" "program_id" "p2") store
  = serve 1000 secret (request credential_D2 "list" "program_id" "p2") store.
Proof.
  apply (C9_token_division_is_not_read 1000 secret
           (request credential_2000 "list" "program_id" "p2") store
           credential_2000 credential_D2
           (identity "D1" (JNum (of_int 2000)))
           (identity "D2" (JNum (of_int 2000)))
           eq_refl eq_refl eq_refl eq_refl eq_refl).
Defined.

(* ===================================================================== *)
(** * Properties of the agent form                                        *)
(* ===================================================================== *)











(** The one state is a defect for the single form. When the dialog edits
    an agent, the unit is selected in the single form before the list of
    units is loaded; when the list arrives both effects run, the bulk one
    last, and the single form offers no ward although its unit has three:
    the effect that the source comments as updating the ward options "for
    single form" has been overwritten. *)
Lemma wardOptions_overwritten_when_panchayaths_load :
  singleFormWardEffect (single_u1 "3") = Ok [js "1"; js "2"; js "3"]
  /\ bulkFormWardEffect (single_u1 "3") = Ok []
  /\ commitWardEffects only_panchayaths_changed (single_u1 "3") [] = Ok [].
Proof. vm_compute. repeat split; reflexivity. Qed.

(** C10: the records sent to the agents table are, for [onSubmitSingle]
    (update or insert), the one record of the form with its role, and for
    [onSubmitBulk] one record for each agent of the form, in order, with
    the role of the form; in each the customer count is the count entered
    when the role is [pro] and 0 otherwise. So in every record sent the
    customer count is 0 when the role is not [pro], whatever count the
    form held; and whatever the store answers, each handler sends that
    mutation to the store, right after it has set the submitting flag. *)
Theorem C10_customer_count_only_for_pro :
  (forall agent values,
     records (onSubmitSingle agent values)
     = [(SingleAgentFormValues.role values,
         if role_eqb (SingleAgentFormValues.role values) pro
         then SingleAgentFormValues.customer_count values else 0)])
  /\ (forall values,
        records (onSubmitBulk values)
        = map (fun agent =>
                 (BulkAgentFormValues.role values,
                  if role_eqb (BulkAgentFormValues.role values) pro
                  then BulkAgent.customer_count agent else 0))
              (BulkAgentFormValues.agents values))
  /\ (forall agent values,
        Forall (fun record => fst record <> pro -> snd record = 0)
               (records (onSubmitSingle agent values)))
  /\ (forall values,
        Forall (fun record => fst record <> pro -> snd record = 0)
               (records (onSubmitBulk values)))
  /\ (forall agent values store,
        nth_error (effects (Submit.onSubmitSingle agent values) store) 1
        = Some (Submit.sent (onSubmitSingle agent values)))
  /\ (forall values store,
        nth_error (effects (Submit.onSubmitBulk values) store) 1
        = Some (Submit.sent (onSubmitBulk values))).
Proof.
  assert (S1 : forall agent values,
     records (onSubmitSingle agent values)
     = [(SingleAgentFormValues.role values,
         if role_eqb (SingleAgentFormValues.role values) pro
         then SingleAgentFormValues.customer_count values else 0)]).
  { intros agent values. unfold onSubmitSingle, clear_count, clear_parent.
    destruct values as [n m r pid w parent count].
    destruct agent as [agent|]; destruct r; reflexivity. }
  assert (S2 : forall values,
        records (onSubmitBulk values)
        = map (fun agent =>
                 (BulkAgentFormValues.role values,
                  if role_eqb (BulkAgentFormValues.role values) pro
                  then BulkAgent.customer_count agent else 0))
              (BulkAgentFormValues.agents values)).
  { intros values. unfold onSubmitBulk. cbn [records]. rewrite map_map.
    reflexivity. }
  split; [exact S1|]. split; [exact S2|]. split; [|split; [|split]].
  - intros agent values. rewrite S1. constructor; [|constructor]. cbn.
    destruct (SingleAgentFormValues.role values); cbn; congruence.
  - intros values. rewrite S2. apply Forall_forall. intros record Hin.
    apply in_map_iff in Hin as (a & <- & _). cbn.
    destruct (BulkAgentFormValues.role values); cbn; congruence.
  - intros agent values store. unfold effects, Submit.onSubmitSingle.
    cbv [Submit.then_ Submit.emit Submit.try_catch_finally Submit.send
         Submit.throw Submit.return_ app fst snd].
    destruct agent as [agent|];
      destruct (store (onSubmitSingle _ values)) as [e|];
      try destruct (Submit.is_duplicate e); reflexivity.
  - intros values store. unfold effects, Submit.onSubmitBulk.
    cbv [Submit.then_ Submit.emit Submit.try_catch_finally Submit.send
         Submit.throw Submit.return_ app fst snd].
    destruct (store (onSubmitBulk values)) as [e|];
      try destruct (Submit.is_duplicate e); reflexivity.
Qed.

(** The theorem on a bulk submission of a coordinator with a count of 7. *)
Lemma C10_customer_count_only_for_pro_witness :
  records (onSubmitBulk
             {| BulkAgentFormValues.panchayath_id := js "u1";
                BulkAgentFormValues.role := coordinator;
                BulkAgentFormValues.parent_agent_id := Null;
                BulkAgentFormValues.agents :=
                  [{| BulkAgent.name := js "Asha"; BulkAgent.mobile := js "9000000001";
                      BulkAgent.ward := js "2"; BulkAgent.customer_count := 7 |}] |})
  = [(coordinator, 0)].
Proof.
  rewrite (proj1 (proj2 C10_customer_count_only_for_pro)). reflexivity.
Defined.

(* ===================================================================== *)
(** * Every run of the handler                                            *)
(* ===================================================================== *)

(** ** The rules of [satisfies] *)

Section Satisfies.

Variable db : DataService.
Variable Q : Event -> Prop.
Variable S : Response -> Prop.

Lemma sat_ret {A} (R : A -> Prop) (a : A) : R a -> satisfies db Q R S (ret a).
Proof. intros H log. exists []. cbn. rewrite app_nil_r. auto. Qed.

Lemma sat_respond {A} (R : A -> Prop) (r : Response) :
  S r -> satisfies db Q R S (respond r).
Proof. intros H log. exists []. cbn. rewrite app_nil_r. auto. Qed.

Lemma sat_lift {A} (R : A -> Prop) (r : Result A) :
  (forall a, r = Ok a -> R a) -> satisfies db Q R S (lift r).
Proof.
  intros H log. exists []. unfold lift. rewrite app_nil_r.
  destruct r; cbn; auto.
Qed.

Lemma sat_ask {A} (R : A -> Prop) (q : Query) (answer : DataService -> A) :
  Q (asked q) -> R (answer db) -> satisfies db Q R S (ask q answer).
Proof. intros Hq Hr log. exists [asked q]. cbn. auto. Qed.

Lemma sat_return_if (R : unit -> Prop) (c : bool) (r : Response) :
  (c = true -> S r) -> (c = false -> R tt) ->
  satisfies db Q R S (return_if c r).
Proof.
  intros Ht Hf. unfold return_if. destruct c;
    [apply sat_respond | apply sat_ret]; auto.
Qed.

Lemma sat_bind {A B} (R : A -> Prop) (R' : B -> Prop)
  (m : Handler A) (k : A -> Handler B) :
  satisfies db Q R S m ->
  (forall a, R a -> satisfies db Q R' S (k a)) ->
  satisfies db Q R' S (and_then m k).
Proof.
  intros Hm Hk log. unfold and_then.
  destruct (Hm log) as (ext & E & F & P).
  destruct (m db log) as [[a|r|e] log']; cbn in E, P; subst log'.
  - destruct (Hk a P (log ++ ext)) as (ext' & E' & F' & P').
    exists (ext ++ ext'). rewrite app_assoc. repeat split; auto.
    apply Forall_app; auto.
  - exists ext. cbn. auto.
  - exists ext. cbn. auto.
Qed.

End Satisfies.

(** ** [trim] leaves nothing to trim *)

Lemma trim_start_idem (s : jsstring) : trim_start (trim_start s) = trim_start s.
Proof.
  induction s as [|c s IH]; [reflexivity|]. cbn.
  destruct (is_js_whitespace c) eqn:E; [exact IH|]. cbn. now rewrite E.
Qed.

Lemma trim_start_app_last (l : jsstring) (c : Z) :
  is_js_whitespace c = false -> trim_start (l ++ [c]) = trim_start l ++ [c].
Proof.
  intros Hc. induction l as [|x l IH]; cbn; [now rewrite Hc|].
  destruct (is_js_whitespace x); [exact IH | reflexivity].
Qed.

Lemma trim_start_head (s : jsstring) :
  trim_start s = []
  \/ exists c r, trim_start s = c :: r /\ is_js_whitespace c = false.
Proof.
  induction s as [|c s IH]; [now left|]. cbn.
  destruct (is_js_whitespace c) eqn:E; [exact IH|]. right. eauto.
Qed.

Lemma trim_idem (s : jsstring) : trim (trim s) = trim s.
Proof.
  unfold trim.
  assert (E : trim_start (rev (trim_start (rev (trim_start s))))
              = rev (trim_start (rev (trim_start s)))).
  { destruct (trim_start_head s) as [-> | (c & r & -> & Hc)]; [reflexivity|].
    cbn [rev]. rewrite trim_start_app_last by exact Hc.
    rewrite rev_app_distr. cbn. now rewrite Hc. }
  rewrite E, rev_involutive, trim_start_idem. reflexivity.
Qed.

(** ** The steps of the four actions *)

Lemma same_division_eq (a b : option jsstring) :
  same_division a b = true <-> a = b.
Proof.
  destruct a as [x|], b as [y|]; cbn; try (split; congruence).
  rewrite str_eqb_eq. split; congruence.
Qed.

Lemma found_reply {A} (reply : Postgrest.Reply A) (a : A) :
  Postgrest.data reply = Some a -> Postgrest.error reply = None ->
  reply = found a.
Proof. destruct reply as [d e]. cbn. now intros -> ->. Qed.

(** [verifyProgramAccess] asks for the program and answers [true] exactly
    when access is granted. *)
Lemma verifyProgramAccess_decides (divisionId : option jsstring)
  (programId : jsstring) (db : DataService) (log : list Event) :
  exists allowed,
    verifyProgramAccess divisionId programId db log
    = (Next allowed, log ++ [asked (programs_select_single programId)])
    /\ (allowed = true <-> granted db divisionId programId).
Proof.
  unfold verifyProgramAccess, granted. cbv [and_then ask].
  destruct (programs_by_id db programId) as [[program|] [e|]];
    cbn [Postgrest.data Postgrest.error ret];
    eexists; (split; [reflexivity|]);
    try (split; [discriminate | intros (p & [=] & _)]).
  rewrite same_division_eq. split.
  - intros <-. now exists program.
  - intros (p & [= <-] & H). exact H.
Qed.

Lemma is_empty_false (s : jsstring) : is_empty s = false -> s <> [].
Proof. destruct s; discriminate. Qed.

Lemma negb_false (b : bool) : negb b = false -> b = true.
Proof. now destruct b. Qed.

Section Guarded.

Variable db : DataService.
Variable divisionId : option jsstring.
Variable data : JsValue.

Let Q := guarded db divisionId data.

Lemma sat_string_field (k fallback : string) :
  satisfies db Q
    (fun s => ToString (or_else (get_opt data (js k)) (JStr (js fallback))) = Ok s)
    answered (string_field data k fallback).
Proof. apply sat_lift. auto. Qed.

Lemma sat_verifyProgramAccess (programId : jsstring) :
  satisfies db Q (fun allowed => allowed = true -> granted db divisionId programId)
            answered (verifyProgramAccess divisionId programId).
Proof.
  intros log.
  destruct (verifyProgramAccess_decides divisionId programId db log)
    as (allowed & E & H).
  exists [asked (programs_select_single programId)]. rewrite E. cbn.
  repeat split; [repeat constructor | apply H].
Qed.

Lemma sat_existing_question (questionId : jsstring) :
  satisfies db Q
    (fun existing => questions_by_id db questionId = found existing)
    answered (existing_question questionId).
Proof.
  unfold existing_question.
  apply sat_bind with (R := fun reply => reply = questions_by_id db questionId).
  - apply sat_ask; [exact I | reflexivity].
  - intros reply ->.
    destruct (Postgrest.error (questions_by_id db questionId)) eqn:He,
      (Postgrest.data (questions_by_id db questionId)) eqn:Hd;
      try (apply sat_respond; cbn; auto).
    apply sat_ret. now apply found_reply.
Qed.

Lemma sat_finish {A} (reply : Postgrest.Reply A) (ok : Body) :
  satisfies db Q (fun _ => False) answered (finish reply ok).
Proof.
  unfold finish. destruct (Postgrest.error reply);
    apply sat_respond; cbn; auto.
Qed.

Lemma sat_optional_field {A} (k : string) (convert : JsValue -> Result A) :
  satisfies db Q
    (fun x => (x = None <-> ~ supplied data k)
              /\ forall a, x = Some a -> exists v, convert v = Ok a)
    answered (optional_field data k convert).
Proof.
  unfold optional_field, supplied.
  destruct (get_opt data (js k)) eqn:E;
    try (apply sat_bind with (R := fun a => exists v, convert v = Ok a);
         [ apply sat_lift; eauto
         | intros a Ha; apply sat_ret; split;
           [ split; [discriminate | intros H; exfalso; apply H; discriminate]
           | intros ? [= <-]; exact Ha ] ]).
  apply sat_ret. split; [|discriminate].
  split; auto.
Qed.

Lemma sat_action_list :
  satisfies db Q (fun _ => False) answered (action_list divisionId data).
Proof.
  unfold action_list.
  eapply sat_bind; [apply sat_string_field|]. intros programId _.
  eapply sat_bind with (R := fun _ => programId <> []).
  { apply sat_return_if; [cbn; auto | intros; now apply is_empty_false]. }
  intros _ Hp.
  eapply sat_bind; [apply sat_verifyProgramAccess|]. intros allowed Ha.
  eapply sat_bind with (R := fun _ => granted db divisionId programId).
  { apply sat_return_if; [cbn; auto | intros E; apply Ha, negb_false, E]. }
  intros _ Hg.
  eapply sat_bind with (R := fun _ => True).
  { apply sat_ask; [split; assumption | exact I]. }
  intros reply _. apply sat_finish.
Qed.

Lemma sat_action_create :
  satisfies db Q (fun _ => False) answered (action_create divisionId data).
Proof.
  unfold action_create.
  eapply sat_bind; [apply sat_string_field|]. intros programId _.
  eapply sat_bind with (R := fun _ => programId <> []).
  { apply sat_return_if; [cbn; auto | intros; now apply is_empty_false]. }
  intros _ Hp.
  eapply sat_bind; [apply sat_verifyProgramAccess|]. intros allowed Ha.
  eapply sat_bind with (R := fun _ => granted db divisionId programId).
  { apply sat_return_if; [cbn; auto | intros E; apply Ha, negb_false, E]. }
  intros _ Hg.
  eapply sat_bind; [apply sat_string_field|]. intros question_text _.
  eapply sat_bind; [apply sat_string_field|]. intros question_type Hy.
  eapply sat_bind with
    (R := fun n => ToNumber (nullish_else (get_opt data (js "sort_order"))
                                          (JNum (of_int 0))) = Ok n);
    [apply sat_lift; auto|].
  intros sort_order Hn. cbv zeta. cbn [InsertPayload.question_text].
  eapply sat_bind with (R := fun _ => trim question_text <> []).
  { apply sat_return_if; [cbn; auto | intros; now apply is_empty_false]. }
  intros _ Ht.
  eapply sat_bind with (R := fun _ => True).
  { apply sat_ask; [|exact I]. unfold Q, guarded.
    cbn [InsertPayload.program_id InsertPayload.question_text
         InsertPayload.question_type InsertPayload.is_required
         InsertPayload.options InsertPayload.sort_order].
    split; [exact Hp|]. split; [exact Hg|]. split; [exact Ht|].
    split; [apply trim_idem|]. split; [|split; [|split]].
    - intros F. unfold or_else in Hy. rewrite F in Hy.
      change (Ok (js "text") = Ok question_type) in Hy. congruence.
    - unfold or_else.
      now destruct (ToBoolean (get_opt data (js "is_required"))) eqn:F.
    - intros F. unfold supplied in F.
      destruct (get_opt data (js "options")); try reflexivity;
        exfalso; apply F; discriminate.
    - intros F. unfold supplied in F.
      destruct (get_opt data (js "sort_order")); cbn in Hn; try congruence;
        exfalso; apply F; discriminate. }
  intros reply _. apply sat_finish.
Qed.

Lemma sat_action_update :
  satisfies db Q (fun _ => False) answered (action_update divisionId data).
Proof.
  unfold action_update.
  eapply sat_bind; [apply sat_string_field|]. intros questionId _.
  eapply sat_bind with (R := fun _ => questionId <> []).
  { apply sat_return_if; [cbn; auto | intros; now apply is_empty_false]. }
  intros _ Hq.
  eapply sat_bind; [apply sat_existing_question|]. intros existing Hd.
  eapply sat_bind; [apply sat_verifyProgramAccess|]. intros allowed Ha.
  eapply sat_bind with
    (R := fun _ => granted db divisionId (Question.program_id existing)).
  { apply sat_return_if; [cbn; auto | intros E; apply Ha, negb_false, E]. }
  intros _ Hg.
  eapply sat_bind; [apply sat_optional_field|]. intros question_text [T1 T2].
  eapply sat_bind; [apply sat_optional_field|]. intros question_type [Y1 _].
  eapply sat_bind; [apply sat_optional_field|]. intros is_required [R1 _].
  eapply sat_bind; [apply sat_optional_field|]. intros options [O1 _].
  eapply sat_bind; [apply sat_optional_field|]. intros sort_order [N1 _].
  cbv zeta.
  eapply sat_bind with (R := fun _ => True).
  { apply sat_ask; [|exact I]. cbn. repeat split; try tauto.
    - exists existing. auto.
    - intros t Ht. destruct (T2 t Ht) as (v & Hv).
      destruct (ToString v); [|discriminate].
      cbn in Hv. injection Hv as <-. apply trim_idem. }
  intros reply _. apply sat_finish.
Qed.

Lemma sat_action_delete :
  satisfies db Q (fun _ => False) answered (action_delete divisionId data).
Proof.
  unfold action_delete.
  eapply sat_bind; [apply sat_string_field|]. intros questionId _.
  eapply sat_bind with (R := fun _ => questionId <> []).
  { apply sat_return_if; [cbn; auto | intros; now apply is_empty_false]. }
  intros _ Hq.
  eapply sat_bind; [apply sat_existing_question|]. intros existing Hd.
  eapply sat_bind; [apply sat_verifyProgramAccess|]. intros allowed Ha.
  eapply sat_bind with
    (R := fun _ => granted db divisionId (Question.program_id existing)).
  { apply sat_return_if; [cbn; auto | intros E; apply Ha, negb_false, E]. }
  intros _ Hg.
  eapply sat_bind with (R := fun _ => True).
  { apply sat_ask; [|exact I]. cbn. split; auto. exists existing. auto. }
  intros failure _. destruct failure; apply sat_respond; cbn; auto.
Qed.

Lemma sat_switch_action (action : JsValue) :
  satisfies db Q (fun _ => False) answered (switch_action divisionId action data).
Proof.
  unfold switch_action.
  destruct (is_action action "list"); [apply sat_action_list|].
  destruct (is_action action "create"); [apply sat_action_create|].
  destruct (is_action action "update"); [apply sat_action_update|].
  destruct (is_action action "delete"); [apply sat_action_delete|].
  apply sat_respond. cbn. auto.
Qed.

End Guarded.

Lemma sat_handle_request (db : DataService) (admin : Admin.row) (req : Request) :
  satisfies db (guarded db (Admin.division_id admin) (request_data req))
            (fun _ => False) answered (handle_request admin req).
Proof.
  unfold handle_request.
  eapply sat_bind with (R := fun content => json req = Ok content);
    [apply sat_lift; auto|]. intros content Hb.
  eapply sat_bind with (R := fun _ => True); [apply sat_lift; auto|].
  intros action _.
  eapply sat_bind with (R := fun data => data = request_data req).
  { apply sat_lift. intros data Hd. unfold request_data. now rewrite Hb, Hd. }
  intros data ->.
  eapply sat_bind with (R := fun _ => True).
  { apply sat_return_if; [cbn; auto | auto]. }
  intros _ _. apply sat_switch_action.
Qed.

(** ** From the credential to the request *)

Lemma verifyAdminToken_outcome (now : Z) (token serviceKey : jsstring) :
  (exists payload, verifyAdminToken now token serviceKey = accepted payload)
  \/ verifyAdminToken now token serviceKey = silent
  \/ verifyAdminToken now token serviceKey = token_expired
  \/ verifyAdminToken now token serviceKey = invalid_signature
  \/ exists e, verifyAdminToken now token serviceKey = verification_error e.
Proof.
  destruct (verifyAdminToken_split now token serviceKey)
    as [H | (p & s & _ & _ & _ & _ & ->)]; [auto|].
  destruct (verify_parts_outcome now serviceKey p s)
    as [(t & payload & _ & _ & _ & _ & H) | [H | [H | (e & _ & H)]]];
    rewrite H; eauto 6.
Qed.

(** A property of a truthy value can be read. *)
Lemma truthy_get (v : JsValue) (k : jsstring) :
  ToBoolean v = true -> exists x, get v k = Ok x.
Proof.
  destruct v; cbn; try discriminate; eauto. destruct (lookup k props); eauto.
Qed.

(** How the [try] block starts: it answers 401 having asked nothing, or it
    goes on with the admin of an accepted credential. *)
Lemma serve_try_start (now : Z) (serviceKey : jsstring) (req : Request)
  (db : DataService) :
  (exists msg lines,
      serve_try now serviceKey req db []
      = (Return (json_error msg 401), map wrote lines)
      /\ Forall verifier_line lines)
  \/ exists token payload admin_id,
      x_admin_token req = Some token
      /\ verifyAdminToken now token serviceKey = accepted payload
      /\ ToBoolean payload = true
      /\ get payload (js "admin_id") = Ok admin_id
      /\ serve_try now serviceKey req db []
         = with_active_admin admin_id req db [].
Proof.
  destruct (x_admin_token req) as [token|] eqn:Ht.
  2:{ left. exists "Admin token required"%string, []. unfold serve_try.
      rewrite Ht. split; [reflexivity | constructor]. }
  destruct token as [|c token].
  { left. exists "Admin token required"%string, []. unfold serve_try.
    rewrite Ht. split; [reflexivity | constructor]. }
  assert (R : forall lines,
             verifyAdminToken now (c :: token) serviceKey = Fulfilled (lines, JNull) ->
             serve_try now serviceKey req db []
             = (Return (json_error "Invalid or expired token" 401), map wrote lines)).
  { intros lines H. unfold serve_try. rewrite Ht. cbn [absent]. rewrite H.
    reflexivity. }
  destruct (verifyAdminToken_outcome now (c :: token) serviceKey)
    as [(payload & H) | [H | [H | [H | (e & H)]]]].
  - destruct (ToBoolean payload) eqn:Hp.
    + right. destruct (truthy_get payload (js "admin_id") Hp) as (admin_id & Ha).
      exists (c :: token), payload, admin_id. repeat split; auto.
      rewrite (serve_try_accepted _ _ _ _ _ _ Ht H Hp).
      unfold and_then, lift. now rewrite Ha.
    + left. exists "Invalid or expired token"%string, []. split; [|constructor].
      unfold serve_try. rewrite Ht. cbn [absent]. rewrite H. unfold accepted.
      cbv [return_if and_then ret await write fst snd map app respond].
      now rewrite Hp.
  - left. eexists _, _. split; [apply R; exact H|]. constructor.
  - left. eexists _, _. split; [apply R; exact H|]. repeat constructor.
  - left. eexists _, _. split; [apply R; exact H|]. repeat constructor.
  - left. eexists _, _. split; [apply R; exact H|]. repeat constructor.
Qed.

(** After the admin query: 401, or the request of the admin found active. *)
Lemma with_active_admin_cases (admin_id : JsValue) (req : Request)
  (db : DataService) :
  with_active_admin admin_id req db []
  = (Return (json_error "Admin account not found or inactive" 401),
     [asked (admins_select_single admin_id)])
  \/ exists admin,
      admins_by_id db admin_id = found admin
      /\ Admin.is_active admin = Some true
      /\ with_active_admin admin_id req db []
         = handle_request admin req db [asked (admins_select_single admin_id)].
Proof.
  unfold with_active_admin. cbv [and_then ask app].
  destruct (admins_by_id db admin_id) as [[admin|] [e|]] eqn:E;
    cbn [Postgrest.data Postgrest.error is_some orb]; try (left; reflexivity).
  unfold inactive.
  destruct (Admin.is_active admin) as [[|]|] eqn:Ha; try (left; reflexivity).
  right. exists admin. repeat split; auto.
Qed.

(** Every run of the [try] block. *)
Lemma serve_try_run (now : Z) (serviceKey : jsstring) (req : Request)
  (db : DataService) :
  (exists msg lines,
      serve_try now serviceKey req db []
      = (Return (json_error msg 401), map wrote lines)
      /\ Forall verifier_line lines)
  \/ exists token payload admin_id,
      x_admin_token req = Some token
      /\ verifyAdminToken now token serviceKey = accepted payload
      /\ ToBoolean payload = true
      /\ get payload (js "admin_id") = Ok admin_id
      /\ (serve_try now serviceKey req db []
          = (Return (json_error "Admin account not found or inactive" 401),
             [asked (admins_select_single admin_id)])
          \/ exists admin ext,
              admins_by_id db admin_id = found admin
              /\ Admin.is_active admin = Some true
              /\ snd (serve_try now serviceKey req db [])
                 = asked (admins_select_single admin_id) :: ext
              /\ Forall (guarded db (Admin.division_id admin) (request_data req))
                        ext
              /\ match fst (serve_try now serviceKey req db []) with
                 | Next _ => False
                 | Return r => answered r
                 | Raise _ => True
                 end).
Proof.
  destruct (serve_try_start now serviceKey req db)
    as [H | (token & payload & admin_id & Ht & Hv & Hp & Ha & ->)]; [now left|].
  right. exists token, payload, admin_id. do 4 (split; [assumption|]).
  destruct (with_active_admin_cases admin_id req db)
    as [-> | (admin & Hf & Hact & ->)]; [now left|].
  right.
  destruct (sat_handle_request db admin req [asked (admins_select_single admin_id)])
    as (ext & E & F & P).
  exists admin, ext. auto.
Qed.

(** Every effect of every run is a line written, the admin query of an
    accepted credential, or an effect of the request of an authenticated
    admin. *)
Lemma serve_guarded (now : Z) (serviceKey : jsstring) (req : Request)
  (db : DataService) (ev : Event) :
  In ev (snd (serve now serviceKey req db)) ->
  (exists line, ev = wrote line)
  \/ (exists token payload admin_id,
        x_admin_token req = Some token
        /\ verifyAdminToken now token serviceKey = accepted payload
        /\ ToBoolean payload = true
        /\ get payload (js "admin_id") = Ok admin_id
        /\ ev = asked (admins_select_single admin_id))
  \/ exists token payload admin_id admin,
        x_admin_token req = Some token
        /\ verifyAdminToken now token serviceKey = accepted payload
        /\ ToBoolean payload = true
        /\ get payload (js "admin_id") = Ok admin_id
        /\ admins_by_id db admin_id = found admin
        /\ Admin.is_active admin = Some true
        /\ guarded db (Admin.division_id admin) (request_data req) ev.
Proof.
  unfold serve. destruct (str_eqb (method req) (js "OPTIONS")); [intros []|].
  assert (W : forall lines, In ev (map wrote lines) -> exists line, ev = wrote line).
  { intros lines H. apply in_map_iff in H as (line & <- & _). eauto. }
  destruct (serve_try_run now serviceKey req db)
    as [(msg & lines & -> & _)
       | (token & payload & admin_id & Ht & Hv & Hp & Ha &
          [-> | (admin & ext & Hf & Hact & E & F & _)])].
  - intros H. left. exact (W _ H).
  - intros [<- | []]. right. left. exists token, payload, admin_id. auto.
  - destruct (serve_try now serviceKey req db []) as [[r|r|e] log];
      cbn [snd] in E; subst log; cbn [snd].
    all: intros H;
      try (apply in_app_or in H as [H | [<- | []]]; [|left; eauto]);
      (destruct H as [<- | H];
       [ right; left; exists token, payload, admin_id; auto
       | right; right; exists token, payload, admin_id, admin;
         do 6 (split; [assumption|]);
         rewrite Forall_forall in F; apply F, H ]).
Qed.

Lemma serve_question_query (now : Z) (serviceKey : jsstring) (req : Request)
  (db : DataService) (q : Query) :
  In (asked q) (snd (serve now serviceKey req db)) ->
  (forall admin_id, q <> admins_select_single admin_id) ->
  exists admin, guarded db (Admin.division_id admin) (request_data req) (asked q).
Proof.
  intros H Hq.
  destruct (serve_guarded _ _ _ _ _ H)
    as [(line & [=])
       | [(t & p & a & _ & _ & _ & _ & [= ->])
         | (t & p & a & admin & _ & _ & _ & _ & _ & _ & G)]].
  - now destruct (Hq a).
  - now exists admin.
Qed.

(** X1: a request that is not the pre-flight and has no [x-admin-token]
    header, or an empty one, is answered 401 "Admin token required" with
    no effect at all; and when the verifier returns a falsy value for the
    token the answer is 401 "Invalid or expired token" and the only effects
    are the lines the verifier printed. In both cases the store is not
    asked anything. *)
Theorem unauthenticated_is_refused (now : Z) (serviceKey : jsstring)
  (req : Request) (db : DataService) :
  str_eqb (method req) (js "OPTIONS") = false ->
  (absent (x_admin_token req) = true ->
     serve now serviceKey req db = (json_error "Admin token required" 401, []))
  /\ (forall token v,
        x_admin_token req = Some token -> token <> [] ->
        returned (verifyAdminToken now token serviceKey) = Some v ->
        ToBoolean v = false ->
        serve now serviceKey req db
        = (json_error "Invalid or expired token" 401,
           map wrote (printed (verifyAdminToken now token serviceKey)))).
Proof.
  intros Hm. split.
  - intros Ha. unfold serve, serve_try. rewrite Hm, Ha. reflexivity.
  - intros token v Ht Hne Hv Hb. unfold serve, serve_try. rewrite Hm, Ht.
    destruct token as [|c token]; [congruence|]. cbn [absent].
    destruct (verifyAdminToken now (c :: token) serviceKey) as [[lines w]|e];
      [|discriminate].
    cbn in Hv. injection Hv as ->.
    cbv [return_if and_then ret await write fst snd respond printed app].
    now rewrite Hb.
Qed.

(** The theorem on a request without a token and on one with the expired
    credential. *)
Lemma unauthenticated_is_refused_witness :
  serve 1000 secret (request_of None (Ok JNull)) store
  = (json_error "Admin token required" 401, [])
  /\ serve 1000 secret (request_of (Some credential_999) (Ok JNull)) store
     = (json_error "Invalid or expired token" 401,
        [wrote (console_log "Token expired")]).
Proof.
  split.
  - apply (proj1 (unauthenticated_is_refused 1000 secret
                    (request_of None (Ok JNull)) store eq_refl) eq_refl).
  - apply (proj2 (unauthenticated_is_refused 1000 secret
                    (request_of (Some credential_999) (Ok JNull)) store eq_refl)
                 credential_999 JNull eq_refl ltac:(discriminate) eq_refl eq_refl).
Defined.

(** X2: with an accepted credential, when the admin query comes back with
    an error, without a row, or with a row that is not active, the answer
    is 401 "Admin account not found or inactive" and the admin query is
    the only effect: the body of the request is not read (the statement
    holds whatever [json req] is) and nothing else is asked. *)
Theorem inactive_admin_is_refused (now : Z) (serviceKey : jsstring)
  (req : Request) (db : DataService) (token : jsstring)
  (payload admin_id : JsValue) :
  str_eqb (method req) (js "OPTIONS") = false ->
  x_admin_token req = Some token ->
  verifyAdminToken now token serviceKey = accepted payload ->
  ToBoolean payload = true ->
  get payload (js "admin_id") = Ok admin_id ->
  (Postgrest.data (admins_by_id db admin_id) = None
   \/ Postgrest.error (admins_by_id db admin_id) <> None
   \/ exists admin, Postgrest.data (admins_by_id db admin_id) = Some admin
                    /\ Admin.is_active admin <> Some true) ->
  serve now serviceKey req db
  = (json_error "Admin account not found or inactive" 401,
     [asked (admins_select_single admin_id)]).
Proof.
  intros Hm Ht Hv Hp Ha Hbad. unfold serve. rewrite Hm.
  rewrite (serve_try_accepted _ _ _ _ _ _ Ht Hv Hp), Ha.
  unfold with_active_admin. cbv [and_then lift ask app].
  destruct (admins_by_id db admin_id) as [[admin|] [e|]];
    cbn [Postgrest.data Postgrest.error is_some orb return_if respond] in *;
    try reflexivity.
  unfold inactive.
  destruct Hbad as [H | [H | (a & [= <-] & H)]]; try congruence.
  destruct (Admin.is_active admin) as [[|]|]; try reflexivity. congruence.
Qed.

(** The theorem on the signed credential of the payload [{}]: its
    [admin_id] is [undefined], which the store does not know; the body of
    the request cannot even be parsed. *)
Lemma inactive_admin_is_refused_witness :
  serve 1000 secret (request_of (Some credential_empty_object) (Throw SyntaxError))
        store
  = (json_error "Admin account not found or inactive" 401,
     [asked (admins_select_single JUndefined)]).
Proof.
  apply (inactive_admin_is_refused 1000 secret
           (request_of (Some credential_empty_object) (Throw SyntaxError)) store
           credential_empty_object (JObj []) JUndefined
           eq_refl eq_refl eq_refl eq_refl eq_refl).
  left. reflexivity.
Defined.

(** X3: whatever the request and the store, every query the handler sends
    comes after an accepted credential with a truthy payload. The admin
    query is for the [admin_id] of that payload; any other query comes
    after that admin was found active, and a query that lists, inserts,
    updates or deletes questions comes only when the program concerned
    (for update and delete: the program of the stored question) is in the
    store with the division of that admin. *)
Theorem every_query_is_guarded (now : Z) (serviceKey : jsstring)
  (req : Request) (db : DataService) (q : Query) :
  In (asked q) (snd (serve now serviceKey req db)) ->
  exists token payload admin_id,
    x_admin_token req = Some token
    /\ verifyAdminToken now token serviceKey = accepted payload
    /\ ToBoolean payload = true
    /\ get payload (js "admin_id") = Ok admin_id
    /\ (q = admins_select_single admin_id
        \/ exists admin,
             admins_by_id db admin_id = found admin
             /\ Admin.is_active admin = Some true
             /\ match q with
                | admins_select_single _ => False
                | programs_select_single _ | questions_select_single _ => True
                | questions_select_ordered programId =>
                    granted db (Admin.division_id admin) programId
                | questions_insert row =>
                    granted db (Admin.division_id admin)
                            (InsertPayload.program_id row)
                | questions_update questionId _ | questions_delete questionId =>
                    granted_question db (Admin.division_id admin) questionId
                end).
Proof.
  intros H.
  destruct (serve_guarded _ _ _ _ _ H)
    as [(line & [=])
       | [(token & payload & admin_id & Ht & Hv & Hp & Ha & [= ->])
         | (token & payload & admin_id & admin & Ht & Hv & Hp & Ha & Hf & Hact
            & G)]];
    exists token, payload, admin_id; do 4 (split; [assumption|]);
    [now left|].
  right. exists admin. do 2 (split; [assumption|]).
  destruct q; cbn in G; tauto.
Qed.

(** The theorem on the listing of the questions of the program [p1] by the
    admin of its division. *)
Lemma every_query_is_guarded_witness :
  In (asked (questions_select_ordered (js "p1")))
     (snd (serve 1000 secret
             (request credential_2000 "list" "program_id" "p1") store))
  /\ granted store (Some (js "D1")) (js "p1").
Proof.
  assert (I : In (asked (questions_select_ordered (js "p1")))
                 (snd (serve 1000 secret
                         (request credential_2000 "list" "program_id" "p1")
                         store)))
    by (vm_compute; right; right; left; reflexivity).
  split; [exact I|].
  destruct (every_query_is_guarded 1000 secret
              (request credential_2000 "list" "program_id" "p1") store
              (questions_select_ordered (js "p1")) I)
    as (token & payload & admin_id & Ht & Hv & Hp & Ha
        & [H | (admin & Hf & _ & G)]); [discriminate H|].
  vm_compute in Ht. injection Ht as <-.
  vm_compute in Hv. injection Hv as <-.
  vm_compute in Ha. injection Ha as <-.
  vm_compute in Hf. injection Hf as <-. exact G.
Defined.

(** X4: [verifyProgramAccess] sends one query, for the program, and
    answers [true] when the program is in the store, without error, with
    the division of the admin (two absent divisions, [null === null],
    count as the same), and [false] in every other case. *)
Theorem program_access_decision (divisionId : option jsstring)
  (programId : jsstring) (db : DataService) (log : list Event) :
  (granted db divisionId programId ->
   verifyProgramAccess divisionId programId db log
   = (Next true, log ++ [asked (programs_select_single programId)]))
  /\ (~ granted db divisionId programId ->
      verifyProgramAccess divisionId programId db log
      = (Next false, log ++ [asked (programs_select_single programId)])).
Proof.
  destruct (verifyProgramAccess_decides divisionId programId db log)
    as ([|] & -> & H); split; intros G; try reflexivity.
  - now destruct G; apply H.
  - apply H in G. discriminate G.
Qed.

(** The theorem for the admin division [D1] on the programs [p1], of
    [D1], and [p2], of [D2]. *)
Lemma program_access_decision_witness :
  verifyProgramAccess (Some (js "D1")) (js "p1") store []
  = (Next true, [asked (programs_select_single (js "p1"))])
  /\ verifyProgramAccess (Some (js "D1")) (js "p2") store []
     = (Next false, [asked (programs_select_single (js "p2"))]).
Proof.
  split.
  - apply (proj1 (program_access_decision (Some (js "D1")) (js "p1") store [])).
    exists {| Program.division_id := Some (js "D1") |}. split; reflexivity.
  - apply (proj2 (program_access_decision (Some (js "D1")) (js "p2") store [])).
    intros (program & E & D). vm_compute in E. injection E as <-. discriminate D.
Defined.

(** X6: whatever the request and the store, a row the handler inserts has
    a non-empty program id and a non-empty question text with no white
    space left at either end; its type is "text" when the request gives no
    truthy [question_type], [is_required] is the truthiness of what the
    request gives, [options] is [null] and [sort_order] is 0 when the
    request does not give them. *)
Theorem inserted_rows_are_valid (now : Z) (serviceKey : jsstring)
  (req : Request) (db : DataService) (row : InsertPayload.t) :
  In (asked (questions_insert row)) (snd (serve now serviceKey req db)) ->
  InsertPayload.program_id row <> []
  /\ InsertPayload.question_text row <> []
  /\ trim (InsertPayload.question_text row) = InsertPayload.question_text row
  /\ (ToBoolean (get_opt (request_data req) (js "question_type")) = false ->
      InsertPayload.question_type row = js "text")
  /\ InsertPayload.is_required row
     = ToBoolean (get_opt (request_data req) (js "is_required"))
  /\ (~ supplied (request_data req) "options" -> InsertPayload.options row = JNull)
  /\ (~ supplied (request_data req) "sort_order" ->
      InsertPayload.sort_order row = of_int 0).
Proof.
  intros H.
  destruct (serve_question_query _ _ _ _ _ H) as (admin & G); [discriminate|].
  cbn in G. tauto.
Qed.

(** The theorem on the creation of a question whose text is given with
    white space around it. *)
Lemma inserted_rows_are_valid_witness :
  let req :=
    request_of (Some credential_2000)
      (Ok (body_of (JStr (js "create"))
             [(js "program_id", JStr (js "p1"));
              (js "question_text", JStr (js "  Your name? "))])) in
  let row :=
    {| InsertPayload.program_id := js "p1";
       InsertPayload.question_text := js "Your name?";
       InsertPayload.question_type := js "text";
       InsertPayload.is_required := false;
       InsertPayload.options := JNull;
       InsertPayload.sort_order := of_int 0 |} in
  In (asked (questions_insert row)) (snd (serve 1000 secret req store))
  /\ trim (InsertPayload.question_text row) = InsertPayload.question_text row.
Proof.
  intros req row.
  assert (I : In (asked (questions_insert row)) (snd (serve 1000 secret req store)))
    by (vm_compute; right; right; left; reflexivity).
  split; [exact I|].
  exact (proj1 (proj2 (proj2 (inserted_rows_are_valid 1000 secret req store row I)))).
Defined.

(** X7: whatever the request and the store, an update the handler sends
    is for a non-empty question id and sets exactly the fields the request
    gives (those that are not [undefined] in [data]), none when the
    request gives none; a question text it sets has no white space left at
    either end (it may be empty). *)
Theorem update_sets_supplied_fields_only (now : Z) (serviceKey : jsstring)
  (req : Request) (db : DataService) (questionId : jsstring)
  (fields : UpdatePayload.t) :
  In (asked (questions_update questionId fields))
     (snd (serve now serviceKey req db)) ->
  questionId <> []
  /\ (UpdatePayload.question_text fields = None
      <-> ~ supplied (request_data req) "question_text")
  /\ (UpdatePayload.question_type fields = None
      <-> ~ supplied (request_data req) "question_type")
  /\ (UpdatePayload.is_required fields = None
      <-> ~ supplied (request_data req) "is_required")
  /\ (UpdatePayload.options fields = None
      <-> ~ supplied (request_data req) "options")
  /\ (UpdatePayload.sort_order fields = None
      <-> ~ supplied (request_data req) "sort_order")
  /\ (forall t, UpdatePayload.question_text fields = Some t -> trim t = t).
Proof.
  intros H.
  destruct (serve_question_query _ _ _ _ _ H) as (admin & G); [discriminate|].
  cbn in G. tauto.
Qed.

(** The theorem on an update that gives a blank question text only: the
    update is sent, with the empty text. *)
Lemma update_sets_supplied_fields_only_witness :
  let req :=
    request_of (Some credential_2000)
      (Ok (body_of (JStr (js "update"))
             [(js "id", JStr (js "q1")); (js "question_text", JStr (js "  "))])) in
  let fields :=
    {| UpdatePayload.question_text := Some [];
       UpdatePayload.question_type := None;
       UpdatePayload.is_required := None;
       UpdatePayload.options := None;
       UpdatePayload.sort_order := None |} in
  In (asked (questions_update (js "q1") fields))
     (snd (serve 1000 secret req store))
  /\ ~ supplied (request_data req) "is_required".
Proof.
  intros req fields.
  assert (I : In (asked (questions_update (js "q1") fields))
                 (snd (serve 1000 secret req store)))
    by (vm_compute; right; right; right; left; reflexivity).
  split; [exact I|].
  apply (proj1 (proj2 (proj2 (proj2
           (update_sets_supplied_fields_only 1000 secret req store
              (js "q1") fields I))))).
  reflexivity.
Defined.

(** X9: whatever the request and the store, the status of the response is
    one of 200, 400, 401, 403, 404 and 500, and it is 500 exactly when the
    line of the handler's [catch] clause was written to the console. *)
Theorem status_codes (now : Z) (serviceKey : jsstring) (req : Request)
  (db : DataService) :
  In (status (fst (serve now serviceKey req db))) [200; 400; 401; 403; 404; 500]
  /\ (status (fst (serve now serviceKey req db)) = 500
      <-> exists e, In (handler_error e) (snd (serve now serviceKey req db))).
Proof.
  assert (V : forall lines e, Forall verifier_line lines ->
                              ~ In (handler_error e) (map wrote lines)).
  { intros lines e F H. apply in_map_iff in H as (line & [= ->] & H).
    rewrite Forall_forall in F. specialize (F _ H). discriminate F. }
  assert (G : forall d data ext e, Forall (guarded db d data) ext ->
                                   ~ In (handler_error e) ext).
  { intros d data ext e F H. rewrite Forall_forall in F. exact (F _ H). }
  unfold serve. destruct (str_eqb (method req) (js "OPTIONS")).
  { cbn. split; [auto|]. split; [discriminate | intros (e & [])]. }
  destruct (serve_try_run now serviceKey req db)
    as [(msg & lines & -> & F)
       | (token & payload & admin_id & _ & _ & _ & _ &
          [-> | (admin & ext & _ & _ & E & F & P)])].
  - cbn. split; [auto 7|]. split; [discriminate|].
    intros (e & H). now destruct (V _ _ F H).
  - cbn. split; [auto 7|]. split; [discriminate|].
    intros (e & [[=] | []]).
  - destruct (serve_try now serviceKey req db []) as [[r|r|e] log];
      cbn [fst snd] in *; subst log; [destruct P | |].
    + assert (N : status r <> 500)
        by (unfold answered in P; cbn in P; intros N; rewrite N in P;
            repeat (destruct P as [P | P]; try discriminate P); exact P).
      split.
      * unfold answered in P. cbn in P |- *. tauto.
      * split; [intros H; now destruct N|].
        intros (e & [[=] | H]). now destruct (G _ _ _ _ F H).
    + cbn [fst snd json_error status]. split; [cbn; auto 7|].
      split; [|reflexivity]. intros _. exists e. apply in_or_app. right. now left.
Qed.

(** ** The request of an active admin, path by path *)

Lemma string_field_step {B} (data : JsValue) (k fallback : string) (s : jsstring)
  (K : jsstring -> Handler B) (db : DataService) (log : list Event) :
  ToString (or_else (get_opt data (js k)) (JStr (js fallback))) = Ok s ->
  and_then (string_field data k fallback) K db log = K s db log.
Proof. intros H. unfold string_field, and_then, lift. now rewrite H. Qed.

Lemma verifyProgramAccess_granted (divisionId : option jsstring)
  (programId : jsstring) (db : DataService) (log : list Event) :
  granted db divisionId programId ->
  verifyProgramAccess divisionId programId db log
  = (Next true, log ++ [asked (programs_select_single programId)]).
Proof.
  intros G. destruct (verifyProgramAccess_decides divisionId programId db log)
    as ([|] & -> & H); [reflexivity|]. apply H in G. discriminate G.
Qed.

Section ActiveAdminActions.

(** An authenticated, active admin sends a request. *)
Variables (now : Z) (serviceKey : jsstring) (req : Request) (db : DataService).
Variables (token : jsstring) (payload admin_id : JsValue) (admin : Admin.row).

Hypothesis not_preflight : str_eqb (method req) (js "OPTIONS") = false.
Hypothesis token_given : x_admin_token req = Some token.
Hypothesis token_accepted :
  verifyAdminToken now token serviceKey = accepted payload.
Hypothesis payload_truthy : ToBoolean payload = true.
Hypothesis token_admin : get payload (js "admin_id") = Ok admin_id.
Hypothesis admin_found : admins_by_id db admin_id = found admin.
Hypothesis admin_active : Admin.is_active admin = Some true.

(** The handler reaches line 98 having asked for the admin only. *)
Lemma serve_try_request :
  serve_try now serviceKey req db []
  = handle_request admin req db [asked (admins_select_single admin_id)].
Proof.
  rewrite (serve_try_accepted _ _ _ _ _ _ token_given token_accepted payload_truthy).
  rewrite token_admin. unfold with_active_admin.
  cbv [and_then lift ask return_if ret respond app].
  rewrite admin_found. cbn [found Postgrest.data Postgrest.error is_some orb].
  unfold inactive. now rewrite admin_active.
Qed.

(** X10: for an authenticated, active admin, a body that [req.json()]
    cannot parse, or a body whose [action] cannot be read (the JSON value
    [null]), is not a 400: the exception reaches the [catch] clause, the
    answer is 500 "Internal server error", and the effects are the admin
    query and the line written with the exception. *)
Theorem unreadable_body_is_internal_error :
  (forall e, json req = Throw e ->
     serve now serviceKey req db
     = (json_error "Internal server error" 500,
        [asked (admins_select_single admin_id); handler_error e]))
  /\ (forall content e,
        json req = Ok content ->
        get content (js "action") = Throw e ->
        serve now serviceKey req db
        = (json_error "Internal server error" 500,
           [asked (admins_select_single admin_id); handler_error e]))
  /\ (json req = Ok JNull ->
      serve now serviceKey req db
      = (json_error "Internal server error" 500,
         [asked (admins_select_single admin_id); handler_error TypeError])).
Proof.
  assert (A : forall content e,
             json req = Ok content -> get content (js "action") = Throw e ->
             serve now serviceKey req db
             = (json_error "Internal server error" 500,
                [asked (admins_select_single admin_id); handler_error e])).
  { intros content e Hb Ha. unfold serve. rewrite not_preflight, serve_try_request.
    unfold handle_request. cbv [and_then lift]. now rewrite Hb, Ha. }
  split; [|split; [exact A|]].
  - intros e Hb. unfold serve. rewrite not_preflight, serve_try_request.
    unfold handle_request. cbv [and_then lift]. now rewrite Hb.
  - intros Hb. now apply (A JNull).
Qed.

Variables (content action data : JsValue).

Hypothesis body_read : json req = Ok content.
Hypothesis body_action : get content (js "action") = Ok action.
Hypothesis body_data : get content (js "data") = Ok data.

Let asked_admin : list Event := [asked (admins_select_single admin_id)].

Lemma serve_try_action :
  ToBoolean action = true ->
  serve_try now serviceKey req db []
  = switch_action (Admin.division_id admin) action data db asked_admin.
Proof.
  intros Ha. rewrite serve_try_request. unfold handle_request.
  cbv [and_then lift return_if ret].
  now rewrite body_read, body_action, body_data, Ha.
Qed.

(** X11: for an authenticated, active admin whose body is read, the
    request is answered 400 with no query beyond the admin query when the
    action is falsy ("Action is required"), when it is none of the four
    actions ("Invalid action"), when [list] or [create] come with a
    program id whose string is empty ("program_id is required"), and when
    [update] or [delete] come with an id whose string is empty ("id is
    required"). *)
Theorem invalid_requests_are_rejected :
  (ToBoolean action = false ->
   serve now serviceKey req db
   = (json_error "Action is required" 400,
      [asked (admins_select_single admin_id)]))
  /\ (ToBoolean action = true ->
      is_action action "list" = false -> is_action action "create" = false ->
      is_action action "update" = false -> is_action action "delete" = false ->
      serve now serviceKey req db
      = (json_error "Invalid action" 400,
         [asked (admins_select_single admin_id)]))
  /\ (action = JStr (js "list") \/ action = JStr (js "create") ->
      ToString (or_else (get_opt data (js "program_id")) (JStr (js ""))) = Ok [] ->
      serve now serviceKey req db
      = (json_error "program_id is required" 400,
         [asked (admins_select_single admin_id)]))
  /\ (action = JStr (js "update") \/ action = JStr (js "delete") ->
      ToString (or_else (get_opt data (js "id")) (JStr (js ""))) = Ok [] ->
      serve now serviceKey req db
      = (json_error "id is required" 400,
         [asked (admins_select_single admin_id)])).
Proof.
  split; [|split; [|split]].
  - intros Ha. unfold serve. rewrite not_preflight, serve_try_request.
    unfold handle_request. cbv [and_then lift return_if ret respond].
    now rewrite body_read, body_action, body_data, Ha.
  - intros Ha H1 H2 H3 H4. unfold serve.
    rewrite not_preflight, serve_try_action by exact Ha.
    unfold switch_action. now rewrite H1, H2, H3, H4.
  - intros Hact Hs. unfold serve. rewrite not_preflight.
    rewrite serve_try_action by (destruct Hact as [E | E]; rewrite E; reflexivity).
    destruct Hact as [E | E]; rewrite E;
      [rewrite switch_list | rewrite switch_create];
      unfold action_list, action_create;
      rewrite (string_field_step _ _ _ _ _ _ _ Hs); reflexivity.
  - intros Hact Hs. unfold serve. rewrite not_preflight.
    rewrite serve_try_action by (destruct Hact as [E | E]; rewrite E; reflexivity).
    destruct Hact as [E | E]; rewrite E;
      [rewrite switch_update | rewrite switch_delete];
      unfold action_update, action_delete;
      rewrite (string_field_step _ _ _ _ _ _ _ Hs); reflexivity.
Qed.

(** X8: for an authenticated, active admin, [update] and [delete] on a
    question id for which the store has no row, or answers an error, get
    404 "Question not found" after the admin query and the lookup of the
    question: no program is looked up and nothing is updated or deleted. *)
Theorem unknown_question_is_not_found (questionId : jsstring) :
  action = JStr (js "update") \/ action = JStr (js "delete") ->
  ToString (or_else (get_opt data (js "id")) (JStr (js ""))) = Ok questionId ->
  questionId <> [] ->
  Postgrest.data (questions_by_id db questionId) = None
  \/ Postgrest.error (questions_by_id db questionId) <> None ->
  serve now serviceKey req db
  = (json_error "Question not found" 404,
     [asked (admins_select_single admin_id);
      asked (questions_select_single questionId)]).
Proof.
  intros Hact Hs Hne Hq. unfold serve. rewrite not_preflight.
  rewrite serve_try_action by (destruct Hact as [E | E]; rewrite E; reflexivity).
  destruct questionId as [|c questionId']; [congruence|].
  destruct Hact as [E | E]; rewrite E;
    [rewrite switch_update | rewrite switch_delete];
    unfold action_update, action_delete;
    rewrite (string_field_step _ _ _ _ _ _ _ Hs);
    cbv [is_empty return_if existing_question];
    cbv [and_then ret respond ask];
    destruct (questions_by_id db (c :: questionId')) as [[existing|] [e|]];
    cbn [Postgrest.data Postgrest.error] in *; try reflexivity;
    destruct Hq; congruence.
Qed.

(** X5: for an authenticated, active admin, [list] on a program of the
    admin's division asks the store for the questions of that program, in
    order, and relays what the store answers: 200 with the rows, or 400
    with the store's message; [delete] on a question whose program is of
    the admin's division deletes that question and answers 200, or 400
    with the store's message. The queries are exactly the ones shown. *)
Theorem granted_requests_reach_the_store :
  (forall programId,
      action = JStr (js "list") ->
      ToString (or_else (get_opt data (js "program_id")) (JStr (js "")))
      = Ok programId ->
      programId <> [] ->
      granted db (Admin.division_id admin) programId ->
      serve now serviceKey req db
      = (match Postgrest.error (questions_of_program db programId) with
         | Some e => {| body := error_body (Postgrest.message e); status := 400 |}
         | None =>
             {| body := success_questions
                          (Postgrest.data (questions_of_program db programId));
                status := 200 |}
         end,
         [asked (admins_select_single admin_id);
          asked (programs_select_single programId);
          asked (questions_select_ordered programId)]))
  /\ (forall questionId existing,
        action = JStr (js "delete") ->
        ToString (or_else (get_opt data (js "id")) (JStr (js ""))) = Ok questionId ->
        questionId <> [] ->
        questions_by_id db questionId = found existing ->
        granted db (Admin.division_id admin) (Question.program_id existing) ->
        serve now serviceKey req db
        = (match delete_question db questionId with
           | Some e => {| body := error_body (Postgrest.message e); status := 400 |}
           | None => {| body := success_only; status := 200 |}
           end,
           [asked (admins_select_single admin_id);
            asked (questions_select_single questionId);
            asked (programs_select_single (Question.program_id existing));
            asked (questions_delete questionId)])).
Proof.
  split.
  - intros programId Hact Hs Hne G. unfold serve. rewrite not_preflight.
    rewrite serve_try_action by (rewrite Hact; reflexivity).
    rewrite Hact, switch_list.
    unfold action_list. rewrite (string_field_step _ _ _ _ _ _ _ Hs).
    destruct programId as [|c programId']; [congruence|].
    cbv [is_empty return_if]. cbv [and_then ret].
    rewrite (verifyProgramAccess_granted _ _ _ _ G).
    cbv [negb respond ask finish].
    now destruct (Postgrest.error (questions_of_program db (c :: programId'))).
  - intros questionId existing Hact Hs Hne Hq G. unfold serve.
    rewrite not_preflight.
    rewrite serve_try_action by (rewrite Hact; reflexivity).
    rewrite Hact, switch_delete. unfold action_delete.
    rewrite (string_field_step _ _ _ _ _ _ _ Hs).
    destruct questionId as [|c questionId']; [congruence|].
    cbv [is_empty return_if existing_question]. cbv [and_then ret ask].
    rewrite Hq. cbn [found Postgrest.data Postgrest.error].
    rewrite (verifyProgramAccess_granted _ _ _ _ G).
    cbv [negb respond].
    now destruct (delete_question db (c :: questionId')).
Qed.

End ActiveAdminActions.

(** The theorem on a body that is not JSON and on the body [null]. *)
Lemma unreadable_body_is_internal_error_witness :
  serve 1000 secret (request_of (Some credential_2000) (Throw SyntaxError)) store
  = (json_error "Internal server error" 500,
     [asked (admins_select_single (JStr (js "a1"))); handler_error SyntaxError])
  /\ serve 1000 secret (request_of (Some credential_2000) (Ok JNull)) store
     = (json_error "Internal server error" 500,
        [asked (admins_select_single (JStr (js "a1"))); handler_error TypeError]).
Proof.
  split.
  - apply (proj1 (unreadable_body_is_internal_error 1000 secret
             (request_of (Some credential_2000) (Throw SyntaxError)) store
             credential_2000 (identity "D1" (JNum (of_int 2000)))
             (JStr (js "a1")) admin_a1
             eq_refl eq_refl eq_refl eq_refl eq_refl eq_refl eq_refl)
             SyntaxError eq_refl).
  - apply (proj2 (proj2 (unreadable_body_is_internal_error 1000 secret
             (request_of (Some credential_2000) (Ok JNull)) store
             credential_2000 (identity "D1" (JNum (of_int 2000)))
             (JStr (js "a1")) admin_a1
             eq_refl eq_refl eq_refl eq_refl eq_refl eq_refl eq_refl))
             eq_refl).
Defined.

(** The theorem on the bodies [{}], [{action: "drop", data: {}}],
    [{action: "list", data: {program_id: []}}] (an empty array is truthy
    and its string is empty) and [{action: "delete", data: {}}]. *)
Lemma invalid_requests_are_rejected_witness :
  serve 1000 secret (request_of (Some credential_2000) (Ok (JObj []))) store
  = (json_error "Action is required" 400,
     [asked (admins_select_single (JStr (js "a1")))])
  /\ serve 1000 secret
       (request_of (Some credential_2000) (Ok (body_of (JStr (js "drop")) []))) store
     = (json_error "Invalid action" 400,
        [asked (admins_select_single (JStr (js "a1")))])
  /\ serve 1000 secret
       (request_of (Some credential_2000)
          (Ok (body_of (JStr (js "list")) [(js "program_id", JArr [])]))) store
     = (json_error "program_id is required" 400,
        [asked (admins_select_single (JStr (js "a1")))])
  /\ serve 1000 secret
       (request_of (Some credential_2000) (Ok (body_of (JStr (js "delete")) [])))
       store
     = (json_error "id is required" 400,
        [asked (admins_select_single (JStr (js "a1")))]).
Proof.
  split; [|split; [|split]].
  - apply (proj1 (invalid_requests_are_rejected 1000 secret
             (request_of (Some credential_2000) (Ok (JObj []))) store
             credential_2000 (identity "D1" (JNum (of_int 2000)))
             (JStr (js "a1")) admin_a1
             eq_refl eq_refl eq_refl eq_refl eq_refl eq_refl eq_refl
             (JObj []) JUndefined JUndefined eq_refl eq_refl eq_refl) eq_refl).
  - apply (proj1 (proj2 (invalid_requests_are_rejected 1000 secret
             (request_of (Some credential_2000) (Ok (body_of (JStr (js "drop")) [])))
             store credential_2000 (identity "D1" (JNum (of_int 2000)))
             (JStr (js "a1")) admin_a1
             eq_refl eq_refl eq_refl eq_refl eq_refl eq_refl eq_refl
             (body_of (JStr (js "drop")) []) (JStr (js "drop")) (JObj [])
             eq_refl eq_refl eq_refl))
             eq_refl eq_refl eq_refl eq_refl eq_refl).
  - apply (proj1 (proj2 (proj2 (invalid_requests_are_rejected 1000 secret
             (request_of (Some credential_2000)
                (Ok (body_of (JStr (js "list")) [(js "program_id", JArr [])])))
             store credential_2000 (identity "D1" (JNum (of_int 2000)))
             (JStr (js "a1")) admin_a1
             eq_refl eq_refl eq_refl eq_refl eq_refl eq_refl eq_refl
             (body_of (JStr (js "list")) [(js "program_id", JArr [])])
             (JStr (js "list")) (JObj [(js "program_id", JArr [])])
             eq_refl eq_refl eq_refl)))
             (or_introl eq_refl) eq_refl).
  - apply (proj2 (proj2 (proj2 (invalid_requests_are_rejected 1000 secret
             (request_of (Some credential_2000)
                (Ok (body_of (JStr (js "delete")) [])))
             store credential_2000 (identity "D1" (JNum (of_int 2000)))
             (JStr (js "a1")) admin_a1
             eq_refl eq_refl eq_refl eq_refl eq_refl eq_refl eq_refl
             (body_of (JStr (js "delete")) [])
             (JStr (js "delete")) (JObj [])
             eq_refl eq_refl eq_refl)))
             (or_intror eq_refl) eq_refl).
Defined.

(** The theorem on the update of the question [q9], which the store does
    not have. *)
Lemma unknown_question_is_not_found_witness :
  serve 1000 secret (request credential_2000 "update" "id" "q9") store
  = (json_error "Question not found" 404,
     [asked (admins_select_single (JStr (js "a1")));
      asked (questions_select_single (js "q9"))]).
Proof.
  apply (unknown_question_is_not_found 1000 secret
           (request credential_2000 "update" "id" "q9") store
           credential_2000 (identity "D1" (JNum (of_int 2000)))
           (JStr (js "a1")) admin_a1
           eq_refl eq_refl eq_refl eq_refl eq_refl eq_refl eq_refl
           (body_of (JStr (js "update")) [(js "id", JStr (js "q9"))])
           (JStr (js "update")) (JObj [(js "id", JStr (js "q9"))])
           eq_refl eq_refl eq_refl (js "q9")
           (or_introl eq_refl) eq_refl ltac:(discriminate) (or_introl eq_refl)).
Defined.

(** The theorem on the admin of division [D1] listing the questions of,
    and deleting the question [q1] of, the program [p1] of [D1]. *)
Lemma granted_requests_reach_the_store_witness :
  serve 1000 secret (request credential_2000 "list" "program_id" "p1") store
  = ({| body := success_questions (Some (JArr [])); status := 200 |},
     [asked (admins_select_single (JStr (js "a1")));
      asked (programs_select_single (js "p1"));
      asked (questions_select_ordered (js "p1"))])
  /\ serve 1000 secret (request credential_2000 "delete" "id" "q1") store
     = ({| body := success_only; status := 200 |},
        [asked (admins_select_single (JStr (js "a1")));
         asked (questions_select_single (js "q1"));
         asked (programs_select_single (js "p1"));
         asked (questions_delete (js "q1"))]).
Proof.
  split.
  - apply (proj1 (granted_requests_reach_the_store 1000 secret
             (request credential_2000 "list" "program_id" "p1") store
             credential_2000 (identity "D1" (JNum (of_int 2000)))
             (JStr (js "a1")) admin_a1
             eq_refl eq_refl eq_refl eq_refl eq_refl eq_refl eq_refl
             (body_of (JStr (js "list")) [(js "program_id", JStr (js "p1"))])
             (JStr (js "list")) (JObj [(js "program_id", JStr (js "p1"))])
             eq_refl eq_refl eq_refl) (js "p1") eq_refl eq_refl
             ltac:(discriminate)).
    exists {| Program.division_id := Some (js "D1") |}. split; reflexivity.
  - apply (proj2 (granted_requests_reach_the_store 1000 secret
             (request credential_2000 "delete" "id" "q1") store
             credential_2000 (identity "D1" (JNum (of_int 2000)))
             (JStr (js "a1")) admin_a1
             eq_refl eq_refl eq_refl eq_refl eq_refl eq_refl eq_refl
             (body_of (JStr (js "delete")) [(js "id", JStr (js "q1"))])
             (JStr (js "delete")) (JObj [(js "id", JStr (js "q1"))])
             eq_refl eq_refl eq_refl) (js "q1")
             {| Question.id := js "q1"; Question.program_id := js "p1" |}
             eq_refl eq_refl ltac:(discriminate) eq_refl).
    exists {| Program.division_id := Some (js "D1") |}. split; reflexivity.
Defined.

(* ===================================================================== *)
(** * More on the verifier                                                *)
(* ===================================================================== *)

(** ** The digest is 32 bytes *)

Lemma round_length (st : list Z) (kw : Z * Z) :
  List.length st = 8%nat -> List.length (SHA256.round st kw) = 8%nat.
Proof.
  intros H. do 9 (destruct st as [|? st]; try discriminate H). reflexivity.
Qed.

Lemma rounds_length (l : list (Z * Z)) : forall st,
  List.length st = 8%nat -> List.length (fold_left SHA256.round l st) = 8%nat.
Proof.
  induction l as [|kw l IH]; intros st H; cbn; [exact H|].
  apply IH, round_length, H.
Qed.

Lemma compress_length (h block : list Z) :
  List.length h = 8%nat -> List.length (SHA256.compress h block) = 8%nat.
Proof.
  intros H. unfold SHA256.compress.
  rewrite length_map, length_combine, rounds_length, H by exact H. reflexivity.
Qed.

Lemma state_length (bs : list (list Z)) : forall h,
  List.length h = 8%nat -> List.length (fold_left SHA256.compress bs h) = 8%nat.
Proof.
  induction bs as [|b bs IH]; intros h H; cbn; [exact H|].
  apply IH, compress_length, H.
Qed.

Lemma be_bytes_bytes (n : nat) (x : Z) : Forall is_byte (SHA256.be_bytes n x).
Proof.
  unfold SHA256.be_bytes. apply Forall_map, Forall_forall. intros i _.
  apply Z.mod_pos_bound. lia.
Qed.

Lemma be_bytes_length (n : nat) (x : Z) : List.length (SHA256.be_bytes n x) = n.
Proof. unfold SHA256.be_bytes. now rewrite length_map, length_rev, length_seq. Qed.

Lemma flat_map_length_const {A B} (f : A -> list B) (k : nat) (l : list A) :
  (forall a, List.length (f a) = k) ->
  List.length (flat_map f l) = (List.length l * k)%nat.
Proof.
  intros H. induction l as [|a l IH]; cbn; [reflexivity|].
  now rewrite length_app, H, IH.
Qed.

Lemma digest_bytes (msg : list Z) :
  List.length (SHA256.digest msg) = 32%nat /\ Forall is_byte (SHA256.digest msg).
Proof.
  unfold SHA256.digest. split.
  - rewrite (flat_map_length_const _ 4) by (intros; apply be_bytes_length).
    now rewrite state_length.
  - apply Forall_flat_map, Forall_forall. intros x _. apply be_bytes_bytes.
Qed.

(** ** Its hex is 64 characters *)

Lemma hex_digit_lower (d : Z) : 0 <= d < 16 -> is_lower_hex (hex_digit d).
Proof.
  intros H. unfold hex_digit, is_lower_hex. destruct (Z.ltb_spec d 10); lia.
Qed.

Lemma byte_hex (b : Z) :
  is_byte b ->
  List.length (padStart2 (byte_toString16 b)) = 2%nat
  /\ Forall is_lower_hex (padStart2 (byte_toString16 b)).
Proof.
  intros H. unfold is_byte in H. unfold byte_toString16.
  destruct (Z.ltb_spec b 16); cbn [padStart2].
  - split; [reflexivity|].
    constructor; [left; lia|]. constructor; [|constructor].
    apply hex_digit_lower. lia.
  - split; [reflexivity|].
    constructor; [|constructor; [|constructor]]; apply hex_digit_lower.
    + split; [apply Z.div_pos; lia | apply Z.div_lt_upper_bound; lia].
    + apply Z.mod_pos_bound. lia.
Qed.

Lemma hex_of_bytes (bytes : list Z) :
  Forall is_byte bytes ->
  List.length (hex bytes) = (2 * List.length bytes)%nat
  /\ Forall is_lower_hex (hex bytes).
Proof.
  unfold hex. induction 1 as [|b bytes Hb _ [IHl IHf]]; cbn [flat_map].
  - split; [reflexivity | constructor].
  - destruct (byte_hex b Hb) as [L F]. split.
    + rewrite length_app, L, IHl. cbn [List.length]. lia.
    + apply Forall_app. split; assumption.
Qed.

Lemma expectedSignature_hex (tokenData serviceKey : jsstring) :
  List.length (expectedSignature tokenData serviceKey) = 64%nat
  /\ Forall is_lower_hex (expectedSignature tokenData serviceKey).
Proof.
  destruct (digest_bytes (utf8_encode (tokenData ++ serviceKey))) as [L F].
  destruct (hex_of_bytes _ F) as [L' F'].
  unfold hex in L', F'. rewrite L in L'. split; [exact L' | exact F'].
Qed.

Lemma expectedSignature_piece (tokenData serviceKey : jsstring) :
  dot_free (expectedSignature tokenData serviceKey)
  /\ expectedSignature tokenData serviceKey <> [].
Proof.
  destruct (expectedSignature_hex tokenData serviceKey) as [L F]. split.
  - intros H. rewrite Forall_forall in F. specialize (F _ H).
    unfold is_lower_hex, DOT in F. lia.
  - intros E. rewrite E in L. discriminate L.
Qed.

(** X12: the expected signature is always 64 characters of lowercase
    hexadecimal, whatever the payload text and the secret; so when the
    verifier returns a payload (not [null]), the second piece of the
    credential is such a string. *)
Theorem signature_is_lowercase_hex (serviceKey : jsstring) :
  (forall tokenData,
      List.length (expectedSignature tokenData serviceKey) = 64%nat
      /\ Forall is_lower_hex (expectedSignature tokenData serviceKey))
  /\ (forall now token payload,
        verifyAdminToken now token serviceKey = accepted payload ->
        payload <> JNull ->
        exists s,
          nth_error (split DOT token) 1 = Some s
          /\ List.length s = 64%nat
          /\ Forall is_lower_hex s).
Proof.
  split; [intros tokenData; apply expectedSignature_hex|].
  intros now token payload H Hp.
  destruct (verifyAdminToken_split now token serviceKey)
    as [E | (p & s & _ & Hs & _ & _ & E)]; rewrite E in H.
  - injection H as <-. now destruct Hp.
  - exists s. split; [exact Hs|].
    destruct (verify_parts_outcome now serviceKey p s)
      as [(t & payload' & _ & _ & _ & -> & _) | [R | [R | (e & _ & R)]]].
    + apply expectedSignature_hex.
    + rewrite R in H. discriminate H.
    + rewrite R in H. discriminate H.
    + rewrite R in H. discriminate H.
Qed.

(** The theorem on the first credential. *)
Lemma signature_is_lowercase_hex_witness :
  exists s,
    nth_error (split DOT credential_2000) 1 = Some s
    /\ List.length s = 64%nat
    /\ Forall is_lower_hex s.
Proof.
  apply (proj2 (signature_is_lowercase_hex secret) 1000 credential_2000
               (identity "D1" (JNum (of_int 2000))) eq_refl).
  discriminate.
Defined.

(** X13: a credential made the way the verifier expects is accepted: for
    a payload segment without ['.'] that decodes to a text that parses,
    whose [exp] is not below the current instant, the segment followed by
    ['.'] and the expected signature of the text makes the verifier return
    the parsed payload and print nothing. *)
Theorem issued_credential_is_accepted (now : Z)
  (serviceKey p tokenData : jsstring) (payload exp : JsValue) :
  dot_free p -> p <> [] ->
  atob p = Ok tokenData ->
  JSON_parse tokenData = Ok payload ->
  get payload (js "exp") = Ok exp ->
  less_than exp (of_int now) = Ok false ->
  verifyAdminToken now (p ++ DOT :: expectedSignature tokenData serviceKey)
                   serviceKey
  = accepted payload.
Proof.
  intros Hd Hne Ha Hj He Hl.
  destruct (expectedSignature_piece tokenData serviceKey) as [Sd Sne].
  rewrite (verifyAdminToken_credential _ _ _ _ Hd Sd Hne Sne).
  rewrite (verify_parts_cases _ _ _ _ _ _ _ Ha Hj He), Hl.
  unfold signature_check. now rewrite str_eqb_refl.
Qed.

(** The theorem on the payload of the first credential, at the instant of
    its expiry. *)
Lemma issued_credential_is_accepted_witness :
  verifyAdminToken 2000
    (payload_2000 ++ DOT :: expectedSignature
       (quoted "{'admin_id':'a1','user_id':'u1','division_id':'D1','exp':2000}")
       secret) secret
  = accepted (identity "D1" (JNum (of_int 2000))).
Proof.
  apply (issued_credential_is_accepted 2000 secret payload_2000
           (quoted "{'admin_id':'a1','user_id':'u1','division_id':'D1','exp':2000}")
           (identity "D1" (JNum (of_int 2000))) (JNum (of_int 2000))).
  - apply dot_free_check. reflexivity.
  - discriminate.
  - reflexivity.
  - reflexivity.
  - reflexivity.
  - reflexivity.
Defined.

Lemma num_ltb_later (x : Number) (now now' : Z) :
  now <= now' -> num_ltb x (of_int now) = true -> num_ltb x (of_int now') = true.
Proof.
  intros H. unfold num_ltb, of_int.
  destruct x as [|[|]|m e]; try (intros; assumption).
  cbn [fraction Z.leb Z.compare]. rewrite !Z.pow_0_r, !Z.mul_1_r.
  unfold fraction. destruct (Z.leb_spec 0 e).
  - rewrite !Z.mul_1_r. intros L. apply Z.ltb_lt in L. apply Z.ltb_lt. lia.
  - intros L. apply Z.ltb_lt in L. apply Z.ltb_lt.
    assert (0 < 2 ^ (- e)) by (apply Z.pow_pos_nonneg; lia).
    nia.
Qed.

(** X14: time only takes credentials away. A credential rejected as
    expired at one instant is rejected as expired at every later instant,
    and a credential accepted at one instant was accepted, with the same
    payload, at every earlier instant. *)
Theorem expiry_is_monotone (now now' : Z) (token serviceKey : jsstring) :
  now <= now' ->
  (verifyAdminToken now token serviceKey = token_expired ->
   verifyAdminToken now' token serviceKey = token_expired)
  /\ (forall payload,
        verifyAdminToken now' token serviceKey = accepted payload ->
        verifyAdminToken now token serviceKey = accepted payload).
Proof.
  intros H. unfold verifyAdminToken, verifyAdminToken_try.
  destruct (absent (nth_error (split DOT token) 0)
            || absent (nth_error (split DOT token) 1)); [auto|].
  destruct (nth_error (split DOT token) 0) as [p|]; [|auto].
  destruct (nth_error (split DOT token) 1) as [s|]; [|auto].
  unfold verify_parts.
  destruct (atob p) as [tokenData|e]; cbn [bind]; [|auto].
  destruct (JSON_parse tokenData) as [payload|e]; cbn [bind]; [|auto].
  destruct (get payload (js "exp")) as [exp|e]; cbn [bind]; [|auto].
  unfold less_than.
  destruct (ToNumber exp) as [x|e]; cbn [bind]; [|auto].
  pose proof (num_ltb_later x now now' H) as M.
  destruct (num_ltb x (of_int now)) eqn:L.
  - rewrite M by reflexivity. split; [auto|]. intros v [=].
  - destruct (num_ltb x (of_int now')); [split; [|intros v [=]]|split; [|auto]];
      destruct (negb (str_eqb s (expectedSignature tokenData serviceKey)));
      discriminate.
Qed.

(** The theorem on the first credential, which expires after 2000. *)
Lemma expiry_is_monotone_witness :
  verifyAdminToken 2500 credential_2000 secret = token_expired
  /\ verifyAdminToken 1000 credential_2000 secret
     = accepted (identity "D1" (JNum (of_int 2000))).
Proof.
  split.
  - apply (proj1 (expiry_is_monotone 2001 2500 credential_2000 secret
                    ltac:(lia)) eq_refl).
  - apply (proj2 (expiry_is_monotone 1000 2000 credential_2000 secret
                    ltac:(lia)) (identity "D1" (JNum (of_int 2000))) eq_refl).
Defined.

(* ===================================================================== *)
(** * More on the agent form                                              *)
(* ===================================================================== *)

(** X15: a record sent for a team leader never carries a parent, in the
    single form (update and insert) and in the bulk form; and an inserted
    record never carries the empty string as its parent: it is [null]
    instead. *)
Theorem team_leaders_have_no_parent :
  (forall agent values parent,
      In (team_leader, parent) (parents (onSubmitSingle agent values)) ->
      parent = None)
  /\ (forall values parent,
        In (team_leader, parent) (parents (onSubmitBulk values)) ->
        parent = None)
  /\ (forall values r,
        ~ In (r, Some []) (parents (onSubmitSingle None values)))
  /\ (forall values r, ~ In (r, Some []) (parents (onSubmitBulk values))).
Proof.
  split; [|split; [|split]].
  - intros agent values parent.
    unfold onSubmitSingle, clear_count, clear_parent.
    destruct agent as [agent|], values as [n m r p w par c];
      destruct r, par as [| |[|x s]]; cbn; intros [[=] | []]; congruence.
  - intros values parent. unfold onSubmitBulk. cbn [parents].
    rewrite map_map. intros H. apply in_map_iff in H as (a & E & _).
    cbn in E. destruct (BulkAgentFormValues.role values); cbn in E; congruence.
  - intros values r.
    unfold onSubmitSingle, clear_count, clear_parent.
    destruct values as [n m r' p w par c];
      destruct r', par as [| |[|x s]]; cbn; intros [[=] | []].
  - intros values r. unfold onSubmitBulk. cbn [parents].
    rewrite map_map. intros H. apply in_map_iff in H as (a & E & _).
    cbn in E.
    destruct (role_eqb (BulkAgentFormValues.role values) team_leader);
      [congruence|].
    destruct (BulkAgentFormValues.parent_agent_id values) as [| |[|x s]];
      cbn in E; congruence.
Qed.

(** The theorem on a team leader entered with the parent [a7]. *)
Lemma team_leaders_have_no_parent_witness :
  exists parent,
    In (team_leader, parent)
       (parents (onSubmitSingle None (single_values team_leader)))
    /\ parent = None.
Proof.
  exists None.
  assert (I : In (team_leader, None)
                 (parents (onSubmitSingle None (single_values team_leader))))
    by (simpl; auto).
  split; [exact I|].
  exact (proj1 team_leaders_have_no_parent None (single_values team_leader) None I).
Defined.

Ltac run_block :=
  cbv [effects Submit.onSubmitSingle Submit.onSubmitBulk Submit.then_ Submit.emit
       Submit.send Submit.throw Submit.return_ Submit.try_catch_finally
       app fst snd closing is_thrown].

(** X16: whatever the store answers, a submission of the single form or
    of the bulk form never throws, and its effects are, in order: the
    submitting flag set, the one mutation sent, one toast, then, only when
    the store reported no error, the dialog closed and [onSuccess] called,
    and at last the submitting flag cleared. The toast is a success toast
    exactly when the store reported no error. *)
Theorem submission_protocol (store : Submit.Store) :
  (forall agent values,
      let m := onSubmitSingle agent values in
      is_thrown (fst (Submit.onSubmitSingle agent values store [])) = false
      /\ exists toast,
           is_toast toast = true
           /\ (store m = None <-> exists msg, toast = Submit.toast_success msg)
           /\ effects (Submit.onSubmitSingle agent values) store
              = [Submit.setIsSubmitting true; Submit.sent m; toast]
                ++ closing (store m) ++ [Submit.setIsSubmitting false])
  /\ (forall values,
        let m := onSubmitBulk values in
        is_thrown (fst (Submit.onSubmitBulk values store [])) = false
        /\ exists toast,
             is_toast toast = true
             /\ (store m = None <-> exists msg, toast = Submit.toast_success msg)
             /\ effects (Submit.onSubmitBulk values) store
                = [Submit.setIsSubmitting true; Submit.sent m; toast]
                  ++ closing (store m) ++ [Submit.setIsSubmitting false]).
Proof.
  split.
  - intros agent values m. subst m. run_block.
    destruct agent as [agent|];
      destruct (store (onSubmitSingle _ values)) as [e|];
      try destruct (Submit.is_duplicate e); run_block;
      (split; [reflexivity|]); eexists; (split; [|split; [|reflexivity]]);
      try reflexivity;
      (split; [try discriminate; eauto | try (intros (msg & [=])); auto]).
  - intros values m. subst m. run_block.
    destruct (store (onSubmitBulk values)) as [e|];
      try destruct (Submit.is_duplicate e); run_block;
      (split; [reflexivity|]); eexists; (split; [|split; [|reflexivity]]);
      try reflexivity;
      (split; [try discriminate; eauto | try (intros (msg & [=])); auto]).
Qed.

(** X17: what a failed submission shows. On creation, single or bulk, an
    error whose message contains "unique" or whose code is "23505" gives
    the duplicate-mobile toast; any other error gives its own message when
    it is an [Error] object and the fallback text otherwise. On an edit
    there is no duplicate test: the same error gives its message or the
    fallback "Failed to save agent". In every case the dialog stays open
    and the submitting flag is cleared. *)
Theorem failed_submission_message (store : Submit.Store)
  (e : Submit.PostgrestError) :
  (forall values,
      let m := onSubmitSingle None values in
      store m = Some e ->
      effects (Submit.onSubmitSingle None values) store
      = [Submit.setIsSubmitting true; Submit.sent m;
         Submit.toast_error
           (if Submit.is_duplicate e then js "Mobile number already exists"
            else Submit.message_or e "Failed to save agent");
         Submit.setIsSubmitting false])
  /\ (forall agent values,
        let m := onSubmitSingle (Some agent) values in
        store m = Some e ->
        effects (Submit.onSubmitSingle (Some agent) values) store
        = [Submit.setIsSubmitting true; Submit.sent m;
           Submit.toast_error (Submit.message_or e "Failed to save agent");
           Submit.setIsSubmitting false])
  /\ (forall values,
        let m := onSubmitBulk values in
        store m = Some e ->
        effects (Submit.onSubmitBulk values) store
        = [Submit.setIsSubmitting true; Submit.sent m;
           Submit.toast_error
             (if Submit.is_duplicate e
              then js "One or more mobile numbers already exist"
              else Submit.message_or e "Failed to create agents");
           Submit.setIsSubmitting false]).
Proof.
  split; [|split].
  - intros values m H. subst m. run_block. rewrite H.
    now destruct (Submit.is_duplicate e).
  - intros agent values m H. subst m. run_block. now rewrite H.
  - intros values m H. subst m. run_block. rewrite H.
    now destruct (Submit.is_duplicate e).
Qed.

(** The theorem on a store that answers the unique-constraint error, for
    a creation and for an edit. *)
Lemma failed_submission_message_witness :
  effects (Submit.onSubmitSingle None (single_values pro))
          (fun _ => Some duplicate_key)
  = [Submit.setIsSubmitting true;
     Submit.sent (onSubmitSingle None (single_values pro));
     Submit.toast_error (js "Mobile number already exists");
     Submit.setIsSubmitting false]
  /\ effects (Submit.onSubmitSingle (Some {| PennyekartAgent.id := js "a9" |})
                                    (single_values pro))
             (fun _ => Some duplicate_key)
     = [Submit.setIsSubmitting true;
        Submit.sent (onSubmitSingle (Some {| PennyekartAgent.id := js "a9" |})
                                    (single_values pro));
        Submit.toast_error (js "Failed to save agent");
        Submit.setIsSubmitting false].
Proof.
  split.
  - apply (proj1 (failed_submission_message (fun _ => Some duplicate_key)
                    duplicate_key) (single_values pro) eq_refl).
  - apply (proj1 (proj2 (failed_submission_message (fun _ => Some duplicate_key)
                           duplicate_key))
                 {| PennyekartAgent.id := js "a9" |} (single_values pro) eq_refl).
Defined.

(* ===================================================================== *)
(** * Properties of the page component                                    *)
(* ===================================================================== *)

Import PennyekartAgentHierarchy.

(** ** The order of strings, [sort] and [Set] *)

Lemma str_ltb_irrefl (a : jsstring) : str_ltb a a = false.
Proof.
  induction a as [|x a IH]; [reflexivity|]. cbn.
  now rewrite Z.ltb_irrefl, Z.eqb_refl, IH.
Qed.

Lemma str_ltb_cons (x y : Z) (a b : jsstring) :
  str_ltb (x :: a) (y :: b) = true <-> x < y \/ (x = y /\ str_ltb a b = true).
Proof.
  cbn. rewrite orb_true_iff, andb_true_iff, Z.ltb_lt, Z.eqb_eq. tauto.
Qed.

Lemma str_ltb_trans (a : jsstring) : forall b c,
  str_ltb a b = true -> str_ltb b c = true -> str_ltb a c = true.
Proof.
  induction a as [|x a IH]; intros [|y b] [|z c] H1 H2;
    try discriminate; try reflexivity.
  apply str_ltb_cons in H1, H2. apply str_ltb_cons.
  destruct H1 as [H1 | [E1 H1]], H2 as [H2 | [E2 H2]]; try (left; lia).
  right. split; [lia|]. now apply (IH b).
Qed.

Lemma str_ltb_asym (a b : jsstring) :
  str_ltb a b = true -> str_ltb b a = false.
Proof.
  intros H. destruct (str_ltb b a) eqn:E; [|reflexivity].
  pose proof (str_ltb_trans _ _ _ H E) as T.
  now rewrite str_ltb_irrefl in T.
Qed.

Lemma str_ltb_total (a : jsstring) : forall b,
  str_ltb a b = false -> str_ltb b a = false -> a = b.
Proof.
  induction a as [|x a IH]; intros [|y b] H1 H2; try discriminate;
    [reflexivity|].
  cbn in H1, H2.
  apply orb_false_elim in H1 as [L1 E1], H2 as [L2 E2].
  apply Z.ltb_ge in L1, L2. assert (x = y) by lia. subst y.
  rewrite Z.eqb_refl in E1, E2. cbn in E1, E2. f_equal. now apply IH.
Qed.

Lemma sort_insert_perm (x : jsstring) (l : list jsstring) :
  Permutation (x :: l) (sort_insert x l).
Proof.
  induction l as [|y l IH]; cbn; [reflexivity|].
  destruct (str_ltb x y); [reflexivity|].
  rewrite perm_swap. now constructor.
Qed.

Lemma Array_sort_perm (l : list jsstring) : Permutation l (Array_sort l).
Proof.
  unfold Array_sort.
  assert (G : forall acc, Permutation (acc ++ l)
                (fold_left (fun sorted x => sort_insert x sorted) l acc)).
  { induction l as [|x l IH]; intros acc; cbn.
    - now rewrite app_nil_r.
    - rewrite <- IH, <- sort_insert_perm. cbn.
      symmetry. apply Permutation_middle. }
  exact (G []).
Qed.

Lemma sort_insert_sorted (x : jsstring) (l : list jsstring) :
  StronglySorted str_le l -> StronglySorted str_le (sort_insert x l).
Proof.
  induction 1 as [|y l S IH F]; cbn; [repeat constructor|].
  destruct (str_ltb x y) eqn:E.
  - constructor; [now constructor|]. constructor.
    + now apply str_ltb_asym.
    + rewrite Forall_forall in F |- *. intros z Hz. specialize (F z Hz).
      unfold str_le in *. destruct (str_ltb z x) eqn:Z; [|reflexivity].
      now rewrite (str_ltb_trans _ _ _ Z E) in F.
  - constructor; [exact IH|].
    rewrite Forall_forall in F |- *. intros z Hz.
    apply (Permutation_in _ (Permutation_sym (sort_insert_perm x l))) in Hz.
    destruct Hz as [<- | Hz]; [exact E | now apply F].
Qed.

Lemma Array_sort_sorted (l : list jsstring) : StronglySorted str_le (Array_sort l).
Proof.
  unfold Array_sort.
  assert (G : forall acc, StronglySorted str_le acc ->
                StronglySorted str_le
                  (fold_left (fun sorted x => sort_insert x sorted) l acc)).
  { induction l as [|x l IH]; intros acc S; cbn; [exact S|].
    now apply IH, sort_insert_sorted. }
  apply G. constructor.
Qed.

Lemma sorted_strictly (l : list jsstring) :
  StronglySorted str_le l -> NoDup l -> StronglySorted str_lt l.
Proof.
  induction 1 as [|x l S IH F]; intros N; [constructor|].
  inversion N as [|? ? Hx N']; subst. constructor; [now apply IH|].
  rewrite Forall_forall in F |- *. intros y Hy. specialize (F y Hy).
  unfold str_le in F. unfold str_lt. destruct (str_ltb x y) eqn:E; [reflexivity|].
  rewrite (str_ltb_total _ _ E F) in Hx. now destruct Hx.
Qed.

Lemma existsb_str_eqb (x : jsstring) (l : list jsstring) :
  existsb (str_eqb x) l = true <-> In x l.
Proof.
  rewrite existsb_exists. split.
  - intros (y & Hy & E). apply str_eqb_eq in E. now subst.
  - intros H. exists x. split; [exact H | apply str_eqb_refl].
Qed.

Lemma Set_values_spec (l : list jsstring) :
  NoDup (Set_values l) /\ forall x, In x (Set_values l) <-> In x l.
Proof.
  unfold Set_values.
  assert (G : forall acc, NoDup acc ->
     let r := fold_left (fun set x => if existsb (str_eqb x) set then set
                                      else set ++ [x]) l acc in
     NoDup r /\ forall x, In x r <-> In x acc \/ In x l).
  { induction l as [|y l IH]; intros acc N; cbn.
    - split; [exact N | tauto].
    - destruct (existsb (str_eqb y) acc) eqn:E.
      + destruct (IH acc N) as [N' M]. split; [exact N'|].
        intros x. rewrite M. apply existsb_str_eqb in E.
        split; [tauto|]. intros [H | [<- | H]]; auto.
      + assert (Hy : ~ In y acc).
        { intros H. apply existsb_str_eqb in H. congruence. }
        assert (N2 : NoDup (acc ++ [y])).
        { apply NoDup_app; [exact N | repeat constructor; auto | ].
          intros a Ha [<- | []]. now destruct Hy. }
        destruct (IH _ N2) as [N' M]. split; [exact N'|].
        intros x. rewrite M, in_app_iff. cbn. tauto. }
  destruct (G [] (NoDup_nil _)) as [N M]. split; [exact N|].
  intros x. rewrite M. cbn. tauto.
Qed.

(** X18: the ward list given to [setWards] is strictly ascending in the
    order of strings (by code units, so ["10"] comes before ["2"]), hence
    without duplicates, and its members are exactly the wards of the rows
    the store answered for the selected panchayath; without a selected
    panchayath the store is not asked and the list is empty. *)
Theorem fetchWards_sorted_unique (panchayath_id : option jsstring)
  (select_ward : jsstring -> option (list WardRow)) :
  StronglySorted str_lt (snd (fetchWards panchayath_id select_ward))
  /\ (forall w,
        In w (snd (fetchWards panchayath_id select_ward))
        <-> exists id rows,
              panchayath_id = Some id /\ id <> []
              /\ select_ward id = Some rows /\ In w (map ward rows))
  /\ (fst (fetchWards panchayath_id select_ward) = None
      <-> absent panchayath_id = true).
Proof.
  unfold fetchWards.
  destruct panchayath_id as [[|c id]|]; cbn [fst snd absent].
  - split; [constructor|]. split; [|tauto].
    intros w. split; [intros [] | intros (id & rows & [= <-] & H & _); congruence].
  - set (rows := match select_ward (c :: id) with Some rows => rows | None => [] end).
    destruct (Set_values_spec (map ward rows)) as [N M].
    pose proof (Array_sort_perm (Set_values (map ward rows))) as P.
    split; [|split].
    + apply sorted_strictly; [apply Array_sort_sorted|].
      exact (Permutation_NoDup P N).
    + intros w. split.
      * intros H. apply (Permutation_in _ (Permutation_sym P)), M in H.
        subst rows. destruct (select_ward (c :: id)) as [rows|] eqn:E; [|destruct H].
        exists (c :: id), rows. repeat split; auto. discriminate.
      * intros (id' & rows' & [= <-] & _ & E & H).
        apply (Permutation_in _ P), M. subst rows. now rewrite E.
    + split; discriminate.
  - split; [constructor|]. split; [|tauto].
    intros w. split; [intros [] | intros (id & rows & [=] & _)].
Qed.

(** The theorem on the wards 2, 10, 1 and 2 again: the list is in the
    order of strings, not of numbers. *)
Lemma fetchWards_sorted_unique_witness :
  let rows := [ {| ward := js "2" |}; {| ward := js "10" |};
                {| ward := js "1" |}; {| ward := js "2" |} ] in
  StronglySorted str_lt (snd (fetchWards (Some (js "u1")) (fun _ => Some rows)))
  /\ snd (fetchWards (Some (js "u1")) (fun _ => Some rows))
     = [js "1"; js "10"; js "2"].
Proof.
  intros rows. split; [|reflexivity].
  exact (proj1 (fetchWards_sorted_unique (Some (js "u1")) (fun _ => Some rows))).
Defined.

(** ** The filters *)

Lemma str_eqb_neq (a b : jsstring) : a <> b -> str_eqb a b = false.
Proof.
  intros H. destruct (str_eqb a b) eqn:E; [|reflexivity].
  apply str_eqb_eq in E. now destruct H.
Qed.

Lemma lookup_define_same (k : jsstring) (v : JsValue)
  (props : list (jsstring * JsValue)) :
  lookup k (define k v props) = Some v.
Proof.
  induction props as [|[k' v'] props IH]; cbn.
  - now rewrite str_eqb_refl.
  - destruct (str_eqb k k') eqn:E; cbn.
    + now rewrite str_eqb_refl.
    + now rewrite E.
Qed.

Lemma lookup_define_other (k k' : jsstring) (v : JsValue)
  (props : list (jsstring * JsValue)) :
  k' <> k -> lookup k' (define k v props) = lookup k' props.
Proof.
  intros H. induction props as [|[k0 v0] props IH]; cbn.
  - now rewrite str_eqb_neq.
  - destruct (str_eqb k k0) eqn:E; cbn.
    + apply str_eqb_eq in E. subst k0. now rewrite str_eqb_neq.
    + destruct (str_eqb k' k0); [reflexivity | exact IH].
Qed.

Lemma handleFilterChange_value (key : jsstring) (value : JsValue)
  (prev : AgentFilters) :
  lookup key (handleFilterChange key value prev)
  = Some (if match value with JStr s => str_eqb s (js "all") | _ => false end
          then JUndefined else value).
Proof. unfold handleFilterChange. apply lookup_define_same. Qed.

Lemma filters_after_app (events : list FilterEvent) (ev : FilterEvent) :
  filters_after (events ++ [ev]) = filter_step (filters_after events) ev.
Proof. unfold filters_after. now rewrite fold_left_app. Qed.

(** X19: a change of one filter leaves every other filter as it was (a
    new panchayath keeps the ward chosen under the old one); the value
    ["all"] clears the filter it is given for, any other value is stored
    as it is; so after any run of selections, searches and clearings no
    filter holds ["all"] (a search for the text "all" is no search); and
    right after a clearing no filter is active. *)
Theorem filter_changes (key : jsstring) (prev : AgentFilters) :
  (forall value k, k <> key ->
     lookup k (handleFilterChange key value prev) = lookup k prev)
  /\ lookup key (handleFilterChange key (JStr (js "all")) prev) = Some JUndefined
  /\ (forall value, value <> JStr (js "all") ->
        lookup key (handleFilterChange key value prev) = Some value)
  /\ (forall events k, lookup k (filters_after events) <> Some (JStr (js "all")))
  /\ (forall events, has_active_filters (filters_after (events ++ [cleared])) = false).
Proof.
  split; [|split; [|split; [|split]]].
  - intros value k H. unfold handleFilterChange. now apply lookup_define_other.
  - now rewrite handleFilterChange_value.
  - intros value H. rewrite handleFilterChange_value.
    destruct value as [| |b|n|s|l|o]; try reflexivity.
    destruct (str_eqb s (js "all")) eqn:E; [|reflexivity].
    apply str_eqb_eq in E. subst. now destruct H.
  - intros events k. induction events as [|ev events IH] using rev_ind.
    + discriminate.
    + rewrite filters_after_app.
      assert (C : forall key' value,
                 lookup k (handleFilterChange key' value (filters_after events))
                 <> Some (JStr (js "all"))).
      { intros key' value. destruct (str_eqb k key') eqn:E.
        - apply str_eqb_eq in E. subst key'. rewrite handleFilterChange_value.
          destruct value as [| |b|n|s|l|o]; try discriminate.
          destruct (str_eqb s (js "all")) eqn:A; [discriminate|].
          intros [= ->]. now rewrite str_eqb_refl in A.
        - unfold handleFilterChange. rewrite lookup_define_other; [exact IH|].
          intros ->. now rewrite str_eqb_refl in E. }
      destruct ev as [key' value|text|]; cbn [filter_step].
      * apply C.
      * apply C.
      * discriminate.
  - intros events. now rewrite filters_after_app.
Qed.

(** The theorem on the choice of another panchayath after a ward was
    chosen: the ward filter stays. *)
Lemma filter_changes_witness :
  let prev := filters_after [selected (js "panchayath_id") (js "u1");
                             selected (js "ward") (js "7")] in
  lookup (js "ward") (handleFilterChange (js "panchayath_id") (JStr (js "u2")) prev)
  = Some (JStr (js "7"))
  /\ lookup (js "panchayath_id")
            (handleFilterChange (js "panchayath_id") (JStr (js "u2")) prev)
     = Some (JStr (js "u2")).
Proof.
  intros prev. split.
  - rewrite (proj1 (filter_changes (js "panchayath_id") prev) (JStr (js "u2"))
                   (js "ward") ltac:(discriminate)).
    reflexivity.
  - apply (proj1 (proj2 (proj2 (filter_changes (js "panchayath_id") prev)))
                 (JStr (js "u2")) ltac:(discriminate)).
Defined.

(** ** The statistics *)

Lemma role_eqb_eq (a b : AgentRole) : role_eqb a b = true <-> a = b.
Proof. destruct a, b; cbn; split; congruence. Qed.

Lemma shown_assign_same (r : AgentRole) (n : Z) (acc : list (AgentRole * Z)) :
  shown (assign r n acc) r = Some n.
Proof.
  induction acc as [|[r' m] acc IH]; cbn.
  - now destruct r.
  - destruct (role_eqb r r') eqn:E; cbn.
    + now destruct r.
    + now rewrite E.
Qed.

Lemma shown_assign_other (r r' : AgentRole) (n : Z) (acc : list (AgentRole * Z)) :
  r' <> r -> shown (assign r n acc) r' = shown acc r'.
Proof.
  intros H. induction acc as [|[r0 m] acc IH]; cbn.
  - destruct (role_eqb r' r) eqn:E; [|reflexivity].
    apply role_eqb_eq in E. now destruct H.
  - destruct (role_eqb r r0) eqn:E; cbn.
    + apply role_eqb_eq in E. subst r0.
      destruct (role_eqb r' r) eqn:E'; [|reflexivity].
      apply role_eqb_eq in E'. now destruct H.
    + destruct (role_eqb r' r0); [reflexivity | exact IH].
Qed.

Lemma role_eq_dec (a b : AgentRole) : {a = b} + {a <> b}.
Proof. decide equality. Qed.

Lemma shown_byRole (ROLE_HIERARCHY : list AgentRole) (agents : list Agent)
  (r : AgentRole) :
  In r ROLE_HIERARCHY ->
  shown (byRole ROLE_HIERARCHY agents) r = Some (count_role agents r).
Proof.
  unfold byRole, count_role.
  set (f := fun acc r0 => assign r0 _ acc).
  assert (G : forall l acc,
             shown (fold_left f l acc) r
             = if in_dec role_eq_dec r l
               then Some (Z.of_nat (List.length
                            (filter (fun a => role_eqb (role a) r) agents)))
               else shown acc r).
  { induction l as [|r0 l IH] using rev_ind; intros acc; [reflexivity|].
    rewrite fold_left_app. cbn [fold_left]. unfold f at 1.
    destruct (role_eq_dec r0 r) as [->|N].
    - rewrite shown_assign_same.
      destruct (in_dec role_eq_dec r (l ++ [r])) as [_|X]; [reflexivity|].
      destruct X. apply in_or_app. right. now left.
    - rewrite shown_assign_other by congruence. rewrite IH.
      destruct (in_dec role_eq_dec r l) as [I|I],
               (in_dec role_eq_dec r (l ++ [r0])) as [J|J]; try reflexivity.
      + destruct J. apply in_or_app. now left.
      + apply in_app_or in J as [J | [J | []]]; [now destruct I | congruence]. }
  intros H. rewrite G. destruct (in_dec role_eq_dec r ROLE_HIERARCHY); tauto.
Qed.

Lemma total_from (l : list Z) : forall a, fold_left Z.add l a = a + total l.
Proof.
  unfold total. induction l as [|x l IH]; intros a; cbn; [lia|].
  rewrite IH, (IH x). lia.
Qed.

Lemma total_cons (x : Z) (l : list Z) : total (x :: l) = x + total l.
Proof. unfold total at 1. cbn. now rewrite total_from. Qed.

Lemma total_by {A} (f : A -> Z) (l : list A) : forall x,
  fold_left (fun s a => s + f a) l x = x + total (map f l).
Proof.
  induction l as [|a l IH]; intros x; cbn [fold_left map].
  - unfold total. cbn. lia.
  - rewrite IH, total_cons. lia.
Qed.

(** Each agent is counted under one role of a list that has every role
    once. *)
Lemma total_count_role (roles : list AgentRole) (agents : list Agent) :
  NoDup roles -> (forall r, In r roles) ->
  total (map (count_role agents) roles) = totalAgents agents.
Proof.
  intros N A. unfold totalAgents.
  induction agents as [|a agents IH]; cbn [List.length].
  - unfold count_role. cbn. clear. induction roles; [reflexivity|].
    now rewrite map_cons, total_cons, IHroles.
  - rewrite Nat2Z.inj_succ, <- IH.
    assert (G : forall l, NoDup l ->
               total (map (count_role (a :: agents)) l)
               = total (map (count_role agents) l)
                 + (if in_dec role_eq_dec (role a) l then 1 else 0)).
    { induction l as [|r l IHl]; intros Nl; [reflexivity|].
      inversion Nl as [|? ? Hr Nl']; subst.
      rewrite !map_cons, !total_cons, IHl by exact Nl'.
      unfold count_role at 1 3. cbn [filter].
      destruct (role_eqb (role a) r) eqn:E.
      - apply role_eqb_eq in E. subst r.
        destruct (in_dec role_eq_dec (role a) l) as [I|_]; [now destruct Hr|].
        destruct (in_dec role_eq_dec (role a) (role a :: l)) as [_|X];
          [|destruct X; now left].
        cbn [List.length]. lia.
      - destruct (in_dec role_eq_dec (role a) l) as [I|I],
                 (in_dec role_eq_dec (role a) (r :: l)) as [J|J]; try lia.
        + destruct J. now right.
        + destruct J as [-> | J]; [|now destruct I].
          rewrite (proj2 (role_eqb_eq _ _) eq_refl) in E. discriminate. }
    rewrite (G roles N).
    destruct (in_dec role_eq_dec (role a) roles) as [_|X]; [lia|].
    destruct X. apply A.
Qed.

(** X20: each card of the statistics shows the number of agents of its
    role, for every role that [ROLE_HIERARCHY] lists; when it lists each of
    the four roles once, the cards add up to the total of agents; and when
    no agent other than a PRO has customers, which is what the agent form
    writes, [totalCustomers] is the sum of the counts of all agents. *)
Theorem statistics_add_up (ROLE_HIERARCHY : list AgentRole) (agents : list Agent) :
  (forall r, In r ROLE_HIERARCHY ->
     shown (byRole ROLE_HIERARCHY agents) r = Some (count_role agents r))
  /\ (NoDup ROLE_HIERARCHY -> (forall r, In r ROLE_HIERARCHY) ->
      total (map (count_role agents) ROLE_HIERARCHY) = totalAgents agents)
  /\ ((forall a, In a agents -> role a <> pro -> customer_count a = 0) ->
      totalCustomers agents = total (map customer_count agents)).
Proof.
  split; [|split].
  - intros r. apply shown_byRole.
  - apply total_count_role.
  - intros H. unfold totalCustomers. rewrite total_by, Z.add_0_l.
    induction agents as [|a agents IH]; [reflexivity|].
    cbn [filter map]. rewrite total_cons.
    assert (T : forall b, In b agents -> role b <> pro -> customer_count b = 0)
      by (intros b Hb; apply H; now right).
    destruct (role_eqb (role a) pro) eqn:E.
    + cbn [map]. now rewrite total_cons, (IH T).
    + rewrite (IH T), (H a (or_introl eq_refl)); [lia|].
      intros P. rewrite P in E. discriminate.
Qed.

(** The theorem on two PROs and a coordinator, with the four roles in
    their order. *)
Lemma statistics_add_up_witness :
  let agents := [ {| role := pro; customer_count := 12 |};
                  {| role := coordinator; customer_count := 0 |};
                  {| role := pro; customer_count := 30 |} ] in
  let roles := [team_leader; coordinator; group_leader; pro] in
  shown (byRole roles agents) pro = Some 2
  /\ total (map (count_role agents) roles) = 3
  /\ totalCustomers agents = 42.
Proof.
  intros agents roles.
  destruct (statistics_add_up roles agents) as (H1 & H2 & H3).
  split; [|split].
  - rewrite H1; [reflexivity|]. simpl. auto.
  - rewrite H2; [reflexivity | |].
    + repeat constructor; simpl; intuition discriminate.
    + intros []; simpl; auto.
  - rewrite H3; [reflexivity|].
    intros a [<- | [<- | [<- | []]]] N; try reflexivity; now destruct N.
Defined.
